(** * reselect-immutable-helpers: a shallow embedding of [src/index.js]

    The library is a thin layer of higher-order functions over two
    collaborators: the memoizing selector combinators of reselect and the
    persistent collections of Immutable.  Its properties are about
    object identity (which reference a selector returns) and about the
    one-slot memo cell every selector owns, so the embedding keeps both
    explicit:

    - JavaScript values are primitives or references into an object store;
      equality of two [value]s is reference identity ([===]);
    - the store only grows: no function of the library assigns to an
      object it did not just create, so a computation reports the objects
      it allocated and the caller appends them;
    - a selector is a function together with its private memo state,
      threaded explicitly from one call to the next.

    Numbers are modelled by integers; NaN, signed zeros and fractions are
    outside the model.  Immutable collections are lists and string-keyed
    maps.  Every object inherits [valueOf] from [Object.prototype]; a
    plain object can override it, and can have an [equals] method, with
    caller-written functions (this is how a date, a boxed primitive or a
    value object is written), and [Immutable.is] calls them. *)

From Stdlib Require Import List ZArith String Ascii Bool Arith Lia.
Import ListNotations.
Local Open Scope string_scope.
Local Open Scope list_scope.

Set Implicit Arguments.

(** ** Values and the object store *)

Definition addr := nat.

(** Function objects: the three collection methods the library calls, and
    caller-written functions, known by a number. *)
Inductive fn : Type :=
| NativeToJS
| NativeGet
| NativeHas
| UserFn (n : nat).

Inductive value : Type :=
| VUndefined
| VNull
| VBool (b : bool)
| VNum (n : Z)
| VStr (s : string)
| VFunc (f : fn)
| VRef (a : addr).

Inductive object : Type :=
| Plain (props : list (string * value))
| Arr (elems : list value)
| IList (elems : list value)
| IMap (entries : list (string * value)).

Definition heap := list object.

Definition lookup (h : heap) (a : addr) : option object := nth_error h a.

Inductive exn : Type :=
| TypeError (msg : string)
| RangeError (msg : string)
| Thrown (v : value).

Inductive outcome (A : Type) : Type :=
| Return (a : A)
| Throw (e : exn).
Arguments Throw {A} e.

(** A computation reads the store and answers with an outcome and the
    objects it allocated, oldest first. *)
Definition M (A : Type) : Type := heap -> outcome A * list object.

Definition ret {A} (a : A) : M A := fun _ => (Return a, []).

Definition throw {A} (e : exn) : M A := fun _ => (Throw e, []).

Definition bind {A B} (m : M A) (k : A -> M B) : M B :=
  fun h =>
    match m h with
    | (Throw e, d) => (Throw e, d)
    | (Return a, d) =>
        match k a (h ++ d) with
        | (r, d') => (r, d ++ d')
        end
    end.

Definition alloc (o : object) : M value :=
  fun h => (Return (VRef (List.length h)), [o]).

Fixpoint mapM {A B} (f : A -> M B) (l : list A) : M (list B) :=
  match l with
  | [] => ret []
  | x :: l' => bind (f x) (fun y => bind (mapM f l') (fun ys => ret (y :: ys)))
  end.

(** [xs.every((x, i) => p(x, ys[i]))] over two lists of one length: the
    first pair that fails ends the loop. *)
Fixpoint all2M {A} (p : A -> A -> M bool) (xs ys : list A) : M bool :=
  match xs, ys with
  | [], [] => ret true
  | x :: xs', y :: ys' =>
      bind (p x y) (fun b => if b then all2M p xs' ys' else ret false)
  | _, _ => ret false
  end.

(** [xs.every(p)] *)
Fixpoint forallM {A} (p : A -> M bool) (xs : list A) : M bool :=
  match xs with
  | [] => ret true
  | x :: xs' => bind (p x) (fun b => if b then forallM p xs' else ret false)
  end.

(** ** Primitive operations of the language *)

Definition fn_eqb (f g : fn) : bool :=
  match f, g with
  | NativeToJS, NativeToJS => true
  | NativeGet, NativeGet => true
  | NativeHas, NativeHas => true
  | UserFn n, UserFn m => Nat.eqb n m
  | _, _ => false
  end.

(** [a === b] *)
Definition strict_equal (a b : value) : bool :=
  match a, b with
  | VUndefined, VUndefined => true
  | VNull, VNull => true
  | VBool x, VBool y => Bool.eqb x y
  | VNum x, VNum y => Z.eqb x y
  | VStr x, VStr y => String.eqb x y
  | VFunc f, VFunc g => fn_eqb f g
  | VRef x, VRef y => Nat.eqb x y
  | _, _ => false
  end.

(** ToBoolean *)
Definition truthy (v : value) : bool :=
  match v with
  | VUndefined | VNull => false
  | VBool b => b
  | VNum n => negb (Z.eqb n 0)
  | VStr s => negb (String.eqb s "")
  | VFunc _ | VRef _ => true
  end.

Definition typeof (v : value) : string :=
  match v with
  | VUndefined => "undefined"
  | VNull => "object"
  | VBool _ => "boolean"
  | VNum _ => "number"
  | VStr _ => "string"
  | VFunc _ => "function"
  | VRef _ => "object"
  end.

Fixpoint assoc {A} (k : string) (l : list (string * A)) : option A :=
  match l with
  | [] => None
  | (k', v) :: l' => if String.eqb k k' then Some v else assoc k l'
  end.

(** [v.name], at the names the library reads: [toJS], [get] and [has].
    Plain objects answer with their own properties; the two collection
    classes answer with their methods; arrays, functions and primitives
    have no property of these names. *)
Definition get_prop (h : heap) (v : value) (name : string) : value :=
  match v with
  | VRef a =>
      match lookup h a with
      | Some (Plain ps) =>
          match assoc name ps with Some x => x | None => VUndefined end
      | Some (IList _) | Some (IMap _) =>
          if String.eqb name "toJS" then VFunc NativeToJS
          else if String.eqb name "get" then VFunc NativeGet
          else if String.eqb name "has" then VFunc NativeHas
          else VUndefined
      | _ => VUndefined
      end
  | _ => VUndefined
  end.

(** [name in v], for an object [v] *)
Definition has_property (h : heap) (v : value) (name : string) : bool :=
  match v with
  | VRef a =>
      match lookup h a with
      | Some (Plain ps) =>
          match assoc name ps with Some _ => true | None => false end
      | Some (IList _) | Some (IMap _) =>
          String.eqb name "toJS" || String.eqb name "get" || String.eqb name "has"
      | _ => false
      end
  | _ => false
  end.

(** [obj[key] = v] on the property list of a plain object *)
Fixpoint set_prop (key : string) (v : value) (ps : list (string * value))
  : list (string * value) :=
  match ps with
  | [] => [(key, v)]
  | (k, x) :: ps' =>
      if String.eqb key k then (k, v) :: ps' else (k, x) :: set_prop key v ps'
  end.

Fixpoint build_object (keys : list string) (values : list value)
  (ps : list (string * value)) : list (string * value) :=
  match keys, values with
  | k :: keys', v :: values' => build_object keys' values' (set_prop k v ps)
  | _, _ => ps
  end.

Fixpoint all2 {A} (p : A -> A -> bool) (xs ys : list A) : bool :=
  match xs, ys with
  | [], [] => true
  | x :: xs', y :: ys' => p x y && all2 p xs' ys'
  | _, _ => false
  end.

(** The [i]-th actual argument of a call; a missing one reads as
    [undefined]. *)
Definition arg (i : nat) (args : list value) : value := nth i args VUndefined.

(** Caller-written functions (a [toJS] method of a duck-typed object, a
    function passed as a key) are a parameter of the development: function
    number [n] applied to [this] and its arguments. *)
Class Host : Type := { invoke : nat -> value -> list value -> M value }.

(** ** The persistent collections (Immutable 3.8) *)

Module Immutable.

Definition digit_of (c : ascii) : option Z :=
  let n := nat_of_ascii c in
  if (48 <=? n)%nat && (n <=? 57)%nat then Some (Z.of_nat (n - 48)) else None.

Fixpoint parse_digits (s : string) (acc : Z) : option Z :=
  match s with
  | EmptyString => Some acc
  | String c s' =>
      match digit_of c with
      | Some d => parse_digits s' (acc * 10 + d)
      | None => None
      end
  end.

(** A string is an array index when it is the canonical decimal form of
    an unsigned 32-bit integer other than 2^32-1. *)
Definition array_index (s : string) : option Z :=
  match s with
  | EmptyString => None
  | String c rest =>
      if Ascii.eqb c "0" && negb (String.eqb rest "") then None
      else match parse_digits s 0 with
           | Some n => if (n <? 4294967295)%Z then Some n else None
           | None => None
           end
  end.

(** [wrapIndex(iter, index)]; [None] stands for its NaN. *)
Definition wrapIndex (size : Z) (index : value) : option Z :=
  match index with
  | VNum n => Some (if (n <? 0)%Z then (size + n)%Z else n)
  | VStr s => array_index s
  | _ => None
  end.

Definition in_bounds (size : Z) (index : value) : option nat :=
  match wrapIndex size index with
  | Some i => if (0 <=? i)%Z && (i <? size)%Z then Some (Z.to_nat i) else None
  | None => None
  end.

(** [List.prototype.get(index, notSetValue)] *)
Definition List_get (xs : list value) (index notSetValue : value) : value :=
  match in_bounds (Z.of_nat (List.length xs)) index with
  | Some i => nth i xs VUndefined
  | None => notSetValue
  end.

(** [List.prototype.has(index)] *)
Definition List_has (xs : list value) (index : value) : bool :=
  match in_bounds (Z.of_nat (List.length xs)) index with
  | Some _ => true
  | None => false
  end.

(** [Map.prototype.get(k, notSetValue)] on a string-keyed map *)
Definition Map_get (es : list (string * value)) (k notSetValue : value) : value :=
  match k with
  | VStr s => match assoc s es with Some v => v | None => notSetValue end
  | _ => notSetValue
  end.

(** [Map.prototype.has(k)] *)
Definition Map_has (es : list (string * value)) (k : value) : bool :=
  match k with
  | VStr s => match assoc s es with Some _ => true | None => false end
  | _ => false
  end.

(** [this.get(key, notSetValue)] *)
Definition get (this : value) (args : list value) : M value :=
  fun h =>
    match this with
    | VRef a =>
        match lookup h a with
        | Some (IList xs) => (Return (List_get xs (arg 0 args) (arg 1 args)), [])
        | Some (IMap es) => (Return (Map_get es (arg 0 args) (arg 1 args)), [])
        | _ => (Throw (TypeError "get called on a value that is not a collection"), [])
        end
    | _ => (Throw (TypeError "get called on a value that is not a collection"), [])
    end.

(** [this.has(key)] *)
Definition has (this : value) (args : list value) : M value :=
  fun h =>
    match this with
    | VRef a =>
        match lookup h a with
        | Some (IList xs) => (Return (VBool (List_has xs (arg 0 args))), [])
        | Some (IMap es) => (Return (VBool (Map_has es (arg 0 args))), [])
        | _ => (Throw (TypeError "has called on a value that is not a collection"), [])
        end
    | _ => (Throw (TypeError "has called on a value that is not a collection"), [])
    end.

Section Conversion.
Context {host : Host}.

(** [this.toJS()]: a fresh array or plain object, every element that
    has a [toJS] method converted by it.  Running out of depth is the
    engine's stack overflow. *)
Fixpoint toJS_fuel (n : nat) (this : value) : M value :=
  match n with
  | O => throw (RangeError "Maximum call stack size exceeded")
  | S n' =>
      let convert (v : value) : M value :=
        fun h =>
          if truthy v then
            match get_prop h v "toJS" with
            | VFunc NativeToJS => toJS_fuel n' v h
            | VFunc NativeGet => get v [] h
            | VFunc NativeHas => has v [] h
            | VFunc (UserFn m) => invoke m v [] h
            | _ => (Return v, [])
            end
          else (Return v, []) in
      fun h =>
        match this with
        | VRef a =>
            match lookup h a with
            | Some (IList xs) =>
                bind (mapM convert xs) (fun ys => alloc (Arr ys)) h
            | Some (IMap es) =>
                bind (mapM convert (map snd es))
                     (fun ys => alloc (Plain (build_object (map fst es) ys []))) h
            | _ => (Throw (TypeError "toJS called on a value that is not a collection"), [])
            end
        | _ => (Throw (TypeError "toJS called on a value that is not a collection"), [])
        end
  end.

Definition toJS (this : value) : M value :=
  fun h => toJS_fuel (S (List.length h)) this h.

(** [f.call(this, ...args)] for a function object found in a property *)
Definition method_call (f : fn) (this : value) (args : list value) : M value :=
  match f with
  | NativeToJS => toJS this
  | NativeGet => get this args
  | NativeHas => has this args
  | UserFn n => invoke n this args
  end.

(** The own property [name] of a plain object *)
Definition own_property (h : heap) (v : value) (name : string) : option value :=
  match v with
  | VRef a =>
      match lookup h a with
      | Some (Plain ps) => assoc name ps
      | _ => None
      end
  | _ => None
  end.

(** [v.valueOf()] for a truthy [v], where [typeof v.valueOf === 'function']:
    the method a plain object has of its own, or else the inherited one,
    which answers [v] itself (so does the one of a number, a string or a
    boolean).  [None] where the object's own [valueOf] is not a
    function. *)
Definition valueOf_method (h : heap) (v : value) : option (M value) :=
  match own_property h v "valueOf" with
  | None => Some (ret v)
  | Some (VFunc f) => Some (method_call f v [])
  | Some _ => None
  end.

(** [typeof v.equals === 'function'], for a truthy [v]: collections have
    the library's [equals], a plain object may have one of its own, and
    nothing else has one. *)
Inductive equals_method : Type :=
| CollectionEquals
| OwnEquals (f : fn).

Definition equals_of (h : heap) (v : value) : option equals_method :=
  match v with
  | VRef a =>
      match lookup h a with
      | Some (IList _) | Some (IMap _) => Some CollectionEquals
      | Some (Plain ps) =>
          match assoc "equals" ps with
          | Some (VFunc f) => Some (OwnEquals f)
          | _ => None
          end
      | _ => None
      end
  | _ => None
  end.

(** [is(NOT_SET, v)], which [deepEqual] computes for a key the other map
    does not have: always false, after the [valueOf] of a truthy [v] has
    run. *)
Definition is_not_set (v : value) : M bool :=
  fun h =>
    if truthy v then
      match valueOf_method h v with
      | Some valueOf => bind valueOf (fun _ => ret false) h
      | None => (Return false, [])
      end
    else (Return false, []).

(** [deepEqual(a, b)] for a collection [a], with [is_] the comparison of
    the values they hold: collections of the same class and size whose
    values are pairwise equal, in the order [b] enumerates them. *)
Definition deepEqual (is_ : value -> value -> M bool) (a b : value) : M bool :=
  fun h =>
    match a, b with
    | VRef pa, VRef pb =>
        match lookup h pa, lookup h pb with
        | Some (IList xs), Some (IList ys) =>
            if Nat.eqb (List.length xs) (List.length ys)
            then all2M is_ xs ys h
            else (Return false, [])
        | Some (IMap xs), Some (IMap ys) =>
            if Nat.eqb (List.length xs) (List.length ys)
            then forallM (fun kv =>
                            match assoc (fst kv) xs with
                            | Some u => is_ u (snd kv)
                            | None => is_not_set (snd kv)
                            end) ys h
            else (Return false, [])
        | _, _ => (Return false, [])
        end
    | _, _ => (Return false, [])
    end.

(** [Immutable.is(valueA, valueB)], with [deep] for the [equals] of a
    collection: identical values are equal; a falsy value is equal to
    itself only; otherwise the two [valueOf()] are compared in the same
    way, and then [valueA.equals(valueB)] decides, where both values have
    an [equals] method. *)
Definition is_with (deep : value -> value -> M bool) (valueA valueB : value)
  : M bool :=
  let equals (a b : value) : M bool :=
    fun h =>
      match equals_of h a, equals_of h b with
      | Some CollectionEquals, Some _ => deep a b h
      | Some (OwnEquals f), Some _ =>
          bind (method_call f a [b]) (fun r => ret (truthy r)) h
      | _, _ => (Return false, [])
      end in
  if strict_equal valueA valueB then ret true
  else if negb (truthy valueA) || negb (truthy valueB) then ret false
  else
    fun h =>
      match valueOf_method h valueA, valueOf_method h valueB with
      | Some valueOfA, Some valueOfB =>
          bind valueOfA (fun a =>
          bind valueOfB (fun b =>
            if strict_equal a b then ret true
            else if negb (truthy a) || negb (truthy b) then ret false
            else equals a b)) h
      | _, _ => equals valueA valueB h
      end.

(** The depth of the recursion through [equals] is the nesting of the
    collections; running out of it is the engine's stack overflow. *)
Fixpoint is_fuel (n : nat) : value -> value -> M bool :=
  is_with
    (match n with
     | O => fun _ _ => throw (RangeError "Maximum call stack size exceeded")
     | S n' => deepEqual (is_fuel n')
     end).

(** [Immutable.is], written [is_] as [is] is reserved.  Collections hold
    values older than themselves, so their nesting is below the size of
    the store. *)
Definition is_ (valueA valueB : value) : M bool :=
  fun h => is_fuel (S (List.length h)) valueA valueB h.

End Conversion.

End Immutable.

Section Calls.
Context {host : Host}.

(** [f.apply(this, args)] *)
Definition apply_fn (f : fn) (this : value) (args : list value) : M value :=
  match f with
  | NativeToJS => Immutable.toJS this
  | NativeGet => Immutable.get this args
  | NativeHas => Immutable.has this args
  | UserFn n => invoke n this args
  end.

(** [this.name(args)] *)
Definition call_method (this : value) (name : string) (args : list value)
  : M value :=
  fun h =>
    match this with
    | VUndefined | VNull =>
        (Throw (TypeError "Cannot read property of undefined or null"), [])
    | _ =>
        match get_prop h this name with
        | VFunc f => apply_fn f this args h
        | _ => (Throw (TypeError "is not a function"), [])
        end
    end.

End Calls.

(** ** The memoizing selector combinators (reselect)

    [defaultMemoize] keeps the arguments and the result of the last call
    of a function.  A selector made by [createSelectorCreator] evaluates
    its dependencies in order at every call and hands their values to the
    memoized result function.  (From version 3 on, reselect also skips the
    dependencies, and answers with its last result, when a selector is
    called with the very arguments of its last call.  That shortcut is
    not part of the embedding: a call of the embedding is a call in which
    the dependencies are evaluated, and the memo cell a skipped call
    leaves behind is the one it found.) *)

(** A selector is a function of the state that owns some private memory:
    [cell] is the type of that memory, [fresh] its content when the
    selector is created, and [call] one invocation, which answers with
    the outcome, the memory it leaves behind and the objects it
    allocated.  A plain function of the state has [cell := unit]. *)
Record Selector : Type := MkSelector {
  cell : Type;
  fresh : cell;
  call : value -> cell -> heap -> outcome value * cell * list object
}.

(** The memory of a list of selectors *)
Fixpoint cells (ds : list Selector) : Type :=
  match ds with
  | [] => unit
  | d :: ds' => (cell d * cells ds')%type
  end.

Fixpoint fresh_cells (ds : list Selector) : cells ds :=
  match ds with
  | [] => tt
  | d :: ds' => (fresh d, fresh_cells ds')
  end.

(** [dependencies[i].apply(null, arguments)] for every [i], in order; the
    first failure ends the loop. *)
Fixpoint call_deps (ds : list Selector) (state : value)
  : cells ds -> heap -> outcome (list value) * cells ds * list object :=
  match ds with
  | [] => fun _ _ => (Return [], tt, [])
  | d :: ds' =>
      fun cs h =>
        match call d state (fst cs) h with
        | (Throw e, c1, d1) => (Throw e, (c1, snd cs), d1)
        | (Return v, c1, d1) =>
            match call_deps ds' state (snd cs) (h ++ d1) with
            | (Throw e, cs1, d2) => (Throw e, (c1, cs1), d1 ++ d2)
            | (Return vs, cs1, d2) => (Return (v :: vs), (c1, cs1), d1 ++ d2)
            end
        end
  end.

(** An equality check is a function of the caller: it can run code of
    its own, fail and allocate. *)
Definition equality := value -> value -> M bool.

Definition defaultEqualityCheck : equality := fun a b => ret (strict_equal a b).

(** The loop over the two argument lists ends at the first pair the check
    does not accept. *)
Definition areArgumentsShallowlyEqual (equalityCheck : equality)
  (prev : option (list value)) (next : list value) : M bool :=
  match prev with
  | None => ret false
  | Some prev =>
      if Nat.eqb (List.length prev) (List.length next)
      then all2M equalityCheck prev next
      else ret false
  end.

(** The two variables a memoized function closes over *)
Record memo : Type := Memo {
  lastArgs : option (list value);
  lastResult : value
}.

Definition memoized : Type :=
  list value -> memo -> heap -> outcome value * memo * list object.

Definition new_memo : memo := {| lastArgs := None; lastResult := VNull |}.

(** [lastArgs] and [lastResult] are assigned after the check and the
    function have returned: a failure of either leaves the cell as it
    was. *)
Definition defaultMemoize (func : list value -> M value)
  (equalityCheck : equality) : memoized :=
  fun args m h =>
    match areArgumentsShallowlyEqual equalityCheck (lastArgs m) args h with
    | (Throw e, d) => (Throw e, m, d)
    | (Return true, d) =>
        (Return (lastResult m),
         {| lastArgs := Some args; lastResult := lastResult m |}, d)
    | (Return false, d) =>
        match func args (h ++ d) with
        | (Return r, d') =>
            (Return r, {| lastArgs := Some args; lastResult := r |}, d ++ d')
        | (Throw e, d') => (Throw e, m, d ++ d')
        end
    end.

Definition createSelectorCreator
  (memoize : (list value -> M value) -> equality -> memoized)
  (equalityCheck : equality)
  (dependencies : list Selector) (resultFunc : list value -> M value)
  : Selector :=
  let memoizedResultFunc := memoize resultFunc equalityCheck in
  {| cell := (cells dependencies * memo)%type;
     fresh := (fresh_cells dependencies, new_memo);
     call := fun state c h =>
       match call_deps dependencies state (fst c) h with
       | (Throw e, cs, d) => (Throw e, (cs, snd c), d)
       | (Return params, cs, d) =>
           match memoizedResultFunc params (snd c) (h ++ d) with
           | (out, m, d') => (out, (cs, m), d ++ d')
           end
       end |}.

Definition createSelector : list Selector -> (list value -> M value) -> Selector :=
  createSelectorCreator defaultMemoize defaultEqualityCheck.

(** [selectors] lists the properties of the argument object in the order
    [Object.keys] enumerates them. *)
Definition createStructuredSelector (selectors : list (string * Selector))
  : Selector :=
  let objectKeys := map fst selectors in
  createSelector
    (map snd selectors)
    (fun values => alloc (Plain (build_object objectKeys values []))).

(** ** [src/index.js] *)

(** The default-parameter binding [(item = null)] *)
Definition default_null (v : value) : value :=
  match v with
  | VUndefined => VNull
  | given => given
  end.

Section Index.
Context {host : Host}.

Definition createImmutableComparingSelector
  : list Selector -> (list value -> M value) -> Selector :=
  createSelectorCreator defaultMemoize Immutable.is_.

Definition selectorToJS (selector : Selector) : Selector :=
  createImmutableComparingSelector
    [selector]
    (fun args =>
       let raw := arg 0 args in
       if truthy raw then call_method raw "toJS" [] else ret VNull).

Definition ensureJSSelector (selector : Selector) : Selector :=
  createImmutableComparingSelector
    [selector]
    (fun args =>
       let item := default_null (arg 0 args) in
       if negb (truthy item) || negb (String.eqb (typeof item) "object")
       then ret item
       else
         fun h =>
           if has_property h item "toJS"
              && String.eqb (typeof (get_prop h item "toJS")) "function"
           then call_method item "toJS" [] h
           else ret item h).

Definition createPropsSelector (selectors : list (string * Selector))
  : Selector :=
  let wrappedSelectors :=
    map (fun entry => (fst entry, ensureJSSelector (snd entry))) selectors in
  createStructuredSelector wrappedSelectors.

(** The [key] argument of the two lookup builders.  The builders branch on
    [typeof key === 'function']: a key that is a function is a selector
    ([KeySelector]), any other key is a value ([KeyValue]). *)
Inductive key_arg : Type :=
| KeyValue (k : value)
| KeySelector (s : Selector).

Definition createGetSelector (selector : Selector) (key : key_arg)
  (defaultValue : value) : Selector :=
  match key with
  | KeySelector key =>
      createSelector
        [selector; key]
        (fun args =>
           let obj := arg 0 args in
           let keyValue := arg 1 args in
           call_method obj "get" [keyValue; defaultValue])
  | KeyValue key =>
      createSelector
        [selector]
        (fun args =>
           let obj := arg 0 args in
           call_method obj "get" [key; defaultValue])
  end.

Definition invertSelector (selector : Selector) : Selector :=
  createSelector
    [selector]
    (fun args => let bool := arg 0 args in ret (VBool (negb (truthy bool)))).

Definition createHasSelector (selector : Selector) (key : key_arg) : Selector :=
  match key with
  | KeySelector key =>
      createSelector
        [selector; key]
        (fun args =>
           let obj := arg 0 args in
           let keyValue := arg 1 args in
           call_method obj "has" [keyValue])
  | KeyValue key =>
      createSelector
        [selector]
        (fun args =>
           let obj := arg 0 args in
           call_method obj "has" [key])
  end.

End Index.

(** ** Vocabulary of the properties *)

(** The outcome of a call, without the memory and the allocations *)
Definition answer {C : Type} (x : outcome value * C * list object) : outcome value :=
  fst (fst x).

(** [typeof v.name === 'function']: the value has a callable [name] *)
Definition callable (h : heap) (v : value) (name : string) : bool :=
  match get_prop h v name with
  | VFunc _ => true
  | _ => false
  end.

Definition is_collection (o : object) : bool :=
  match o with
  | IList _ | IMap _ => true
  | _ => false
  end.

(** The collection's own get-with-default and membership test *)
Definition collection_get (o : object) (key notSetValue : value) : value :=
  match o with
  | IList xs => Immutable.List_get xs key notSetValue
  | IMap es => Immutable.Map_get es key notSetValue
  | _ => VUndefined
  end.

Definition collection_has (o : object) (key : value) : bool :=
  match o with
  | IList xs => Immutable.List_has xs key
  | IMap es => Immutable.Map_has es key
  | _ => false
  end.

(** The values a collection holds *)
Definition elements (o : object) : list value :=
  match o with
  | IList xs => xs
  | IMap es => map snd es
  | _ => []
  end.

(** A store as the collection library builds it: a collection is made
    from values that exist, so the references it holds are older than
    itself. *)
Definition older (h : heap) : Prop :=
  forall a o b, lookup h a = Some o -> In (VRef b) (elements o) -> b < a.

(** A store of plain data: collections hold older values, and no plain
    object has a [valueOf] or an [equals] of its own, so that
    [Immutable.is] runs no code of the caller. *)
Definition data_store (h : heap) : Prop :=
  older h
  /\ forall a ps, lookup h a = Some (Plain ps) ->
                  assoc "valueOf" ps = None /\ assoc "equals" ps = None.

(** The memories a selector can be found in: the one it is created with,
    and the ones its calls leave behind, while the store grows at will
    between the calls. *)
Inductive reachable (S : Selector) : cell S -> heap -> Prop :=
| reach_fresh : forall h, reachable S (fresh S) h
| reach_call : forall c h state out c' d,
    reachable S c h -> call S state c h = (out, c', d) -> reachable S c' (h ++ d)
| reach_grow : forall c h d, reachable S c h -> reachable S c (h ++ d).

Fixpoint cells_reachable (ds : list Selector) : cells ds -> heap -> Prop :=
  match ds with
  | [] => fun _ _ => True
  | d :: ds' => fun cs h => reachable d (fst cs) h /\ cells_reachable ds' (snd cs) h
  end.

(** A memo cell agrees with a relation [R] between the arguments and the
    result of the memoized function. *)
Definition memo_ok (R : heap -> list value -> value -> Prop) (h : heap) (m : memo)
  : Prop :=
  forall prev, lastArgs m = Some prev -> R h prev (lastResult m).

(** What the memo cell of each builder remembers about its last
    argument *)
Definition toJS_result (h : heap) (args : list value) (r : value) : Prop :=
  truthy (arg 0 args) = false -> r = VNull.

Definition ensureJS_result (h : heap) (args : list value) (r : value) : Prop :=
  truthy (arg 0 args) = false -> r = default_null (arg 0 args).

(** What it remembers, in a store of plain data, about a truthy
    argument: [selectorToJS] has converted it, so it has a [toJS] method;
    [ensureJSSelector] has returned it as it is, unless it has one. *)
Definition toJS_capable (h : heap) (args : list value) (r : value) : Prop :=
  data_store h -> truthy (arg 0 args) = true ->
  callable h (arg 0 args) "toJS" = true.

Definition ensureJS_passes (h : heap) (args : list value) (r : value) : Prop :=
  data_store h -> truthy (arg 0 args) = true ->
  callable h (arg 0 args) "toJS" = false -> r = arg 0 args.

Definition method_result (name : string) (method : object -> list value -> value)
  (rest : list value -> list value) (h : heap) (args : list value) (r : value)
  : Prop :=
  callable h (arg 0 args) name = true
  /\ forall a o, arg 0 args = VRef a -> lookup h a = Some o ->
                 is_collection o = true -> r = method o (rest args).

Definition get_method (o : object) (args : list value) : value :=
  collection_get o (arg 0 args) (arg 1 args).

Definition has_method (o : object) (args : list value) : value :=
  VBool (collection_has o (arg 0 args)).

Definition invert_result (h : heap) (args : list value) (r : value) : Prop :=
  r = VBool (negb (truthy (arg 0 args))).

Definition structured_result (keys : list string) (h : heap) (args : list value)
  (r : value) : Prop :=
  exists a, r = VRef a /\ lookup h a = Some (Plain (build_object keys args [])).

(** A selector that answers [v] at [state] whatever its memory and the
    store *)
Definition always_returns (s : Selector) (state v : value) : Prop :=
  forall c h, exists c' d, call s state c h = (Return v, c', d).

(** The values without a conversion capability: what is not an object
    (numbers, strings, booleans, functions), arrays, plain objects without
    a [toJS] property, and plain objects whose [toJS] property is not a
    function. *)
Inductive plain_value (h : heap) : value -> Prop :=
| plain_primitive : forall v, typeof v <> "object" -> plain_value h v
| plain_array : forall a xs, lookup h a = Some (Arr xs) -> plain_value h (VRef a)
| plain_object : forall a ps,
    lookup h a = Some (Plain ps) -> assoc "toJS" ps = None -> plain_value h (VRef a)
| plain_not_callable : forall a ps x,
    lookup h a = Some (Plain ps) -> assoc "toJS" ps = Some x ->
    typeof x <> "function" -> plain_value h (VRef a).

(** ** Selectors, stores and functions of the examples *)

(** [(state) => state.name] *)
Definition prop_selector (name : string) : Selector :=
  {| cell := unit;
     fresh := tt;
     call := fun state _ h =>
       match state with
       | VUndefined | VNull =>
           (Throw (TypeError "Cannot read property of undefined or null"), tt, [])
       | _ => (Return (get_prop h state name), tt, [])
       end |}.

(** [() => { throw e }] *)
Definition failing_selector (e : value) : Selector :=
  {| cell := unit; fresh := tt; call := fun _ _ _ => (Throw (Thrown e), tt, []) |}.

(** [(state) => state] *)
Definition identity_selector : Selector :=
  {| cell := unit; fresh := tt; call := fun state _ _ => (Return state, tt, []) |}.

(** Function 0 answers the string [converted]; function 2 answers the
    [time] property of [this], as the [valueOf] of a date does; function 3
    compares the [id] property of [this] and of its argument, as the
    [equals] of a value object does; every other function throws its own
    number. *)
Definition example_host : Host :=
  {| invoke := fun n this args =>
       match n with
       | 0 => ret (VStr "converted")
       | 2 => fun h => (Return (get_prop h this "time"), [])
       | 3 => fun h =>
                (Return (VBool (strict_equal (get_prop h this "id")
                                             (get_prop h (arg 0 args) "id"))), [])
       | _ => throw (Thrown (VNum (Z.of_nat n)))
       end |}.

(** The reference selector of the test suite:
    [createSelector(rootSelector, ({contents}) => contents.toJS())] *)
Definition referenceSelector : Selector :=
  createSelector
    [identity_selector]
    (fun args h =>
       call_method (host := example_host) (get_prop h (arg 0 args) "contents") "toJS" [] h).

(** The stores of the test suite: two lists with equal contents, a third
    list, and the states that hold them. *)
Definition list_store : heap :=
  [ IList [VNum 1; VNum 2; VNum 3];
    IList [VNum 1; VNum 2; VNum 3];
    IList [VNum 9];
    Plain [("contents", VRef 0)];
    Plain [("contents", VRef 1)];
    Plain [("contents", VRef 2)] ].

Definition state1 : value := VRef 3.
Definition state2 : value := VRef 4.
Definition state3 : value := VRef 5.

(** A map, a list, plain values and the states that hold them *)
Definition lookup_store : heap :=
  [ IMap [("key", VStr "value"); ("bystander", VStr "intervention")];
    IList [VStr "zeroth"; VStr "first"];
    Plain [("contents", VRef 0); ("key", VStr "key"); ("flag", VBool true)];
    Plain [("contents", VRef 1); ("key", VNum 1); ("flag", VBool false)];
    Plain [("toJS", VBool false)];
    Plain [("contents", VRef 4); ("zero", VNum 0); ("empty", VStr "")];
    Plain [("toJS", VFunc (UserFn 1))];
    Plain [("contents", VRef 6)];
    Plain [("toJS", VFunc (UserFn 0))];
    Plain [("contents", VRef 8)];
    Arr [VNum 1; VNum 2; VNum 3];
    Plain [("contents", VRef 10); ("number", VNum 5); ("text", VStr "text")] ].

(** [Immutable.fromJS({test: true, numbers: [1, 1, 2, 3, 5], str: 'string!'})]
    and the state that holds it *)
Definition nested_store : heap :=
  [ IList [VNum 1; VNum 1; VNum 2; VNum 3; VNum 5];
    IMap [("test", VBool true); ("numbers", VRef 0); ("str", VStr "string!")];
    Plain [("contents", VRef 1)] ].

(** Two dates of one time, a record with a [toJS] method and the same
    time, two value objects of one [id], a date whose [valueOf] throws,
    the states that hold them, two lists of the dates, and an object
    whose [get] and [has] throw with the state that holds it *)
Definition value_store : heap :=
  [ Plain [("time", VNum 5); ("valueOf", VFunc (UserFn 2))];
    Plain [("time", VNum 5); ("valueOf", VFunc (UserFn 2))];
    Plain [("time", VNum 5); ("valueOf", VFunc (UserFn 2)); ("toJS", VFunc (UserFn 0))];
    Plain [("id", VStr "a"); ("equals", VFunc (UserFn 3))];
    Plain [("id", VStr "a"); ("equals", VFunc (UserFn 3))];
    Plain [("valueOf", VFunc (UserFn 1))];
    Plain [("contents", VRef 0)];
    Plain [("contents", VRef 1)];
    Plain [("contents", VRef 2)];
    Plain [("contents", VRef 3)];
    Plain [("contents", VRef 4)];
    Plain [("contents", VRef 5)];
    IList [VRef 0; VNum 1];
    IList [VRef 1; VNum 1];
    Plain [("get", VFunc (UserFn 1)); ("has", VFunc (UserFn 1))];
    Plain [("contents", VRef 14); ("key", VStr "key")] ].

(** ** Plain images of collections *)

(** A store of collections and plain data: collections hold older values,
    the keys of a map are distinct, only collections have a callable
    [toJS], and no plain object has a [valueOf] or an [equals] of its
    own. *)
Definition store_ok (h : heap) : Prop :=
  older h
  /\ (forall a es, lookup h a = Some (IMap es) -> NoDup (map fst es))
  /\ (forall a o, lookup h a = Some o -> callable h (VRef a) "toJS" = true ->
                  is_collection o = true)
  /\ (forall a ps, lookup h a = Some (Plain ps) ->
                   assoc "valueOf" ps = None /\ assoc "equals" ps = None).

(** No key occurs twice. *)
Fixpoint distinct (keys : list string) : bool :=
  match keys with
  | [] => true
  | k :: keys' => negb (existsb (String.eqb k) keys') && distinct keys'
  end.

(** Structural equality of two values in such a store, where
    [Immutable.is] runs no caller-written code: identical values, or
    collections of one class and size with pairwise equal contents. *)
Fixpoint same_contents (n : nat) (h : heap) (valueA valueB : value) : bool :=
  if strict_equal valueA valueB then true
  else
    match n with
    | O => false
    | S n' =>
        match valueA, valueB with
        | VRef a, VRef b =>
            match lookup h a, lookup h b with
            | Some (IList xs), Some (IList ys) => all2 (same_contents n' h) xs ys
            | Some (IMap xs), Some (IMap ys) =>
                Nat.eqb (List.length xs) (List.length ys)
                && forallb (fun kv =>
                              match assoc (fst kv) xs with
                              | Some u => same_contents n' h u (snd kv)
                              | None => false
                              end) ys
            | _, _ => false
            end
        | _, _ => false
        end
    end.

(** [r] is the plain image of [v]: an array for a list and a plain object
    with the same keys for a map, the values they hold being plain images
    in turn, and [v] itself for anything else.  The arguments of [all2]
    and [assoc] pair the values of the collection with those of the
    image; the image of a map has as many properties as the map has
    keys, each under a key of the map, and no key twice. *)
Fixpoint converted (n : nat) (h : heap) (v r : value) : bool :=
  match v with
  | VRef a =>
      match lookup h a with
      | Some (IList xs) =>
          match n, r with
          | S n', VRef a' =>
              match lookup h a' with
              | Some (Arr ys) => all2 (converted n' h) xs ys
              | _ => false
              end
          | _, _ => false
          end
      | Some (IMap es) =>
          match n, r with
          | S n', VRef a' =>
              match lookup h a' with
              | Some (Plain ps) =>
                  Nat.eqb (List.length es) (List.length ps)
                  && distinct (map fst ps)
                  && forallb (fun kv =>
                                match assoc (fst kv) es with
                                | Some x => converted n' h x (snd kv)
                                | None => false
                                end) ps
              | _ => false
              end
          | _, _ => false
          end
      | _ => strict_equal v r
      end
  | _ => strict_equal v r
  end.

(** The nesting of a store is below its size. *)
Definition plain_image (h : heap) (v r : value) : bool :=
  converted (List.length h) h v r.

(** * Properties *)

Unset Implicit Arguments.

(** ** Identity, the store and the equality predicates *)

Lemma fn_eqb_eq : forall f g, fn_eqb f g = true <-> f = g.
Proof.
  intros f g; split.
  - destruct f, g; simpl; intro H; try discriminate; try reflexivity.
    apply Nat.eqb_eq in H; now subst.
  - intros ->; destruct g; simpl; auto using Nat.eqb_refl.
Qed.

Lemma strict_equal_eq : forall a b, strict_equal a b = true <-> a = b.
Proof.
  intros a b; split.
  - destruct a, b; simpl; intro H; try discriminate; try reflexivity.
    + apply Bool.eqb_prop in H; now subst.
    + apply Z.eqb_eq in H; now subst.
    + apply String.eqb_eq in H; now subst.
    + apply fn_eqb_eq in H; now subst.
    + apply Nat.eqb_eq in H; now subst.
  - intros ->; destruct b; simpl; auto.
    + apply Bool.eqb_reflx.
    + apply Z.eqb_refl.
    + apply String.eqb_refl.
    + now apply fn_eqb_eq.
    + apply Nat.eqb_refl.
Qed.

Lemma strict_equal_refl : forall a, strict_equal a a = true.
Proof. intro a; now apply strict_equal_eq. Qed.

Lemma all2_strict_equal : forall xs ys, all2 strict_equal xs ys = true <-> xs = ys.
Proof.
  induction xs as [|x xs IH]; intros [|y ys]; simpl; split; intro H;
    try discriminate; try reflexivity.
  - apply andb_true_iff in H as [Hx Hxs].
    apply strict_equal_eq in Hx; apply IH in Hxs; now subst.
  - injection H as -> ->. rewrite strict_equal_refl; simpl. now apply IH.
Qed.

Lemma bind_ret : forall (A B : Type) (a : A) (k : A -> M B) h,
  bind (ret a) k h = k a h.
Proof.
  intros A B a k h; unfold bind, ret. rewrite app_nil_r. now destruct (k a h).
Qed.

Lemma all2M_strict_equal : forall xs ys h,
  all2M defaultEqualityCheck xs ys h = (Return (all2 strict_equal xs ys), []).
Proof.
  induction xs as [|x xs IH]; intros [|y ys] h; try reflexivity.
  simpl. unfold defaultEqualityCheck at 1. rewrite bind_ret.
  destruct (strict_equal x y); [apply IH | reflexivity].
Qed.

(** The default check runs no code of the caller: it accepts the
    arguments of the last call and no others. *)
Lemma default_equality_check : forall prev next h,
  exists b,
    areArgumentsShallowlyEqual defaultEqualityCheck prev next h = (Return b, [])
    /\ (b = true <-> prev = Some next).
Proof.
  intros [prev|] next h; simpl.
  - destruct (Nat.eqb (List.length prev) (List.length next)) eqn:El.
    + rewrite all2M_strict_equal. eexists; split; [reflexivity|].
      rewrite all2_strict_equal. split; congruence.
    + exists false; split; [reflexivity|]. split; [discriminate|].
      intro E; injection E as ->. now rewrite Nat.eqb_refl in El.
  - exists false; split; [reflexivity|]. split; discriminate.
Qed.

Lemma default_equality_pure : forall prev next h,
  exists b,
    areArgumentsShallowlyEqual defaultEqualityCheck prev next h = (Return b, []).
Proof.
  intros prev next h.
  destruct (default_equality_check prev next h) as (b & E & _). now exists b.
Qed.

Lemma default_equality_hit : forall args h,
  areArgumentsShallowlyEqual defaultEqualityCheck (Some args) args h = (Return true, []).
Proof.
  intros args h.
  destruct (default_equality_check (Some args) args h) as (b & E & Hb).
  rewrite E. now rewrite (proj2 Hb eq_refl).
Qed.

Lemma default_equality_miss : forall prev next h,
  prev <> Some next ->
  areArgumentsShallowlyEqual defaultEqualityCheck prev next h = (Return false, []).
Proof.
  intros prev next h H.
  destruct (default_equality_check prev next h) as (b & E & Hb).
  rewrite E. destruct b; [|reflexivity]. now destruct H; apply Hb.
Qed.

Lemma default_equality_args : forall prev next h d,
  areArgumentsShallowlyEqual defaultEqualityCheck (Some prev) next h = (Return true, d) ->
  prev = next /\ d = [].
Proof.
  intros prev next h d H.
  destruct (default_equality_check (Some prev) next h) as (b & E & Hb).
  rewrite E in H. injection H as -> <-. split; [|reflexivity].
  assert (K : Some prev = Some next) by now apply Hb. now injection K.
Qed.

Lemma lookup_grow : forall h d a o,
  lookup h a = Some o -> lookup (h ++ d) a = Some o.
Proof.
  unfold lookup; intros h d a o H.
  rewrite nth_error_app1; [exact H|].
  apply nth_error_Some; congruence.
Qed.

Lemma lookup_fresh : forall h o d, lookup (h ++ o :: d) (List.length h) = Some o.
Proof.
  unfold lookup; intros h o d.
  rewrite nth_error_app2 by lia. now rewrite Nat.sub_diag.
Qed.

Lemma get_prop_function_grow : forall h d v name f,
  get_prop h v name = VFunc f -> get_prop (h ++ d) v name = VFunc f.
Proof.
  intros h d v name f; destruct v; simpl; try discriminate.
  destruct (lookup h a) as [o|] eqn:E; [|discriminate].
  now rewrite (lookup_grow h d a _ E).
Qed.

Lemma callable_grow : forall h d v name,
  callable h v name = true -> callable (h ++ d) v name = true.
Proof.
  unfold callable; intros h d v name H.
  destruct (get_prop h v name) eqn:E; try discriminate.
  now rewrite (get_prop_function_grow h d v name _ E).
Qed.

Lemma callable_allocated : forall h a name,
  callable h (VRef a) name = true -> exists o, lookup h a = Some o.
Proof.
  unfold callable; simpl; intros h a name H.
  destruct (lookup h a) as [o|]; [now exists o | discriminate].
Qed.

Lemma callable_collection : forall h a o name,
  lookup h a = Some o -> is_collection o = true ->
  (name = "toJS" \/ name = "get" \/ name = "has") ->
  callable h (VRef a) name = true.
Proof.
  unfold callable; simpl; intros h a o name -> Ho Hn.
  destruct o; try discriminate; destruct Hn as [-> | [-> | ->]]; reflexivity.
Qed.

(** ** The equality checks *)

Lemma equal_arguments_one : forall (eqc : equality) p v h,
  areArgumentsShallowlyEqual eqc (Some [p]) [v] h = eqc p v h.
Proof.
  intros eqc p v h; unfold areArgumentsShallowlyEqual; simpl. unfold bind.
  destruct (eqc p v h) as [[[|]|e] d]; unfold ret; now rewrite ?app_nil_r.
Qed.

Lemma equal_arguments_first : forall (eqc : equality) prev next h de,
  areArgumentsShallowlyEqual eqc (Some prev) next h = (Return true, de) ->
  (prev = [] /\ next = [])
  \/ exists d0, eqc (arg 0 prev) (arg 0 next) h = (Return true, d0).
Proof.
  intros eqc prev next h de; unfold areArgumentsShallowlyEqual.
  destruct (Nat.eqb (List.length prev) (List.length next)); [|discriminate].
  destruct prev as [|p prev], next as [|v next]; simpl; try discriminate.
  - intros _; now left.
  - unfold bind, arg; simpl.
    destruct (eqc p v h) as [[[|]|e] d0]; try discriminate.
    intros _; right; now exists d0.
Qed.

Section EqualityFacts.
Context {host : Host}.

Lemma is_with_identical : forall deep a h,
  Immutable.is_with deep a a h = (Return true, []).
Proof. intros deep a h; unfold Immutable.is_with. now rewrite strict_equal_refl. Qed.

Lemma is_with_falsy : forall deep a b h,
  truthy a = false \/ truthy b = false ->
  Immutable.is_with deep a b h = (Return (strict_equal a b), []).
Proof.
  intros deep a b h H; unfold Immutable.is_with.
  destruct (strict_equal a b); [reflexivity|].
  destruct H as [-> | ->]; simpl; rewrite ?orb_true_r; reflexivity.
Qed.

Lemma is_fuel_unfold : forall n,
  Immutable.is_fuel n
  = Immutable.is_with
      (match n with
       | O => fun _ _ => throw (RangeError "Maximum call stack size exceeded")
       | S n' => Immutable.deepEqual (Immutable.is_fuel n')
       end).
Proof. intros [|n]; reflexivity. Qed.

(** Identical values are equal, and a falsy value is equal to itself
    only: [Immutable.is] decides both without running any code of the
    caller. *)
Lemma is_identical : forall a h, Immutable.is_ a a h = (Return true, []).
Proof.
  intros a h; unfold Immutable.is_. rewrite is_fuel_unfold. apply is_with_identical.
Qed.

Lemma is_falsy : forall a b h,
  truthy a = false \/ truthy b = false ->
  Immutable.is_ a b h = (Return (strict_equal a b), []).
Proof.
  intros a b h H; unfold Immutable.is_. rewrite is_fuel_unfold.
  now apply is_with_falsy.
Qed.

(** On a falsy argument the check of a comparing selector is decided
    without any code of the caller, and accepts that very argument
    only. *)
Lemma is_check_falsy : forall prev v h,
  truthy v = false ->
  exists b,
    areArgumentsShallowlyEqual Immutable.is_ prev [v] h = (Return b, [])
    /\ (b = true -> prev = Some [v]).
Proof.
  intros prev v h Hv.
  destruct prev as [[|p [|q prev]]|]; try (exists false; split; [reflexivity | discriminate]).
  rewrite equal_arguments_one, is_falsy by now right.
  eexists; split; [reflexivity|].
  intro E; apply strict_equal_eq in E; now subst.
Qed.

End EqualityFacts.

(** ** Depth of the recursion over collections *)

Lemma assoc_in : forall (k : string) (u : value) es,
  assoc k es = Some u -> In u (map snd es).
Proof.
  induction es as [|[k' x] es IH]; simpl; intro H; [discriminate|].
  destruct (String.eqb k k').
  - injection H as ->; now left.
  - right; now apply IH.
Qed.

Lemma mapM_agree : forall (A B : Type) (f g : A -> M B) (h0 : heap) xs,
  (forall x d, In x xs -> f x (h0 ++ d) = g x (h0 ++ d)) ->
  forall d, mapM f xs (h0 ++ d) = mapM g xs (h0 ++ d).
Proof.
  induction xs as [|x xs IH]; intros H d; simpl; [reflexivity|].
  unfold bind. rewrite (H x d) by now left.
  destruct (g x (h0 ++ d)) as [[y|e] d1]; [|reflexivity].
  rewrite <- app_assoc, IH; [reflexivity|].
  intros x' d' Hin; apply H; now right.
Qed.

Section ConversionDepth.
Context {host : Host}.

(** Above the address of the collection, the depth given to [toJS] does
    not matter either: in a store built by the collection library the
    conversion does not run into the engine's stack limit. *)
Lemma toJS_fuel_stable : forall h0, older h0 ->
  forall n m a d, a < List.length h0 -> a < n -> a < m ->
    Immutable.toJS_fuel n (VRef a) (h0 ++ d) = Immutable.toJS_fuel m (VRef a) (h0 ++ d).
Proof.
  intros h0 Hh; induction n as [|n IH]; intros m a d Ha Hn Hm; [lia|].
  destruct m as [|m]; [lia|]. simpl.
  destruct (lookup h0 a) as [o|] eqn:Eo;
    [|apply nth_error_Some in Ha; unfold lookup in Eo; contradiction].
  rewrite (lookup_grow h0 d a o Eo).
  assert (Hconv : forall x d', In x (elements o) ->
            (if truthy x
             then match get_prop (h0 ++ d') x "toJS" with
                  | VFunc NativeToJS => Immutable.toJS_fuel n x (h0 ++ d')
                  | VFunc NativeGet => Immutable.get x [] (h0 ++ d')
                  | VFunc NativeHas => Immutable.has x [] (h0 ++ d')
                  | VFunc (UserFn k) => invoke k x [] (h0 ++ d')
                  | _ => (Return x, [])
                  end
             else (Return x, []))
            = (if truthy x
               then match get_prop (h0 ++ d') x "toJS" with
                    | VFunc NativeToJS => Immutable.toJS_fuel m x (h0 ++ d')
                    | VFunc NativeGet => Immutable.get x [] (h0 ++ d')
                    | VFunc NativeHas => Immutable.has x [] (h0 ++ d')
                    | VFunc (UserFn k) => invoke k x [] (h0 ++ d')
                    | _ => (Return x, [])
                    end
               else (Return x, []))).
  { intros x d' Hin. destruct (truthy x); [|reflexivity].
    destruct x; try reflexivity.
    pose proof (Hh a o a0 Eo Hin) as Hlt.
    destruct (get_prop (h0 ++ d') (VRef a0) "toJS") as [| | | | |[| | |k]|];
      try reflexivity.
    apply IH; lia. }
  destruct o as [ps|xs|xs|es]; try reflexivity; unfold bind.
  - match goal with
    | |- context [mapM ?F xs (h0 ++ d)] =>
        match goal with
        | |- _ = match mapM ?G xs (h0 ++ d) with _ => _ end =>
            rewrite (mapM_agree _ _ F G h0 xs (fun x d' Hin => Hconv x d' Hin) d)
        end
    end.
    reflexivity.
  - match goal with
    | |- context [mapM ?F (map snd es) (h0 ++ d)] =>
        match goal with
        | |- _ = match mapM ?G (map snd es) (h0 ++ d) with _ => _ end =>
            rewrite (mapM_agree _ _ F G h0 (map snd es)
                       (fun x d' Hin => Hconv x d' Hin) d)
        end
    end.
    reflexivity.
Qed.

Lemma toJS_fuel_enough : forall h a n,
  older h -> a < List.length h -> List.length h < n ->
  Immutable.toJS_fuel n (VRef a) h = Immutable.toJS (VRef a) h.
Proof.
  intros h a n Hh Ha Hn; unfold Immutable.toJS.
  assert (K : Immutable.toJS_fuel n (VRef a) (h ++ [])
              = Immutable.toJS_fuel (S (List.length h)) (VRef a) (h ++ [])).
  { apply toJS_fuel_stable; [exact Hh | exact Ha | lia | lia]. }
  now rewrite app_nil_r in K.
Qed.

End ConversionDepth.

(** ** [Immutable.is] in a store of plain data *)

Lemma data_store_prefix : forall h d, data_store (h ++ d) -> data_store h.
Proof.
  intros h d [Hold Hown]. split.
  - intros a o b Hl Hin. apply (Hold a o b); [now apply lookup_grow | exact Hin].
  - intros a ps Hl. apply (Hown a ps). now apply lookup_grow.
Qed.

Lemma callable_prefix : forall h d v name,
  callable (h ++ d) v name = false -> callable h v name = false.
Proof.
  intros h d v name H. destruct (callable h v name) eqn:E; [|reflexivity].
  now rewrite (callable_grow h d v name E) in H.
Qed.

(** A loop of checks that run no code of the caller *)
Lemma all2M_true : forall (p : value -> value -> M bool) (q : value -> value -> bool) h
                          xs ys d,
  (forall x y d0, p x y h = (Return true, d0) -> d0 = [] /\ q x y = true) ->
  all2M p xs ys h = (Return true, d) ->
  d = [] /\ all2 q xs ys = true.
Proof.
  intros p q h; induction xs as [|x xs IH]; intros [|y ys] d Hp H; simpl in H;
    try discriminate.
  - injection H as <-. now split.
  - unfold bind in H.
    destruct (p x y h) as [[[|]|e] d0] eqn:E; try discriminate.
    destruct (Hp x y d0 E) as [-> Hq]. rewrite app_nil_r in H.
    destruct (all2M p xs ys h) as [[b|e] d1] eqn:E'; [|discriminate].
    injection H as -> <-.
    destruct (IH ys d1 Hp E') as [-> Hrest].
    split; [reflexivity|]. simpl. now rewrite Hq, Hrest.
Qed.

Lemma forallM_true : forall (A : Type) (p : A -> M bool) (q : A -> bool) h xs d,
  (forall x d0, p x h = (Return true, d0) -> d0 = [] /\ q x = true) ->
  forallM p xs h = (Return true, d) ->
  d = [] /\ forallb q xs = true.
Proof.
  intros A p q h; induction xs as [|x xs IH]; intros d Hp H; simpl in H.
  - injection H as <-. now split.
  - unfold bind in H.
    destruct (p x h) as [[[|]|e] d0] eqn:E; try discriminate.
    destruct (Hp x d0 E) as [-> Hq]. rewrite app_nil_r in H.
    destruct (forallM p xs h) as [[b|e] d1]; [|discriminate].
    injection H as -> <-.
    destruct (IH d1 Hp eq_refl) as [-> Hrest].
    split; [reflexivity|]. simpl. now rewrite Hq, Hrest.
Qed.

Lemma all2M_returns : forall (p : value -> value -> M bool) h xs ys,
  (forall x y, In x xs -> exists r, p x y h = (Return r, [])) ->
  exists r, all2M p xs ys h = (Return r, []).
Proof.
  intros p h; induction xs as [|x xs IH]; intros [|y ys] Hp; simpl;
    try (eexists; reflexivity).
  destruct (Hp x y (or_introl eq_refl)) as [[|] E]; unfold bind; rewrite E.
  - rewrite app_nil_r.
    destruct (IH ys (fun x' y' Hin => Hp x' y' (or_intror Hin))) as [r E'].
    rewrite E'. now exists r.
  - now exists false.
Qed.

Lemma forallM_returns : forall (A : Type) (p : A -> M bool) h xs,
  (forall x, In x xs -> exists r, p x h = (Return r, [])) ->
  exists r, forallM p xs h = (Return r, []).
Proof.
  intros A p h; induction xs as [|x xs IH]; intros Hp; simpl;
    try (eexists; reflexivity).
  destruct (Hp x (or_introl eq_refl)) as [[|] E]; unfold bind; rewrite E.
  - rewrite app_nil_r.
    destruct (IH (fun x' Hin => Hp x' (or_intror Hin))) as [r E'].
    rewrite E'. now exists r.
  - now exists false.
Qed.

Section PlainData.
Context {host : Host}.

Lemma data_store_valueOf : forall h v,
  data_store h -> Immutable.valueOf_method h v = Some (ret v).
Proof.
  intros h v [_ Hown].
  unfold Immutable.valueOf_method, Immutable.own_property.
  destruct v as [| | | | | |a]; try reflexivity.
  destruct (lookup h a) as [[ps|xs|xs|es]|] eqn:E; try reflexivity.
  now rewrite (proj1 (Hown a ps E)).
Qed.

Lemma data_store_equals : forall h v e,
  data_store h -> Immutable.equals_of h v = Some e ->
  e = Immutable.CollectionEquals
  /\ exists a o, v = VRef a /\ lookup h a = Some o /\ is_collection o = true.
Proof.
  intros h v e [_ Hown]; unfold Immutable.equals_of.
  destruct v as [| | | | | |a]; try discriminate.
  destruct (lookup h a) as [[ps|xs|xs|es]|] eqn:E; try discriminate.
  - now rewrite (proj2 (Hown a ps E)).
  - intro H; injection H as <-. split; [reflexivity|]. now exists a, (IList xs).
  - intro H; injection H as <-. split; [reflexivity|]. now exists a, (IMap es).
Qed.

(** In a store of plain data [Immutable.is] runs no code of the caller
    and allocates nothing, and the values it accepts have the same
    contents. *)
Lemma is_fuel_same_contents : forall h, data_store h ->
  forall n a b d,
    Immutable.is_fuel n a b h = (Return true, d) ->
    d = [] /\ same_contents n h a b = true.
Proof.
  intros h Hok; induction n as [|n IH]; intros a b d H;
    rewrite is_fuel_unfold in H; unfold Immutable.is_with in H;
    (destruct (strict_equal a b) eqn:E;
     [ injection H as <-; split; [reflexivity|]; simpl; now rewrite E |]);
    (destruct (negb (truthy a) || negb (truthy b)) eqn:T; [discriminate|]);
    rewrite !(data_store_valueOf _ _ Hok) in H; rewrite !bind_ret in H;
    rewrite E, T in H;
    (destruct (Immutable.equals_of h a) as [ea|] eqn:Ea; [|discriminate]);
    (destruct (data_store_equals _ _ _ Hok Ea) as (-> & pa & oa & -> & La & Ca));
    (destruct (Immutable.equals_of h b) as [eb|] eqn:Eb; [|discriminate]);
    (destruct (data_store_equals _ _ _ Hok Eb) as (_ & pb & ob & -> & Lb & Cb)).
  - discriminate.
  - unfold Immutable.deepEqual in H. rewrite La, Lb in H.
    cbn [same_contents]. rewrite E, La, Lb.
    destruct oa as [ps|xs|xs|xs]; try discriminate;
      destruct ob as [ps'|ys|ys|ys]; try discriminate;
      destruct (Nat.eqb (List.length xs) (List.length ys)) eqn:El; try discriminate.
    + now apply (all2M_true _ _ _ _ _ _ IH) in H.
    + simpl.
      apply (forallM_true _ _
               (fun kv => match assoc (fst kv) xs with
                          | Some u => same_contents n h u (snd kv)
                          | None => false
                          end)) in H; [exact H|].
      intros [k y] d0; simpl. destruct (assoc k xs) as [u|].
      * apply IH.
      * unfold Immutable.is_not_set. destruct (truthy y); [|discriminate].
        rewrite (data_store_valueOf _ _ Hok), bind_ret. discriminate.
Qed.

(** In a store of plain data the depth [Immutable.is] runs with is
    enough: the comparison returns, and does not run into the engine's
    stack limit. *)
Lemma is_fuel_returns : forall h, data_store h ->
  forall n a b,
    (forall pa o, a = VRef pa -> lookup h pa = Some o -> pa < n) ->
    exists r, Immutable.is_fuel n a b h = (Return r, []).
Proof.
  intros h Hok; pose proof Hok as [Hold _].
  induction n as [|n IH]; intros a b Hr;
    rewrite is_fuel_unfold; unfold Immutable.is_with;
    (destruct (strict_equal a b) eqn:E; [now exists true|]);
    (destruct (negb (truthy a) || negb (truthy b)) eqn:T; [now exists false|]);
    rewrite !(data_store_valueOf _ _ Hok), !bind_ret, E, T;
    (destruct (Immutable.equals_of h a) as [ea|] eqn:Ea; [|now exists false]);
    (destruct (data_store_equals _ _ _ Hok Ea) as (-> & pa & oa & -> & La & Ca));
    (destruct (Immutable.equals_of h b) as [eb|] eqn:Eb; [|now exists false]);
    (destruct (data_store_equals _ _ _ Hok Eb) as (_ & pb & ob & -> & Lb & Cb));
    pose proof (Hr pa oa eq_refl La) as Hpa; [lia|].
  unfold Immutable.deepEqual. rewrite La, Lb.
  destruct oa as [ps|xs|xs|xs]; try discriminate;
    destruct ob as [ps'|ys|ys|ys]; try discriminate;
    try (now exists false);
    destruct (Nat.eqb (List.length xs) (List.length ys)); try (now exists false).
  - apply all2M_returns. intros x y Hin. apply IH.
    intros px o -> _. pose proof (Hold pa (IList xs) px La Hin). lia.
  - apply forallM_returns. intros [k y] _; simpl.
    destruct (assoc k xs) as [u|] eqn:Eu.
    + apply IH. intros px o -> _.
      pose proof (Hold pa (IMap xs) px La (assoc_in _ _ _ Eu)). lia.
    + unfold Immutable.is_not_set. destruct (truthy y); [|now exists false].
      rewrite (data_store_valueOf _ _ Hok), bind_ret. now exists false.
Qed.

Lemma is_returns : forall h a b,
  data_store h -> exists r, Immutable.is_ a b h = (Return r, []).
Proof.
  intros h a b Hok. unfold Immutable.is_. apply is_fuel_returns; [exact Hok|].
  intros pa o _ Hl.
  assert (pa < List.length h) by (apply nth_error_Some; unfold lookup in Hl; congruence).
  lia.
Qed.


(** Values with the same contents are one value, or two collections. *)
Lemma same_contents_collections : forall n h a b,
  same_contents n h a b = true ->
  a = b
  \/ exists pa pb oa ob,
       a = VRef pa /\ b = VRef pb
       /\ lookup h pa = Some oa /\ lookup h pb = Some ob
       /\ is_collection oa = true /\ is_collection ob = true.
Proof.
  intros n h a b H. destruct (strict_equal a b) eqn:E.
  { left. now apply strict_equal_eq. }
  right. destruct n as [|n]; cbn [same_contents] in H; rewrite E in H; [discriminate|].
  destruct a as [| | | | | |pa]; try discriminate.
  destruct b as [| | | | | |pb]; try discriminate.
  destruct (lookup h pa) as [oa|] eqn:La; [|discriminate].
  destruct (lookup h pb) as [ob|] eqn:Lb; [|destruct oa; discriminate].
  exists pa, pb, oa, ob.
  destruct oa; try discriminate; destruct ob; try discriminate; now repeat split.
Qed.

(** What [Immutable.is] accepts in a store of plain data *)
Lemma is_accepts : forall h a b de,
  data_store h ->
  Immutable.is_ a b h = (Return true, de) ->
  de = []
  /\ (a = b
      \/ exists pa pb oa ob,
           a = VRef pa /\ b = VRef pb
           /\ lookup h pa = Some oa /\ lookup h pb = Some ob
           /\ is_collection oa = true /\ is_collection ob = true).
Proof.
  unfold Immutable.is_; intros h a b de Hok H.
  destruct (is_fuel_same_contents h Hok _ _ _ _ H) as [-> Hs].
  split; [reflexivity|]. now apply same_contents_collections in Hs.
Qed.

(** The check of a comparing selector, there, returns and allocates
    nothing. *)
Lemma is_check_returns : forall prev v h,
  data_store h ->
  exists b, areArgumentsShallowlyEqual Immutable.is_ prev [v] h = (Return b, []).
Proof.
  intros prev v h Hok.
  destruct prev as [[|p [|q prev]]|]; try (exists false; reflexivity).
  rewrite equal_arguments_one. now apply is_returns.
Qed.

(** Truthy arguments that pass the check, there, are the same, or the
    next one is a collection. *)
Lemma is_equal_truthy : forall prev next h de,
  areArgumentsShallowlyEqual Immutable.is_ (Some prev) next h = (Return true, de) ->
  data_store h ->
  truthy (arg 0 next) = true ->
  arg 0 prev = arg 0 next \/ callable h (arg 0 next) "toJS" = true.
Proof.
  intros prev next h de H Hok Ht.
  destruct (equal_arguments_first _ _ _ _ _ H) as [[-> ->] | [d0 E]]; [discriminate|].
  destruct (is_accepts _ _ _ _ Hok E)
    as [_ [Eq | (pa & pb & oa & ob & Ea & Eb & La & Lb & Ca & Cb)]]; [now left|].
  right. rewrite Eb. apply (callable_collection _ _ _ _ Lb Cb). now left.
Qed.

End PlainData.

(** ** The memo cell of a selector *)

Lemma creator_call : forall memoize eqc deps f state c h,
  call (createSelectorCreator memoize eqc deps f) state c h =
  match call_deps deps state (fst c) h with
  | (Throw e, cs, d) => (Throw e, (cs, snd c), d)
  | (Return params, cs, d) =>
      match memoize f eqc params (snd c) (h ++ d) with
      | (out, m, d') => (out, (cs, m), d ++ d')
      end
  end.
Proof. reflexivity. Qed.

(** A call whose arguments pass the equality check answers with the
    stored result and allocates nothing but what the check allocated. *)
Lemma defaultMemoize_hit : forall f (eqc : equality) args m h de,
  areArgumentsShallowlyEqual eqc (lastArgs m) args h = (Return true, de) ->
  defaultMemoize f eqc args m h =
  (Return (lastResult m), {| lastArgs := Some args; lastResult := lastResult m |}, de).
Proof. intros f eqc args m h de H; unfold defaultMemoize; now rewrite H. Qed.

Lemma defaultMemoize_miss : forall f (eqc : equality) args m h de,
  areArgumentsShallowlyEqual eqc (lastArgs m) args h = (Return false, de) ->
  defaultMemoize f eqc args m h =
  match f args (h ++ de) with
  | (Return r, d) => (Return r, {| lastArgs := Some args; lastResult := r |}, de ++ d)
  | (Throw e, d) => (Throw e, m, de ++ d)
  end.
Proof. intros f eqc args m h de H; unfold defaultMemoize; now rewrite H. Qed.

(** A failure of the equality check is the failure of the call, and the
    cell stays as it was. *)
Lemma defaultMemoize_check_throws : forall f (eqc : equality) args m h e de,
  areArgumentsShallowlyEqual eqc (lastArgs m) args h = (Throw e, de) ->
  defaultMemoize f eqc args m h = (Throw e, m, de).
Proof. intros f eqc args m h e de H; unfold defaultMemoize; now rewrite H. Qed.

(** With a check that runs no code of the caller, the memoized function
    sees the store of the call. *)
Lemma defaultMemoize_pure_miss : forall f (eqc : equality) args m h,
  areArgumentsShallowlyEqual eqc (lastArgs m) args h = (Return false, []) ->
  defaultMemoize f eqc args m h =
  match f args h with
  | (Return r, d) => (Return r, {| lastArgs := Some args; lastResult := r |}, d)
  | (Throw e, d) => (Throw e, m, d)
  end.
Proof.
  intros f eqc args m h H. rewrite (defaultMemoize_miss _ _ _ _ _ _ H).
  now rewrite app_nil_r.
Qed.

Section MemoInvariant.

Variable eqc : equality.
Variable f : list value -> M value.
Variable R : heap -> list value -> value -> Prop.

Hypothesis R_grow : forall h d args r, R h args r -> R (h ++ d) args r.
Hypothesis R_compute : forall h args r d,
  f args h = (Return r, d) -> R (h ++ d) args r.
Hypothesis R_equal : forall h prev next r de,
  areArgumentsShallowlyEqual eqc (Some prev) next h = (Return true, de) ->
  R h prev r -> R (h ++ de) next r.

Lemma memo_ok_new : forall h, memo_ok R h new_memo.
Proof. intros h prev H; discriminate. Qed.

Lemma memo_ok_grow : forall h d m, memo_ok R h m -> memo_ok R (h ++ d) m.
Proof. intros h d m H prev E; apply R_grow; now apply H. Qed.

Lemma defaultMemoize_sound : forall args m h out m' d,
  memo_ok R h m ->
  defaultMemoize f eqc args m h = (out, m', d) ->
  memo_ok R (h ++ d) m' /\ (forall r, out = Return r -> R (h ++ d) args r).
Proof.
  intros args m h out m' d Hm; unfold defaultMemoize.
  destruct (areArgumentsShallowlyEqual eqc (lastArgs m) args h) as [[[|]|e] de] eqn:E.
  - intro H; injection H as <- <- <-.
    destruct (lastArgs m) as [prev|] eqn:Ep; [|discriminate].
    assert (Hr : R (h ++ de) args (lastResult m)).
    { apply R_equal with prev; [exact E|]. now apply Hm. }
    split.
    + intros p Hp; injection Hp as <-. exact Hr.
    + intros r Hr'; injection Hr' as <-. exact Hr.
  - destruct (f args (h ++ de)) as [[r|e] d0] eqn:Ef; intro H; injection H as <- <- <-.
    + pose proof (R_compute _ _ _ _ Ef) as Hr. rewrite <- app_assoc in Hr. split.
      * intros p Hp; injection Hp as <-. exact Hr.
      * intros r' Hr'; injection Hr' as <-. exact Hr.
    + split; [now apply memo_ok_grow | discriminate].
  - intro H; injection H as <- <- <-.
    split; [now apply memo_ok_grow | discriminate].
Qed.

Lemma reachable_memo_ok : forall deps c h,
  reachable (createSelectorCreator defaultMemoize eqc deps f) c h ->
  memo_ok R h (snd c).
Proof.
  intros deps c h H; induction H as [h|c h state out c' d Hr IH Hc|c h d Hr IH].
  - apply memo_ok_new.
  - rewrite creator_call in Hc.
    destruct (call_deps deps state (fst c) h) as [[[params|e] cs] dd].
    + destruct (defaultMemoize f eqc params (snd c) (h ++ dd)) as [[o m] d'] eqn:Em.
      injection Hc as <- <- <-. simpl.
      rewrite app_assoc.
      eapply defaultMemoize_sound; [|exact Em]. now apply memo_ok_grow.
    + injection Hc as <- <- <-. simpl. now apply memo_ok_grow.
  - now apply memo_ok_grow.
Qed.

End MemoInvariant.

(** ** The memory of the dependencies *)

Lemma call_deps_cons : forall d0 ds state cs h,
  call_deps (d0 :: ds) state cs h =
  match call d0 state (fst cs) h with
  | (Throw e, c1, d1) => (Throw e, (c1, snd cs), d1)
  | (Return v, c1, d1) =>
      match call_deps ds state (snd cs) (h ++ d1) with
      | (Throw e, cs1, d2) => (Throw e, (c1, cs1), d1 ++ d2)
      | (Return vs, cs1, d2) => (Return (v :: vs), (c1, cs1), d1 ++ d2)
      end
  end.
Proof. reflexivity. Qed.

Lemma cells_reachable_fresh : forall ds h, cells_reachable ds (fresh_cells ds) h.
Proof.
  induction ds as [|d ds IH]; simpl; intro h; [exact I|].
  split; [apply reach_fresh | apply IH].
Qed.

Lemma cells_reachable_grow : forall ds cs h d,
  cells_reachable ds cs h -> cells_reachable ds cs (h ++ d).
Proof.
  induction ds as [|d0 ds IH]; simpl; intros cs h d H; [exact I|].
  destruct H as [H1 H2]. split; [now apply reach_grow | now apply IH].
Qed.

Lemma call_deps_reachable : forall ds state cs h out cs' d,
  cells_reachable ds cs h ->
  call_deps ds state cs h = (out, cs', d) ->
  cells_reachable ds cs' (h ++ d).
Proof.
  induction ds as [|d0 ds IH]; intros state cs h out cs' d H Hc; [exact I|].
  destruct H as [H1 H2]. rewrite call_deps_cons in Hc.
  destruct (call d0 state (fst cs) h) as [[[v|e] c1] d1] eqn:E1.
  - destruct (call_deps ds state (snd cs) (h ++ d1)) as [[o2 cs2] d2] eqn:E2.
    assert (Hrest : cells_reachable ds cs2 (h ++ d1 ++ d2)).
    { rewrite app_assoc. eapply IH; [|exact E2]. now apply cells_reachable_grow. }
    assert (Hfirst : reachable d0 c1 (h ++ d1 ++ d2)).
    { rewrite app_assoc. apply reach_grow. eapply reach_call; eassumption. }
    destruct o2; injection Hc as <- <- <-; simpl; auto.
  - injection Hc as <- <- <-; simpl. split.
    + eapply reach_call; eassumption.
    + now apply cells_reachable_grow.
Qed.

Lemma reachable_dependencies : forall memoize eqc deps f c h,
  reachable (createSelectorCreator memoize eqc deps f) c h ->
  cells_reachable deps (fst c) h.
Proof.
  intros memoize eqc deps f c h H.
  induction H as [h|c h state out c' d Hr IH Hc|c h d Hr IH].
  - apply cells_reachable_fresh.
  - rewrite creator_call in Hc.
    destruct (call_deps deps state (fst c) h) as [[[params|e] cs] dd] eqn:Ed.
    + destruct (memoize f eqc params (snd c) (h ++ dd)) as [[o m] d'].
      injection Hc as <- <- <-. simpl. rewrite app_assoc.
      apply cells_reachable_grow. eapply call_deps_reachable; eassumption.
    + injection Hc as <- <- <-. simpl.
      eapply call_deps_reachable; eassumption.
  - now apply cells_reachable_grow.
Qed.

Lemma call_deps_length : forall ds state cs h vs cs' d,
  call_deps ds state cs h = (Return vs, cs', d) -> List.length vs = List.length ds.
Proof.
  induction ds as [|d0 ds IH]; intros state cs h vs cs' d H.
  - now injection H as <- _ _.
  - rewrite call_deps_cons in H.
    destruct (call d0 state (fst cs) h) as [[[v|e] c1] d1]; [|discriminate].
    destruct (call_deps ds state (snd cs) (h ++ d1)) as [[[vs2|e] cs2] d2] eqn:E2;
      [|discriminate].
    injection H as <- _ _. simpl. f_equal. eapply IH; exact E2.
Qed.

(** One dependency *)
Lemma call_deps_one : forall s state c h,
  call_deps [s] state c h =
  match call s state (fst c) h with
  | (Throw e, c1, d1) => (Throw e, (c1, snd c), d1)
  | (Return v, c1, d1) => (Return [v], (c1, tt), d1 ++ [])
  end.
Proof.
  intros s state c h; rewrite call_deps_cons.
  destruct (call s state (fst c) h) as [[[v|e] c1] d1]; reflexivity.
Qed.

Lemma creator_call_one : forall memoize eqc s f state c h,
  call (createSelectorCreator memoize eqc [s] f) state c h =
  match call s state (fst (fst c)) h with
  | (Throw e, c1, d1) => (Throw e, ((c1, snd (fst c)), snd c), d1)
  | (Return v, c1, d1) =>
      match memoize f eqc [v] (snd c) (h ++ d1) with
      | (out, m, d') => (out, ((c1, tt), m), d1 ++ d')
      end
  end.
Proof.
  intros memoize eqc s f state c h. rewrite creator_call, call_deps_one.
  destruct (call s state (fst (fst c)) h) as [[[v|e] c1] d1]; [|reflexivity].
  now rewrite app_nil_r.
Qed.

Lemma creator_call_two : forall memoize eqc s1 s2 f state c h,
  call (createSelectorCreator memoize eqc [s1; s2] f) state c h =
  match call s1 state (fst (fst c)) h with
  | (Throw e, c1, d1) => (Throw e, ((c1, snd (fst c)), snd c), d1)
  | (Return v1, c1, d1) =>
      match call s2 state (fst (snd (fst c))) (h ++ d1) with
      | (Throw e, c2, d2) => (Throw e, ((c1, (c2, snd (snd (fst c)))), snd c), d1 ++ d2)
      | (Return v2, c2, d2) =>
          match memoize f eqc [v1; v2] (snd c) (h ++ d1 ++ d2) with
          | (out, m, d') => (out, ((c1, (c2, tt)), m), d1 ++ d2 ++ d')
          end
      end
  end.
Proof.
  intros memoize eqc s1 s2 f state c h. rewrite creator_call, call_deps_cons.
  destruct (call s1 state (fst (fst c)) h) as [[[v1|e] c1] d1]; [|reflexivity].
  rewrite call_deps_one.
  destruct (call s2 state (fst (snd (fst c))) (h ++ d1)) as [[[v2|e] c2] d2];
    [|reflexivity].
  rewrite app_nil_r.
  destruct (memoize f eqc [v1; v2] (snd c) (h ++ d1 ++ d2)) as [[out m] d'].
  now rewrite <- app_assoc.
Qed.

Section MemoTransparency.

Variable eqc : equality.
Variable f : list value -> M value.
Variable R : heap -> list value -> value -> Prop.

Hypothesis R_equal : forall h prev next r de,
  areArgumentsShallowlyEqual eqc (Some prev) next h = (Return true, de) ->
  R h prev r -> R (h ++ de) next r.

(** Where the check runs no code of the caller, the memoized function
    allocates nothing and [R] leaves one result possible, memoization
    cannot be observed. *)
Lemma memoize_transparent : forall args m h r,
  memo_ok R h m ->
  (exists b, areArgumentsShallowlyEqual eqc (lastArgs m) args h = (Return b, [])) ->
  f args h = (Return r, []) ->
  (forall r', R h args r' -> r' = r) ->
  defaultMemoize f eqc args m h =
  (Return r, {| lastArgs := Some args; lastResult := r |}, []).
Proof.
  intros args m h r Hm [b E] Hf Hone; unfold defaultMemoize. rewrite E.
  destruct b.
  - destruct (lastArgs m) as [prev|] eqn:Ep; [|discriminate].
    rewrite (Hone (lastResult m)); [reflexivity|].
    rewrite <- (app_nil_r h). apply R_equal with prev; [exact E|]. now apply Hm.
  - now rewrite app_nil_r, Hf.
Qed.

(** Where [R] leaves no result possible, the cell holds other arguments
    and the failure of the memoized function is the failure of the
    call. *)
Lemma memoize_throws : forall args m h e d,
  memo_ok R h m ->
  (exists b, areArgumentsShallowlyEqual eqc (lastArgs m) args h = (Return b, [])) ->
  f args h = (Throw e, d) ->
  (forall r', ~ R h args r') ->
  defaultMemoize f eqc args m h = (Throw e, m, d).
Proof.
  intros args m h e d Hm [b E] Hf Hno; unfold defaultMemoize. rewrite E.
  destruct b.
  - destruct (lastArgs m) as [prev|] eqn:Ep; [|discriminate].
    exfalso; apply (Hno (lastResult m)).
    rewrite <- (app_nil_r h). apply R_equal with prev; [exact E|]. now apply Hm.
  - now rewrite app_nil_r, Hf.
Qed.

End MemoTransparency.

(** ** Method calls *)

Section Methods.
Context {host : Host}.

Lemma call_method_returns : forall this name args h r d,
  call_method this name args h = (Return r, d) -> callable h this name = true.
Proof.
  unfold call_method, callable; intros this name args h r d H.
  destruct this; try discriminate;
    destruct (get_prop h _ name); try discriminate; reflexivity.
Qed.

Lemma call_method_not_callable : forall this name args h,
  truthy this = true ->
  callable h this name = false ->
  call_method this name args h = (Throw (TypeError "is not a function"), []).
Proof.
  unfold call_method, callable; intros this name args h Ht H.
  destruct this; try discriminate;
    destruct (get_prop h _ name); try discriminate; reflexivity.
Qed.

Lemma call_method_get : forall h a o args,
  lookup h a = Some o -> is_collection o = true ->
  call_method (VRef a) "get" args h = (Return (get_method o args), []).
Proof.
  intros h a o args Hl Ho; unfold call_method, get_method; simpl.
  rewrite Hl; destruct o; try discriminate; simpl; now rewrite Hl.
Qed.

Lemma call_method_has : forall h a o args,
  lookup h a = Some o -> is_collection o = true ->
  call_method (VRef a) "has" args h = (Return (has_method o args), []).
Proof.
  intros h a o args Hl Ho; unfold call_method, has_method; simpl.
  rewrite Hl; destruct o; try discriminate; simpl; now rewrite Hl.
Qed.

(** The two-part capability test of [ensureJSSelector] is [callable]. *)
Lemma capability_check : forall h item,
  has_property h item "toJS"
  && String.eqb (typeof (get_prop h item "toJS")) "function"
  = callable h item "toJS".
Proof.
  intros h item; unfold callable; destruct item; simpl; try reflexivity.
  destruct (lookup h a) as [[ps|xs|xs|es]|]; simpl; try reflexivity.
  destruct (assoc "toJS" ps) as [x|]; [destruct x|]; reflexivity.
Qed.

End Methods.

(** ** What each builder's memo cell remembers *)

Lemma default_equality_relates : forall (R : heap -> list value -> value -> Prop)
  h prev next r de,
  areArgumentsShallowlyEqual defaultEqualityCheck (Some prev) next h = (Return true, de) ->
  R h prev r -> R (h ++ de) next r.
Proof.
  intros R h prev next r de H HR. apply default_equality_args in H as [-> ->].
  now rewrite app_nil_r.
Qed.

Lemma truthy_default_null : forall v, truthy v = true -> default_null v = v.
Proof. intros v H; destruct v; try discriminate; reflexivity. Qed.

Lemma toJS_result_grow : forall h d args r,
  toJS_result h args r -> toJS_result (h ++ d) args r.
Proof. intros h d args r H; exact H. Qed.

Lemma ensureJS_result_grow : forall h d args r,
  ensureJS_result h args r -> ensureJS_result (h ++ d) args r.
Proof. intros h d args r H; exact H. Qed.

Lemma method_result_grow : forall name method rest h d args r,
  method_result name method rest h args r ->
  method_result name method rest (h ++ d) args r.
Proof.
  intros name method rest h d args r [H1 H2]; split.
  - now apply callable_grow.
  - intros a o Ea Hl Ho; apply (H2 a o Ea); [|exact Ho].
    rewrite Ea in H1. destruct (callable_allocated _ _ _ H1) as [o' Ho'].
    rewrite (lookup_grow h d a o' Ho') in Hl; congruence.
Qed.

Lemma invert_result_grow : forall h d args r,
  invert_result h args r -> invert_result (h ++ d) args r.
Proof. intros h d args r H; exact H. Qed.

Lemma structured_result_grow : forall keys h d args r,
  structured_result keys h args r -> structured_result keys (h ++ d) args r.
Proof.
  intros keys h d args r (a & Er & Hl); exists a; split; [exact Er|].
  now apply lookup_grow.
Qed.

Lemma structured_result_compute : forall keys h args r d,
  alloc (Plain (build_object keys args [])) h = (Return r, d) ->
  structured_result keys (h ++ d) args r.
Proof.
  unfold alloc; intros keys h args r d H; injection H as <- <-.
  exists (List.length h); split; [reflexivity | apply lookup_fresh].
Qed.

Section Builders.
Context {host : Host}.

(** Arguments that pass the check of a comparing selector are falsy
    together, and are then the same. *)
Lemma is_equal_falsy : forall prev next h de,
  areArgumentsShallowlyEqual Immutable.is_ (Some prev) next h = (Return true, de) ->
  truthy (arg 0 next) = false -> arg 0 prev = arg 0 next.
Proof.
  intros prev next h de H Hf.
  destruct (equal_arguments_first _ _ _ _ _ H) as [[-> ->] | [d0 E]]; [reflexivity|].
  rewrite is_falsy in E by now right. injection E as E _.
  now apply strict_equal_eq.
Qed.

Lemma toJS_result_equal : forall h prev next r de,
  areArgumentsShallowlyEqual Immutable.is_ (Some prev) next h = (Return true, de) ->
  toJS_result h prev r -> toJS_result (h ++ de) next r.
Proof.
  unfold toJS_result; intros h prev next r de H HR Hf.
  apply HR. now rewrite (is_equal_falsy _ _ _ _ H Hf).
Qed.

Lemma ensureJS_result_equal : forall h prev next r de,
  areArgumentsShallowlyEqual Immutable.is_ (Some prev) next h = (Return true, de) ->
  ensureJS_result h prev r -> ensureJS_result (h ++ de) next r.
Proof.
  unfold ensureJS_result; intros h prev next r de H HR Hf.
  pose proof (is_equal_falsy _ _ _ _ H Hf) as E.
  rewrite <- E. apply HR. now rewrite E.
Qed.

Lemma toJS_result_compute : forall h args r d,
  (if truthy (arg 0 args) then call_method (arg 0 args) "toJS" [] else ret VNull) h
  = (Return r, d) ->
  toJS_result (h ++ d) args r.
Proof.
  intros h args r d H Hf. rewrite Hf in H. now injection H as <- _.
Qed.

Lemma ensureJS_compute_passes : forall h item,
  callable h item "toJS" = false ->
  (if negb (truthy item) || negb (String.eqb (typeof item) "object")
   then ret item
   else fun h =>
          if has_property h item "toJS"
             && String.eqb (typeof (get_prop h item "toJS")) "function"
          then call_method item "toJS" [] h
          else ret item h) h
  = (Return item, []).
Proof.
  intros h item Hc.
  destruct (negb (truthy item) || negb (String.eqb (typeof item) "object"));
    [reflexivity|].
  now rewrite capability_check, Hc.
Qed.

Lemma ensureJS_result_compute : forall h args r d,
  (let item := default_null (arg 0 args) in
   if negb (truthy item) || negb (String.eqb (typeof item) "object")
   then ret item
   else fun h =>
          if has_property h item "toJS"
             && String.eqb (typeof (get_prop h item "toJS")) "function"
          then call_method item "toJS" [] h
          else ret item h) h
  = (Return r, d) ->
  ensureJS_result (h ++ d) args r.
Proof.
  intros h args r d H Hf. cbv zeta in H.
  assert (Hn : truthy (default_null (arg 0 args)) = false)
    by (destruct (arg 0 args); try discriminate; auto).
  rewrite Hn in H. now injection H as <- _.
Qed.

Lemma get_result_compute : forall rest h args r d,
  call_method (arg 0 args) "get" (rest args) h = (Return r, d) ->
  method_result "get" get_method rest (h ++ d) args r.
Proof.
  intros rest h args r d H.
  pose proof (call_method_returns _ _ _ _ _ _ H) as Hc. split.
  - now apply callable_grow.
  - intros a o Ea Hl Ho. rewrite Ea in H, Hc.
    destruct (callable_allocated _ _ _ Hc) as [o' Ho'].
    rewrite (lookup_grow h d a o' Ho') in Hl; injection Hl as ->.
    rewrite (call_method_get h a o (rest args) Ho' Ho) in H.
    now injection H as <- _.
Qed.

Lemma has_result_compute : forall rest h args r d,
  call_method (arg 0 args) "has" (rest args) h = (Return r, d) ->
  method_result "has" has_method rest (h ++ d) args r.
Proof.
  intros rest h args r d H.
  pose proof (call_method_returns _ _ _ _ _ _ H) as Hc. split.
  - now apply callable_grow.
  - intros a o Ea Hl Ho. rewrite Ea in H, Hc.
    destruct (callable_allocated _ _ _ Hc) as [o' Ho'].
    rewrite (lookup_grow h d a o' Ho') in Hl; injection Hl as ->.
    rewrite (call_method_has h a o (rest args) Ho' Ho) in H.
    now injection H as <- _.
Qed.

Lemma selectorToJS_memo_ok : forall s c h,
  reachable (selectorToJS s) c h -> memo_ok toJS_result h (snd c).
Proof.
  intros s c h H.
  refine (reachable_memo_ok _ _ toJS_result toJS_result_grow _ toJS_result_equal
            _ _ _ H).
  intros h0 args r d; apply toJS_result_compute.
Qed.

Lemma ensureJSSelector_memo_ok : forall s c h,
  reachable (ensureJSSelector s) c h -> memo_ok ensureJS_result h (snd c).
Proof.
  intros s c h H.
  refine (reachable_memo_ok _ _ ensureJS_result ensureJS_result_grow _
            ensureJS_result_equal _ _ _ H).
  intros h0 args r d; apply ensureJS_result_compute.
Qed.

(** In a store of plain data the check accepts a truthy argument only
    for itself or for a collection, so the memo cell of a normalizing
    selector keeps what the combining function did with the argument. *)
Lemma toJS_capable_grow : forall h d args r,
  toJS_capable h args r -> toJS_capable (h ++ d) args r.
Proof.
  unfold toJS_capable; intros h d args r H Hok Ht.
  apply callable_grow, H; [now apply data_store_prefix with d | exact Ht].
Qed.

Lemma ensureJS_passes_grow : forall h d args r,
  ensureJS_passes h args r -> ensureJS_passes (h ++ d) args r.
Proof.
  unfold ensureJS_passes; intros h d args r H Hok Ht Hc.
  apply H; [now apply data_store_prefix with d | exact Ht
           | now apply callable_prefix with d].
Qed.

Lemma toJS_capable_equal : forall h prev next r de,
  areArgumentsShallowlyEqual Immutable.is_ (Some prev) next h = (Return true, de) ->
  toJS_capable h prev r -> toJS_capable (h ++ de) next r.
Proof.
  unfold toJS_capable; intros h prev next r de H HR Hok Ht.
  apply callable_grow. pose proof (data_store_prefix _ _ Hok) as Hok'.
  destruct (is_equal_truthy _ _ _ _ H Hok' Ht) as [E | Hc]; [|exact Hc].
  rewrite <- E. apply HR; [exact Hok' | now rewrite E].
Qed.

Lemma ensureJS_passes_equal : forall h prev next r de,
  areArgumentsShallowlyEqual Immutable.is_ (Some prev) next h = (Return true, de) ->
  ensureJS_passes h prev r -> ensureJS_passes (h ++ de) next r.
Proof.
  unfold ensureJS_passes; intros h prev next r de H HR Hok Ht Hc.
  pose proof (data_store_prefix _ _ Hok) as Hok'. apply callable_prefix in Hc.
  destruct (is_equal_truthy _ _ _ _ H Hok' Ht) as [E | Hc']; [|congruence].
  rewrite <- E. apply HR; [exact Hok' | now rewrite E | now rewrite E].
Qed.

Lemma toJS_capable_compute : forall h args r d,
  (if truthy (arg 0 args) then call_method (arg 0 args) "toJS" [] else ret VNull) h
  = (Return r, d) ->
  toJS_capable (h ++ d) args r.
Proof.
  intros h args r d H _ Ht. rewrite Ht in H. apply callable_grow.
  exact (call_method_returns _ _ _ _ _ _ H).
Qed.

Lemma ensureJS_passes_compute : forall h args r d,
  (let item := default_null (arg 0 args) in
   if negb (truthy item) || negb (String.eqb (typeof item) "object")
   then ret item
   else fun h =>
          if has_property h item "toJS"
             && String.eqb (typeof (get_prop h item "toJS")) "function"
          then call_method item "toJS" [] h
          else ret item h) h
  = (Return r, d) ->
  ensureJS_passes (h ++ d) args r.
Proof.
  intros h args r d H _ Ht Hc. cbv zeta in H. apply callable_prefix in Hc.
  rewrite (truthy_default_null _ Ht) in H.
  rewrite (ensureJS_compute_passes _ _ Hc) in H. now injection H as <- _.
Qed.

Lemma selectorToJS_memo_capable : forall s c h,
  reachable (selectorToJS s) c h -> memo_ok toJS_capable h (snd c).
Proof.
  intros s c h H.
  refine (reachable_memo_ok _ _ toJS_capable toJS_capable_grow _ toJS_capable_equal
            _ _ _ H).
  intros h0 args r d; apply toJS_capable_compute.
Qed.

Lemma ensureJSSelector_memo_passes : forall s c h,
  reachable (ensureJSSelector s) c h -> memo_ok ensureJS_passes h (snd c).
Proof.
  intros s c h H.
  refine (reachable_memo_ok _ _ ensureJS_passes ensureJS_passes_grow _
            ensureJS_passes_equal _ _ _ H).
  intros h0 args r d; apply ensureJS_passes_compute.
Qed.

Lemma invertSelector_memo_ok : forall s c h,
  reachable (invertSelector s) c h -> memo_ok invert_result h (snd c).
Proof.
  intros s c h H.
  refine (reachable_memo_ok _ _ invert_result invert_result_grow _
            (default_equality_relates invert_result) _ _ _ H).
  intros h0 args r d E; injection E as <- _. reflexivity.
Qed.

Lemma createStructuredSelector_memo_ok : forall selectors c h,
  reachable (createStructuredSelector selectors) c h ->
  memo_ok (structured_result (map fst selectors)) h (snd c).
Proof.
  intros selectors c h H.
  refine (reachable_memo_ok _ _ (structured_result (map fst selectors))
            (structured_result_grow _) _
            (default_equality_relates _) _ _ _ H).
  intros h0 args r d; apply structured_result_compute.
Qed.

End Builders.

Section Lookups.
Context {host : Host}.

Lemma createGetSelector_value_memo_ok : forall s k dflt c h,
  reachable (createGetSelector s (KeyValue k) dflt) c h ->
  memo_ok (method_result "get" get_method (fun _ => [k; dflt])) h (snd c).
Proof.
  intros s k dflt c h H.
  refine (reachable_memo_ok _ _ _ (method_result_grow _ _ _) _
            (default_equality_relates _) _ _ _ H).
  intros h0 args r d; apply (get_result_compute (fun _ => [k; dflt])).
Qed.

Lemma createGetSelector_selector_memo_ok : forall s ks dflt c h,
  reachable (createGetSelector s (KeySelector ks) dflt) c h ->
  memo_ok (method_result "get" get_method (fun args => [arg 1 args; dflt])) h (snd c).
Proof.
  intros s ks dflt c h H.
  refine (reachable_memo_ok _ _ _ (method_result_grow _ _ _) _
            (default_equality_relates _) _ _ _ H).
  intros h0 args r d; apply (get_result_compute (fun args => [arg 1 args; dflt])).
Qed.

Lemma createHasSelector_value_memo_ok : forall s k c h,
  reachable (createHasSelector s (KeyValue k)) c h ->
  memo_ok (method_result "has" has_method (fun _ => [k])) h (snd c).
Proof.
  intros s k c h H.
  refine (reachable_memo_ok _ _ _ (method_result_grow _ _ _) _
            (default_equality_relates _) _ _ _ H).
  intros h0 args r d; apply (has_result_compute (fun _ => [k])).
Qed.

Lemma createHasSelector_selector_memo_ok : forall s ks c h,
  reachable (createHasSelector s (KeySelector ks)) c h ->
  memo_ok (method_result "has" has_method (fun args => [arg 1 args])) h (snd c).
Proof.
  intros s ks c h H.
  refine (reachable_memo_ok _ _ _ (method_result_grow _ _ _) _
            (default_equality_relates _) _ _ _ H).
  intros h0 args r d; apply (has_result_compute (fun args => [arg 1 args])).
Qed.

(** The result a memo cell can hold for a collection is the one the
    collection's method gives. *)
Lemma method_result_unique : forall name method rest h a o args r,
  lookup h a = Some o -> is_collection o = true ->
  arg 0 args = VRef a ->
  method_result name method rest h args r -> r = method o (rest args).
Proof.
  intros name method rest h a o args r Hl Ho Ea [_ H]; now apply (H a o).
Qed.

Lemma collection_get_absent : forall o k dflt,
  is_collection o = true ->
  collection_has o k = false -> collection_get o k dflt = dflt.
Proof.
  intros [ps|xs|xs|es] k dflt; simpl; try discriminate; intros _.
  - unfold Immutable.List_has, Immutable.List_get.
    destruct (Immutable.in_bounds _ k); [discriminate | reflexivity].
  - unfold Immutable.Map_has, Immutable.Map_get.
    destruct k; try reflexivity.
    destruct (assoc s es); [discriminate | reflexivity].
Qed.

Lemma collection_get_present : forall o k dflt dflt',
  collection_has o k = true -> collection_get o k dflt = collection_get o k dflt'.
Proof.
  intros [ps|xs|xs|es] k dflt dflt'; simpl; try discriminate.
  - unfold Immutable.List_has, Immutable.List_get.
    destruct (Immutable.in_bounds _ k); [reflexivity | discriminate].
  - unfold Immutable.Map_has, Immutable.Map_get.
    destruct k; try discriminate.
    destruct (assoc s es); [reflexivity | discriminate].
Qed.

(** C5. [createGetSelector] over a collection [o], sequential or
    associative: with a literal key the selector returns the collection's
    value at the key, with a key selector it returns the value at the key
    that selector produces in the same call; where the collection does
    not have the key the value is [defaultValue] ([undefined] when none
    is given), and where it has the key the value does not depend on the
    default.  This holds at every call of the selector's life. *)
Theorem createGetSelector_lookup : forall s dflt state h a o,
  is_collection o = true ->
  (forall k c m c1 d1,
      reachable (createGetSelector s (KeyValue k) dflt) ((c, tt), m) h ->
      call s state c h = (Return (VRef a), c1, d1) ->
      lookup (h ++ d1) a = Some o ->
      call (createGetSelector s (KeyValue k) dflt) state ((c, tt), m) h =
      (Return (collection_get o k dflt),
       ((c1, tt),
        {| lastArgs := Some [VRef a]; lastResult := collection_get o k dflt |}),
       d1))
  /\ (forall ks c ck m c1 d1 kv ck1 d2,
      reachable (createGetSelector s (KeySelector ks) dflt) ((c, (ck, tt)), m) h ->
      call s state c h = (Return (VRef a), c1, d1) ->
      call ks state ck (h ++ d1) = (Return kv, ck1, d2) ->
      lookup (h ++ d1 ++ d2) a = Some o ->
      call (createGetSelector s (KeySelector ks) dflt) state ((c, (ck, tt)), m) h =
      (Return (collection_get o kv dflt),
       ((c1, (ck1, tt)),
        {| lastArgs := Some [VRef a; kv]; lastResult := collection_get o kv dflt |}),
       d1 ++ d2))
  /\ (forall k, collection_has o k = false -> collection_get o k dflt = dflt)
  /\ (forall k, collection_has o k = false -> collection_get o k VUndefined = VUndefined)
  /\ (forall k dflt', collection_has o k = true ->
                      collection_get o k dflt = collection_get o k dflt').
Proof.
  intros s dflt state h a o Ho; repeat split.
  - intros k c m c1 d1 Hr Hs Hl.
    apply createGetSelector_value_memo_ok in Hr.
    unfold createGetSelector, createSelector.
    rewrite creator_call_one; simpl fst; simpl snd; rewrite Hs.
    rewrite (memoize_transparent defaultEqualityCheck _
               (method_result "get" get_method (fun _ => [k; dflt]))
               (default_equality_relates _) [VRef a] m (h ++ d1)
               (collection_get o k dflt)).
    + now rewrite app_nil_r.
    + now apply memo_ok_grow; [apply method_result_grow|].
    + apply default_equality_pure.
    + now apply call_method_get.
    + intros r' Hr'.
      apply (method_result_unique _ _ _ _ a o [VRef a] _ Hl Ho eq_refl Hr').
  - intros ks c ck m c1 d1 kv ck1 d2 Hr Hs Hk Hl.
    apply createGetSelector_selector_memo_ok in Hr.
    unfold createGetSelector, createSelector.
    rewrite creator_call_two; simpl fst; simpl snd; rewrite Hs, Hk.
    rewrite (memoize_transparent defaultEqualityCheck _
               (method_result "get" get_method (fun args => [arg 1 args; dflt]))
               (default_equality_relates _) [VRef a; kv] m (h ++ d1 ++ d2)
               (collection_get o kv dflt)).
    + now rewrite app_nil_r.
    + now apply memo_ok_grow; [apply method_result_grow|].
    + apply default_equality_pure.
    + now apply call_method_get.
    + intros r' Hr'.
      apply (method_result_unique _ _ _ _ a o [VRef a; kv] _ Hl Ho eq_refl Hr').
  - intro k; now apply collection_get_absent.
  - intro k; now apply collection_get_absent.
  - intros k dflt'; apply collection_get_present.
Qed.

End Lookups.

Section Membership.
Context {host : Host}.

Lemma collection_has_absent_iff : forall o k,
  is_collection o = true ->
  (collection_has o k = false <-> forall dflt, collection_get o k dflt = dflt).
Proof.
  intros o k Ho; split.
  - intros H dflt; now apply collection_get_absent.
  - intro H; destruct (collection_has o k) eqn:E; [|reflexivity].
    pose proof (collection_get_present o k VNull VUndefined E) as P.
    rewrite (H VNull), (H VUndefined) in P; discriminate.
Qed.

(** C6. [createHasSelector] over a collection [o] branches on the key as
    [createGetSelector] does (a literal key, or a key selector evaluated
    in the same call) and returns the boolean of the collection's
    membership test; that boolean is [false] exactly when retrieving the
    key falls back to the default. *)
Theorem createHasSelector_membership : forall s state h a o,
  is_collection o = true ->
  (forall k c m c1 d1,
      reachable (createHasSelector s (KeyValue k)) ((c, tt), m) h ->
      call s state c h = (Return (VRef a), c1, d1) ->
      lookup (h ++ d1) a = Some o ->
      call (createHasSelector s (KeyValue k)) state ((c, tt), m) h =
      (Return (VBool (collection_has o k)),
       ((c1, tt),
        {| lastArgs := Some [VRef a]; lastResult := VBool (collection_has o k) |}),
       d1))
  /\ (forall ks c ck m c1 d1 kv ck1 d2,
      reachable (createHasSelector s (KeySelector ks)) ((c, (ck, tt)), m) h ->
      call s state c h = (Return (VRef a), c1, d1) ->
      call ks state ck (h ++ d1) = (Return kv, ck1, d2) ->
      lookup (h ++ d1 ++ d2) a = Some o ->
      call (createHasSelector s (KeySelector ks)) state ((c, (ck, tt)), m) h =
      (Return (VBool (collection_has o kv)),
       ((c1, (ck1, tt)),
        {| lastArgs := Some [VRef a; kv];
           lastResult := VBool (collection_has o kv) |}),
       d1 ++ d2))
  /\ (forall k, collection_has o k = false <->
                forall dflt, collection_get o k dflt = dflt).
Proof.
  intros s state h a o Ho; repeat split.
  - intros k c m c1 d1 Hr Hs Hl.
    apply createHasSelector_value_memo_ok in Hr.
    unfold createHasSelector, createSelector.
    rewrite creator_call_one; simpl fst; simpl snd; rewrite Hs.
    rewrite (memoize_transparent defaultEqualityCheck _
               (method_result "has" has_method (fun _ => [k]))
               (default_equality_relates _) [VRef a] m (h ++ d1)
               (VBool (collection_has o k))).
    + now rewrite app_nil_r.
    + now apply memo_ok_grow; [apply method_result_grow|].
    + apply default_equality_pure.
    + now apply call_method_has.
    + intros r' Hr'.
      apply (method_result_unique _ _ _ _ a o [VRef a] _ Hl Ho eq_refl Hr').
  - intros ks c ck m c1 d1 kv ck1 d2 Hr Hs Hk Hl.
    apply createHasSelector_selector_memo_ok in Hr.
    unfold createHasSelector, createSelector.
    rewrite creator_call_two; simpl fst; simpl snd; rewrite Hs, Hk.
    rewrite (memoize_transparent defaultEqualityCheck _
               (method_result "has" has_method (fun args => [arg 1 args]))
               (default_equality_relates _) [VRef a; kv] m (h ++ d1 ++ d2)
               (VBool (collection_has o kv))).
    + now rewrite app_nil_r.
    + now apply memo_ok_grow; [apply method_result_grow|].
    + apply default_equality_pure.
    + now apply call_method_has.
    + intros r' Hr'.
      apply (method_result_unique _ _ _ _ a o [VRef a; kv] _ Hl Ho eq_refl Hr').
  - now apply collection_has_absent_iff.
  - now apply collection_has_absent_iff.
Qed.

(** The lists of the test suite: index 1 of a two-element list is
    present, index 5 is not, and a negative index counts from the end. *)
Example has_list_examples :
  collection_has (IList [VStr "zeroth"; VStr "first"]) (VNum 1) = true
  /\ collection_has (IList [VStr "zeroth"; VStr "first"]) (VNum 5) = false
  /\ collection_get (IList [VStr "zeroth"; VStr "first"]) (VNum 1) VUndefined
     = VStr "first"
  /\ collection_get (IList [VStr "zeroth"; VStr "first"]) (VNum (-1)) VUndefined
     = VStr "first"
  /\ collection_get (IMap [("irrelevant", VStr "nonsense")]) (VStr "key")
       (VStr "key not found") = VStr "key not found".
Proof. repeat split. Qed.

End Membership.

Lemma invertSelector_call : forall s state c m h v c1 d1,
  reachable (invertSelector s) ((c, tt), m) h ->
  call s state c h = (Return v, c1, d1) ->
  call (invertSelector s) state ((c, tt), m) h =
  (Return (VBool (negb (truthy v))),
   ((c1, tt), {| lastArgs := Some [v]; lastResult := VBool (negb (truthy v)) |}),
   d1).
Proof.
  intros s state c m h v c1 d1 Hr Hs.
  apply invertSelector_memo_ok in Hr.
  unfold invertSelector, createSelector.
  rewrite creator_call_one; simpl fst; simpl snd; rewrite Hs.
  rewrite (memoize_transparent defaultEqualityCheck _ invert_result
             (default_equality_relates _) [v] m (h ++ d1)
             (VBool (negb (truthy v)))).
  - now rewrite app_nil_r.
  - now apply memo_ok_grow; [apply invert_result_grow|].
  - apply default_equality_pure.
  - reflexivity.
  - intros r' Hr'; exact Hr'.
Qed.

(** C7. For a selector answering the boolean [b], [invertSelector]
    answers its negation, and inverting twice answers [b] again; this
    holds at every call of the inverted selectors' life. *)
Theorem invertSelector_negates : forall s state h b c c1 d1,
  call s state c h = (Return (VBool b), c1, d1) ->
  (forall m,
      reachable (invertSelector s) ((c, tt), m) h ->
      answer (call (invertSelector s) state ((c, tt), m) h) = Return (VBool (negb b)))
  /\ (forall m m',
      reachable (invertSelector (invertSelector s)) ((((c, tt), m), tt), m') h ->
      answer (call (invertSelector (invertSelector s)) state
                ((((c, tt), m), tt), m') h)
      = Return (VBool b)).
Proof.
  intros s state h b c c1 d1 Hs; split.
  - intros m Hr. now rewrite (invertSelector_call s state c m h _ c1 d1 Hr Hs).
  - intros m m' Hr.
    assert (Hin : reachable (invertSelector s) ((c, tt), m) h).
    { apply reachable_dependencies in Hr. exact (proj1 Hr). }
    pose proof (invertSelector_call s state c m h _ c1 d1 Hin Hs) as Hi.
    pose proof (invertSelector_call (invertSelector s) state _ m' h _ _ _ Hr Hi)
      as Ho.
    apply (f_equal answer) in Ho. unfold answer at 2 in Ho; simpl in Ho.
    rewrite negb_involutive in Ho. exact Ho.
Qed.


Section Normalizing.
Context {host : Host}.

Lemma plain_value_not_callable : forall h v,
  plain_value h v -> callable h v "toJS" = false.
Proof.
  intros h v H; unfold callable; destruct H as [v Hv|a xs Hl|a ps Hl Hp|a ps x Hl Hp Hx];
    simpl.
  - destruct v; try reflexivity. now contradiction Hv.
  - now rewrite Hl.
  - now rewrite Hl, Hp.
  - rewrite Hl, Hp. destruct x; try reflexivity. now contradiction Hx.
Qed.

(** One call of a selector made by [createImmutableComparingSelector]
    over one input selector, by the outcome of the equality check *)
Lemma comparing_selector_call : forall s f state c m h v c1 d1,
  call s state c h = (Return v, c1, d1) ->
  call (createImmutableComparingSelector [s] f) state ((c, tt), m) h =
  match areArgumentsShallowlyEqual Immutable.is_ (lastArgs m) [v] (h ++ d1) with
  | (Throw e, de) => (Throw e, ((c1, tt), m), d1 ++ de)
  | (Return true, de) =>
      (Return (lastResult m),
       ((c1, tt), {| lastArgs := Some [v]; lastResult := lastResult m |}), d1 ++ de)
  | (Return false, de) =>
      match f [v] (h ++ d1 ++ de) with
      | (Return r, d') =>
          (Return r, ((c1, tt), {| lastArgs := Some [v]; lastResult := r |}),
           d1 ++ de ++ d')
      | (Throw e, d') => (Throw e, ((c1, tt), m), d1 ++ de ++ d')
      end
  end.
Proof.
  intros s f state c m h v c1 d1 Hs.
  unfold createImmutableComparingSelector.
  rewrite creator_call_one; simpl fst; simpl snd; rewrite Hs.
  unfold defaultMemoize.
  destruct (areArgumentsShallowlyEqual Immutable.is_ (lastArgs m) [v] (h ++ d1))
    as [[[|]|e] de]; try reflexivity.
  rewrite <- app_assoc.
  destruct (f [v] (h ++ d1 ++ de)) as [[r|e] d']; reflexivity.
Qed.

Lemma selectorToJS_falsy : forall s state c m h v c1 d1,
  reachable (selectorToJS s) ((c, tt), m) h ->
  call s state c h = (Return v, c1, d1) ->
  truthy v = false ->
  call (selectorToJS s) state ((c, tt), m) h =
  (Return VNull, ((c1, tt), {| lastArgs := Some [v]; lastResult := VNull |}), d1).
Proof.
  intros s state c m h v c1 d1 Hr Hs Hv.
  apply selectorToJS_memo_ok in Hr.
  unfold selectorToJS, createImmutableComparingSelector.
  rewrite creator_call_one; simpl fst; simpl snd; rewrite Hs.
  rewrite (memoize_transparent Immutable.is_ _ toJS_result toJS_result_equal
             [v] m (h ++ d1) VNull).
  - now rewrite app_nil_r.
  - now apply memo_ok_grow; [apply toJS_result_grow|].
  - destruct (is_check_falsy (lastArgs m) v (h ++ d1) Hv) as (b & E & _). now exists b.
  - cbv beta zeta. change (arg 0 [v]) with v. now rewrite Hv.
  - intros r' H. now apply H.
Qed.

Lemma ensureJS_compute_falsy : forall h v,
  truthy v = false ->
  (let item := default_null (arg 0 [v]) in
   if negb (truthy item) || negb (String.eqb (typeof item) "object")
   then ret item
   else fun h =>
          if has_property h item "toJS"
             && String.eqb (typeof (get_prop h item "toJS")) "function"
          then call_method item "toJS" [] h
          else ret item h) h
  = (Return (default_null v), []).
Proof.
  intros h v Hv. cbv zeta. change (arg 0 [v]) with v.
  assert (Hn : truthy (default_null v) = false)
    by (destruct v; try discriminate; auto).
  now rewrite Hn.
Qed.

Lemma ensureJSSelector_falsy : forall s state c m h v c1 d1,
  reachable (ensureJSSelector s) ((c, tt), m) h ->
  call s state c h = (Return v, c1, d1) ->
  truthy v = false ->
  call (ensureJSSelector s) state ((c, tt), m) h =
  (Return (default_null v),
   ((c1, tt), {| lastArgs := Some [v]; lastResult := default_null v |}), d1).
Proof.
  intros s state c m h v c1 d1 Hr Hs Hv.
  apply ensureJSSelector_memo_ok in Hr.
  unfold ensureJSSelector, createImmutableComparingSelector.
  rewrite creator_call_one; simpl fst; simpl snd; rewrite Hs.
  rewrite (memoize_transparent Immutable.is_ _ ensureJS_result ensureJS_result_equal
             [v] m (h ++ d1) (default_null v)).
  - now rewrite app_nil_r.
  - now apply memo_ok_grow; [apply ensureJS_result_grow|].
  - destruct (is_check_falsy (lastArgs m) v (h ++ d1) Hv) as (b & E & _). now exists b.
  - now apply ensureJS_compute_falsy.
  - intros r' H. now apply H.
Qed.

(** C3, as the code has it.  For a falsy value of the wrapped selector,
    [selectorToJS] returns [null]; [ensureJSSelector] returns [null] when
    the value is [undefined] or [null], and returns every other falsy
    value itself. *)
Theorem falsy_normalization : forall s state c h v c1 d1,
  call s state c h = (Return v, c1, d1) ->
  truthy v = false ->
  (forall m,
      reachable (selectorToJS s) ((c, tt), m) h ->
      answer (call (selectorToJS s) state ((c, tt), m) h) = Return VNull)
  /\ (forall m,
      reachable (ensureJSSelector s) ((c, tt), m) h ->
      (v = VUndefined \/ v = VNull) ->
      answer (call (ensureJSSelector s) state ((c, tt), m) h) = Return VNull)
  /\ (forall m,
      reachable (ensureJSSelector s) ((c, tt), m) h ->
      v <> VUndefined ->
      answer (call (ensureJSSelector s) state ((c, tt), m) h) = Return v).
Proof.
  intros s state c h v c1 d1 Hs Hv.
  repeat split.
  - intros m Hr. now rewrite (selectorToJS_falsy s state c m h v c1 d1).
  - intros m Hr Hn.
    rewrite (ensureJSSelector_falsy s state c m h v c1 d1 Hr Hs Hv).
    destruct Hn as [-> | ->]; reflexivity.
  - intros m Hr Hn.
    rewrite (ensureJSSelector_falsy s state c m h v c1 d1 Hr Hs Hv).
    destruct v; try reflexivity. now contradiction Hn.
Qed.

(** C4, as the code has it.  For a truthy value without a callable [toJS]
    (a primitive, an array, a plain object, a plain object whose [toJS]
    property is not a function):
    - where the equality check does not accept the value (so at a first
      call), [ensureJSSelector] returns the reference that went in;
    - where the check accepts it, the selector returns what the memo cell
      holds, the result of the call before;
    - in a store of plain data, where no object has a [valueOf] or an
      [equals] of its own, the check accepts the value for itself only:
      whatever the calls before, a call in which the wrapped selector
      yields the value returns the reference that went in. *)
Theorem ensureJSSelector_pass_through : forall s state c m h item c1 d1,
  call s state c h = (Return item, c1, d1) ->
  truthy item = true ->
  (forall de,
      areArgumentsShallowlyEqual Immutable.is_ (lastArgs m) [item] (h ++ d1)
      = (Return false, de) ->
      callable (h ++ d1 ++ de) item "toJS" = false ->
      call (ensureJSSelector s) state ((c, tt), m) h =
      (Return item, ((c1, tt), {| lastArgs := Some [item]; lastResult := item |}),
       d1 ++ de))
  /\ (lastArgs m = None ->
      callable (h ++ d1) item "toJS" = false ->
      call (ensureJSSelector s) state ((c, tt), m) h =
      (Return item, ((c1, tt), {| lastArgs := Some [item]; lastResult := item |}), d1))
  /\ (forall de,
      areArgumentsShallowlyEqual Immutable.is_ (lastArgs m) [item] (h ++ d1)
      = (Return true, de) ->
      call (ensureJSSelector s) state ((c, tt), m) h =
      (Return (lastResult m),
       ((c1, tt), {| lastArgs := Some [item]; lastResult := lastResult m |}),
       d1 ++ de))
  /\ (forall h', plain_value h' item -> callable h' item "toJS" = false)
  /\ (reachable (ensureJSSelector s) ((c, tt), m) h ->
      data_store (h ++ d1) ->
      callable (h ++ d1) item "toJS" = false ->
      call (ensureJSSelector s) state ((c, tt), m) h =
      (Return item, ((c1, tt), {| lastArgs := Some [item]; lastResult := item |}), d1)).
Proof.
  intros s state c m h item c1 d1 Hs Ht.
  assert (A : forall de,
      areArgumentsShallowlyEqual Immutable.is_ (lastArgs m) [item] (h ++ d1)
      = (Return false, de) ->
      callable (h ++ d1 ++ de) item "toJS" = false ->
      call (ensureJSSelector s) state ((c, tt), m) h =
      (Return item, ((c1, tt), {| lastArgs := Some [item]; lastResult := item |}),
       d1 ++ de)).
  { intros de Hmiss Hc. unfold ensureJSSelector.
    rewrite (comparing_selector_call s _ state c m h item c1 d1 Hs), Hmiss.
    cbv beta zeta. change (arg 0 [item]) with item.
    rewrite (truthy_default_null _ Ht), (ensureJS_compute_passes _ _ Hc).
    now rewrite app_nil_r. }
  assert (B : forall de,
      areArgumentsShallowlyEqual Immutable.is_ (lastArgs m) [item] (h ++ d1)
      = (Return true, de) ->
      call (ensureJSSelector s) state ((c, tt), m) h =
      (Return (lastResult m),
       ((c1, tt), {| lastArgs := Some [item]; lastResult := lastResult m |}),
       d1 ++ de)).
  { intros de Hhit. unfold ensureJSSelector.
    now rewrite (comparing_selector_call s _ state c m h item c1 d1 Hs), Hhit. }
  split; [exact A|]. split; [|split; [exact B|split]].
  - intros Hn Hc. rewrite (A []).
    + now rewrite app_nil_r.
    + now rewrite Hn.
    + now rewrite app_nil_r.
  - intro h'. apply plain_value_not_callable.
  - intros Hr Hok Hc.
    destruct (is_check_returns (lastArgs m) item _ Hok) as [[|] Hb].
    + rewrite (B [] Hb), app_nil_r.
      destruct (lastArgs m) as [prev|] eqn:El; [|discriminate].
      pose proof (ensureJSSelector_memo_passes _ _ _ Hr) as Hm. cbn [snd] in Hm.
      pose proof (ensureJS_passes_equal _ _ _ _ _ Hb
                    (ensureJS_passes_grow _ d1 _ _ (Hm prev El))) as Hp.
      rewrite app_nil_r in Hp. now rewrite (Hp Hok Ht Hc).
    + rewrite (A [] Hb); now rewrite app_nil_r.
Qed.

(** C10, as the code has it.  [selectorToJS] calls [toJS] on a truthy
    value of the wrapped selector without a test:
    - where the equality check does not accept the value (so at a first
      call) and the value has no callable [toJS], the call of the
      selector throws, and the value is not passed through;
    - where the check accepts the value, nothing is called, and the
      selector returns what the memo cell holds;
    - in a store of plain data, where no object has a [valueOf] or an
      [equals] of its own, the check does not accept the value:
      whatever the calls before, a call in which the wrapped selector
      yields the value throws. *)
Theorem selectorToJS_throws_without_toJS : forall s state c m h v c1 d1,
  call s state c h = (Return v, c1, d1) ->
  truthy v = true ->
  (forall de,
      areArgumentsShallowlyEqual Immutable.is_ (lastArgs m) [v] (h ++ d1)
      = (Return false, de) ->
      callable (h ++ d1 ++ de) v "toJS" = false ->
      call (selectorToJS s) state ((c, tt), m) h
      = (Throw (TypeError "is not a function"), ((c1, tt), m), d1 ++ de)
      /\ answer (call (selectorToJS s) state ((c, tt), m) h) <> Return v)
  /\ (lastArgs m = None ->
      callable (h ++ d1) v "toJS" = false ->
      answer (call (selectorToJS s) state ((c, tt), m) h)
      = Throw (TypeError "is not a function"))
  /\ (forall de,
      areArgumentsShallowlyEqual Immutable.is_ (lastArgs m) [v] (h ++ d1)
      = (Return true, de) ->
      call (selectorToJS s) state ((c, tt), m) h =
      (Return (lastResult m),
       ((c1, tt), {| lastArgs := Some [v]; lastResult := lastResult m |}),
       d1 ++ de))
  /\ (reachable (selectorToJS s) ((c, tt), m) h ->
      data_store (h ++ d1) ->
      callable (h ++ d1) v "toJS" = false ->
      call (selectorToJS s) state ((c, tt), m) h
      = (Throw (TypeError "is not a function"), ((c1, tt), m), d1)).
Proof.
  intros s state c m h v c1 d1 Hs Hv.
  assert (A : forall de,
      areArgumentsShallowlyEqual Immutable.is_ (lastArgs m) [v] (h ++ d1)
      = (Return false, de) ->
      callable (h ++ d1 ++ de) v "toJS" = false ->
      call (selectorToJS s) state ((c, tt), m) h
      = (Throw (TypeError "is not a function"), ((c1, tt), m), d1 ++ de)).
  { intros de Hmiss Hc. unfold selectorToJS.
    rewrite (comparing_selector_call s _ state c m h v c1 d1 Hs), Hmiss.
    cbv beta zeta. change (arg 0 [v]) with v. rewrite Hv.
    rewrite (call_method_not_callable v "toJS" [] _ Hv Hc). now rewrite app_nil_r. }
  split; [|split; [|split]].
  - intros de Hmiss Hc. rewrite (A de Hmiss Hc). split; [reflexivity | discriminate].
  - intros Hn Hc. rewrite (A []); [reflexivity | now rewrite Hn | now rewrite app_nil_r].
  - intros de Hhit. unfold selectorToJS.
    now rewrite (comparing_selector_call s _ state c m h v c1 d1 Hs), Hhit.
  - intros Hr Hok Hc.
    destruct (is_check_returns (lastArgs m) v _ Hok) as [[|] Hb].
    + destruct (lastArgs m) as [prev|] eqn:El; [|discriminate].
      pose proof (selectorToJS_memo_capable _ _ _ Hr) as Hm. cbn [snd] in Hm.
      pose proof (toJS_capable_equal _ _ _ _ _ Hb
                    (toJS_capable_grow _ d1 _ _ (Hm prev El))) as Hp.
      rewrite app_nil_r in Hp. specialize (Hp Hok Hv).
      change (arg 0 [v]) with v in Hp. congruence.
    + rewrite (A [] Hb); now rewrite app_nil_r.
Qed.

End Normalizing.

(** ** Reference stability *)

Lemma defaultMemoize_returns : forall f (eqc : equality) args m h r m' d,
  defaultMemoize f eqc args m h = (Return r, m', d) ->
  m' = {| lastArgs := Some args; lastResult := r |}.
Proof.
  intros f eqc args m h r m' d; unfold defaultMemoize.
  destruct (areArgumentsShallowlyEqual eqc (lastArgs m) args h) as [[[|]|e] de].
  - intro H; now injection H as <- <- _.
  - destruct (f args (h ++ de)) as [[r0|e] d0]; intro H; [|discriminate].
    now injection H as <- <- _.
  - discriminate.
Qed.

Lemma defaultMemoize_total : forall f args m h,
  (forall h', exists r d, f args h' = (Return r, d)) ->
  exists r d, defaultMemoize f defaultEqualityCheck args m h
              = (Return r, {| lastArgs := Some args; lastResult := r |}, d).
Proof.
  intros f args m h Hf; unfold defaultMemoize.
  destruct (default_equality_pure (lastArgs m) args h) as [[|] E]; rewrite E.
  - now exists (lastResult m), [].
  - destruct (Hf (h ++ [])) as (r & d & E'). rewrite E'. now exists r, ([] ++ d).
Qed.

Section Stability.
Context {host : Host}.

(** Two successive calls of a selector made by
    [createImmutableComparingSelector] over one input selector: if the
    input values are equal for [Immutable.is], the second call returns
    what the first returned and allocates nothing of its own. *)
Lemma comparing_selector_stable : forall s f stateA stateB c m h vA c1 dA r cS d
                                         cB h2 vB c2 dB de,
  call s stateA c h = (Return vA, c1, dA) ->
  call (createImmutableComparingSelector [s] f) stateA ((c, tt), m) h
  = (Return r, cS, d) ->
  call s stateB cB h2 = (Return vB, c2, dB) ->
  Immutable.is_ vA vB (h2 ++ dB) = (Return true, de) ->
  call (createImmutableComparingSelector [s] f) stateB ((cB, tt), snd cS) h2
  = (Return r, ((c2, tt), {| lastArgs := Some [vB]; lastResult := r |}), dB ++ de).
Proof.
  intros s f stateA stateB c m h vA c1 dA r cS d cB h2 vB c2 dB de HA HS HB His.
  assert (Em : snd cS = {| lastArgs := Some [vA]; lastResult := r |}).
  { unfold createImmutableComparingSelector in HS.
    rewrite creator_call_one in HS; simpl fst in HS; simpl snd in HS.
    rewrite HA in HS.
    destruct (defaultMemoize f Immutable.is_ [vA] m (h ++ dA)) as [[o m1] d'] eqn:Em.
    injection HS as -> <- _.
    now apply defaultMemoize_returns in Em. }
  rewrite (comparing_selector_call s f stateB cB _ h2 vB c2 dB HB), Em.
  cbn [lastArgs lastResult]. now rewrite equal_arguments_one, His.
Qed.

(** C1, as the code has it.  For [selectorToJS] and [ensureJSSelector]:
    when the wrapped selector's value at a call is equal for
    [Immutable.is] to its value at the call just before, the call
    returns the reference the call before returned, also when the two
    values are distinct references.  The memory of the wrapped selector
    may have changed in between; the call allocates what the wrapped
    selector and the comparison allocate. *)
Theorem successive_calls_same_reference :
  forall s stateA stateB c m h vA c1 dA cB h2 vB c2 dB de,
  call s stateA c h = (Return vA, c1, dA) ->
  call s stateB cB h2 = (Return vB, c2, dB) ->
  Immutable.is_ vA vB (h2 ++ dB) = (Return true, de) ->
  (forall r cS d,
      call (selectorToJS s) stateA ((c, tt), m) h = (Return r, cS, d) ->
      call (selectorToJS s) stateB ((cB, tt), snd cS) h2
      = (Return r, ((c2, tt), {| lastArgs := Some [vB]; lastResult := r |}),
         dB ++ de))
  /\ (forall r cS d,
      call (ensureJSSelector s) stateA ((c, tt), m) h = (Return r, cS, d) ->
      call (ensureJSSelector s) stateB ((cB, tt), snd cS) h2
      = (Return r, ((c2, tt), {| lastArgs := Some [vB]; lastResult := r |}),
         dB ++ de)).
Proof.
  intros s stateA stateB c m h vA c1 dA cB h2 vB c2 dB de HA HB His; split;
    intros r cS d HS.
  - unfold selectorToJS in *.
    now apply (comparing_selector_stable s _ stateA stateB c m h vA c1 dA r cS d).
  - unfold ensureJSSelector in *.
    now apply (comparing_selector_stable s _ stateA stateB c m h vA c1 dA r cS d).
Qed.

End Stability.

(** C1 does not hold of any two calls: with a call on another value in
    between, two calls on equal lists return different arrays, as the
    cell remembers one call only. *)
Lemma any_two_calls_counterexample :
  let S := selectorToJS (host := example_host) (prop_selector "contents") in
  let first := call S state1 (fresh S) list_store in
  let second := call S state3 (snd (fst first)) (list_store ++ snd first) in
  let third :=
    call S state2 (snd (fst second)) (list_store ++ snd first ++ snd second) in
  answer (call (prop_selector "contents") state1 tt list_store) = Return (VRef 0)
  /\ answer (call (prop_selector "contents") state2 tt list_store) = Return (VRef 1)
  /\ Immutable.is_ (host := example_host) (VRef 0) (VRef 1)
       (list_store ++ snd first ++ snd second) = (Return true, [])
  /\ answer first = Return (VRef 6)
  /\ answer third = Return (VRef 8)
  /\ answer first <> answer third.
Proof. repeat split; try reflexivity. vm_compute. discriminate. Qed.

(** ** The props selector *)

Lemma set_prop_new : forall k v ps,
  assoc k ps = None -> set_prop k v ps = ps ++ [(k, v)].
Proof.
  induction ps as [|[k' x] ps IH]; simpl; intro H; [reflexivity|].
  destruct (String.eqb k k'); [discriminate|]. now rewrite IH.
Qed.

Lemma assoc_app_new : forall (k k' : string) (v : value) ps,
  k <> k' -> assoc k ps = None -> assoc k (ps ++ [(k', v)]) = None.
Proof.
  induction ps as [|[k0 x] ps IH]; simpl; intros Hk H.
  - destruct (String.eqb_spec k k'); [contradiction | reflexivity].
  - destruct (String.eqb k k0); [discriminate | now apply IH].
Qed.

Lemma build_object_fresh_keys : forall keys values ps,
  NoDup keys ->
  (forall k, In k keys -> assoc k ps = None) ->
  build_object keys values ps = ps ++ combine keys values.
Proof.
  induction keys as [|k keys IH]; intros values ps Hnd Hps; simpl.
  - now rewrite app_nil_r.
  - destruct values as [|v values]; [now rewrite app_nil_r|].
    inversion Hnd as [|k0 l Hk Hnd']; subst.
    rewrite set_prop_new by (apply Hps; now left).
    rewrite IH; [now rewrite <- app_assoc | exact Hnd' |].
    intros k' Hin. apply assoc_app_new.
    + intros ->; contradiction.
    + apply Hps; now right.
Qed.

Lemma build_object_combine : forall keys values,
  NoDup keys -> build_object keys values [] = combine keys values.
Proof.
  intros keys values H. now rewrite build_object_fresh_keys.
Qed.

Lemma differ_at : forall l l' : list value,
  l <> l' -> exists i, nth_error l i <> nth_error l' i.
Proof.
  induction l as [|x l IH]; intros [|y l'] H.
  - now contradiction H.
  - exists O; discriminate.
  - exists O; discriminate.
  - destruct (strict_equal x y) eqn:E.
    + apply strict_equal_eq in E; subst y.
      destruct (IH l') as [i Hi]; [congruence|]. now exists (S i).
    + exists O; simpl; intro K; injection K as ->.
      now rewrite strict_equal_refl in E.
Qed.

Section Props.
Context {host : Host}.

(** The selectors [createPropsSelector] hands to
    [createStructuredSelector] *)
Lemma createPropsSelector_call : forall selectors state c h,
  call (createPropsSelector selectors) state c h =
  match call_deps (map snd (map (fun entry => (fst entry, ensureJSSelector (snd entry)))
                                selectors)) state (fst c) h with
  | (Throw e, cs, d) => (Throw e, (cs, snd c), d)
  | (Return params, cs, d) =>
      match defaultMemoize
              (fun values => alloc (Plain (build_object (map fst selectors) values [])))
              defaultEqualityCheck params (snd c) (h ++ d) with
      | (out, m, d') => (out, (cs, m), d ++ d')
      end
  end.
Proof.
  intros selectors state c h.
  unfold createPropsSelector, createStructuredSelector, createSelector.
  rewrite creator_call. now rewrite (map_map _ fst), (map_ext _ fst) by reflexivity.
Qed.

Lemma createPropsSelector_memo_ok : forall selectors c h,
  reachable (createPropsSelector selectors) c h ->
  memo_ok (structured_result (map fst selectors)) h (snd c).
Proof.
  intros selectors c h H.
  apply createStructuredSelector_memo_ok in H.
  now rewrite (map_map _ fst), (map_ext _ fst) in H by reflexivity.
Qed.

Lemma createPropsSelector_result : forall selectors state c h rs cs dd,
  NoDup (map fst selectors) ->
  reachable (createPropsSelector selectors) c h ->
  call_deps (map snd (map (fun entry => (fst entry, ensureJSSelector (snd entry)))
                          selectors)) state (fst c) h = (Return rs, cs, dd) ->
  exists a d,
    call (createPropsSelector selectors) state c h
    = (Return (VRef a), (cs, {| lastArgs := Some rs; lastResult := VRef a |}), d)
    /\ lookup (h ++ d) a = Some (Plain (combine (map fst selectors) rs))
    /\ List.length rs = List.length selectors.
Proof.
  intros selectors state c h rs cs dd Hnd Hr Hd.
  pose proof (call_deps_length _ _ _ _ _ _ _ Hd) as Hlen.
  rewrite !length_map in Hlen.
  apply createPropsSelector_memo_ok in Hr.
  rewrite createPropsSelector_call, Hd.
  match goal with
  | |- context [defaultMemoize ?f ?e ?a ?m ?h'] =>
      destruct (defaultMemoize_total f a m h') as (r & d' & Em);
      [intro h''; eexists _, _; reflexivity|];
      pose proof (defaultMemoize_sound e f (structured_result (map fst selectors))
                    (structured_result_grow _)
                    (structured_result_compute _)
                    (default_equality_relates _)
                    a m h' _ _ _
                    (memo_ok_grow _ (structured_result_grow _) h dd m Hr) Em)
        as [_ Hs];
      rewrite Em
  end.
  destruct (Hs r eq_refl) as (a & -> & Hl).
  exists a, (dd ++ d'). split; [reflexivity|]. split; [|exact Hlen].
  rewrite app_assoc, Hl. now rewrite build_object_combine.
Qed.

(** C2. [createPropsSelector] over named selectors, each wrapped by
    [ensureJSSelector]:
    - a call in which every wrapped entry returns the reference it
      returned in the call before returns the result object of the call
      before, and allocates no object of its own;
    - so a call that returns another object than the call before, or
      that allocates an object of its own, has an entry whose reference
      changed;
    - at every call of the selector's life the result is an object that
      maps the keys of the argument to the references the wrapped entries
      returned in that call. *)
Theorem createPropsSelector_stable : forall selectors,
  let wrapped :=
    map snd (map (fun entry => (fst entry, ensureJSSelector (snd entry))) selectors) in
  (forall state1 state2 c h rs cs1 dd1 r c1 d1 cs h2 cs2 dd2,
      call_deps wrapped state1 (fst c) h = (Return rs, cs1, dd1) ->
      call (createPropsSelector selectors) state1 c h = (Return r, c1, d1) ->
      call_deps wrapped state2 cs h2 = (Return rs, cs2, dd2) ->
      call (createPropsSelector selectors) state2 (cs, snd c1) h2
      = (Return r, (cs2, {| lastArgs := Some rs; lastResult := r |}), dd2))
  /\ (forall state1 state2 c h rs cs1 dd1 r c1 d1 cs h2 rs2 cs2 dd2 r2 c2 d2,
      call_deps wrapped state1 (fst c) h = (Return rs, cs1, dd1) ->
      call (createPropsSelector selectors) state1 c h = (Return r, c1, d1) ->
      call_deps wrapped state2 cs h2 = (Return rs2, cs2, dd2) ->
      call (createPropsSelector selectors) state2 (cs, snd c1) h2
      = (Return r2, c2, d2) ->
      r2 <> r \/ d2 <> dd2 ->
      exists i, nth_error rs2 i <> nth_error rs i)
  /\ (forall state c h rs cs dd,
      NoDup (map fst selectors) ->
      reachable (createPropsSelector selectors) c h ->
      call_deps wrapped state (fst c) h = (Return rs, cs, dd) ->
      exists a d,
        call (createPropsSelector selectors) state c h
        = (Return (VRef a), (cs, {| lastArgs := Some rs; lastResult := VRef a |}), d)
        /\ lookup (h ++ d) a = Some (Plain (combine (map fst selectors) rs))
        /\ List.length rs = List.length selectors).
Proof.
  intro selectors; cbv zeta.
  assert (A : forall state1 state2 c h rs cs1 dd1 r c1 d1 cs h2 cs2 dd2,
      call_deps (map snd (map (fun entry => (fst entry, ensureJSSelector (snd entry)))
                              selectors)) state1 (fst c) h = (Return rs, cs1, dd1) ->
      call (createPropsSelector selectors) state1 c h = (Return r, c1, d1) ->
      call_deps (map snd (map (fun entry => (fst entry, ensureJSSelector (snd entry)))
                              selectors)) state2 cs h2 = (Return rs, cs2, dd2) ->
      call (createPropsSelector selectors) state2 (cs, snd c1) h2
      = (Return r, (cs2, {| lastArgs := Some rs; lastResult := r |}), dd2)).
  { intros state1 state2 c h rs cs1 dd1 r c1 d1 cs h2 cs2 dd2 H1 HS H2.
    rewrite createPropsSelector_call, H1 in HS.
    match type of HS with
    | context [defaultMemoize ?f ?e ?a ?m ?h'] =>
        destruct (defaultMemoize f e a m h') as [[o m1] d'] eqn:Em
    end.
    injection HS as -> <- <-.
    apply defaultMemoize_returns in Em; subst m1.
    rewrite createPropsSelector_call; simpl fst; simpl snd. rewrite H2.
    rewrite (defaultMemoize_hit _ _ _ _ _ []).
    - simpl. now rewrite app_nil_r.
    - apply default_equality_hit. }
  split; [exact A|split].
  - intros state1 state2 c h rs cs1 dd1 r c1 d1 cs h2 rs2 cs2 dd2 r2 c2 d2
           H1 HS H2 HS2 Hr.
    apply differ_at. intros ->.
    rewrite (A state1 state2 c h rs cs1 dd1 r c1 d1 cs h2 cs2 dd2 H1 HS H2) in HS2.
    injection HS2 as E _ E'. destruct Hr as [Hr|Hr]; congruence.
  - intros state c h rs cs dd; apply createPropsSelector_result.
Qed.

End Props.

Section FalsyEntries.
Context {host : Host}.

Lemma wrapped_entries_falsy : forall (selectors : list (string * Selector)) vs state,
  Forall2 (fun entry v => always_returns (snd entry) state v) selectors vs ->
  Forall (fun v => truthy v = false) vs ->
  forall cs h,
    cells_reachable
      (map snd (map (fun entry => (fst entry, ensureJSSelector (snd entry))) selectors))
      cs h ->
    exists cs' d,
      call_deps
        (map snd (map (fun entry => (fst entry, ensureJSSelector (snd entry))) selectors))
        state cs h
      = (Return (map default_null vs), cs', d).
Proof.
  intros selectors vs state H; induction H as [|entry v selectors vs Hv Hrest IH];
    intros Hf cs h Hc.
  - now exists tt, [].
  - inversion Hf as [|v0 vs0 Hfv Hfvs]; subst.
    simpl in cs, Hc. destruct Hc as [Hc1 Hc2].
    destruct cs as [[[c0 []] m] cs]. simpl in Hc1, Hc2.
    destruct (Hv c0 h) as (c1 & d1 & E1).
    simpl map. rewrite call_deps_cons. cbn [fst snd].
    rewrite (ensureJSSelector_falsy (snd entry) state c0 m h v c1 d1 Hc1 E1 Hfv).
    destruct (IH Hfvs cs (h ++ d1) (cells_reachable_grow _ _ _ _ Hc2))
      as (cs' & d & E).
    rewrite E. eexists _, _; reflexivity.
Qed.

(** C9. For a falsy value of the wrapped selector, [ensureJSSelector]
    returns [null] if the value is [undefined] and the value itself
    otherwise ([false], [0], the empty string, [null]); an entry of
    [createPropsSelector] does the same, so a props selector whose
    entries are all falsy returns an object of these values. *)
Theorem ensureJSSelector_keeps_falsy :
  (forall s state c m h v c1 d1,
      reachable (ensureJSSelector s) ((c, tt), m) h ->
      call s state c h = (Return v, c1, d1) ->
      truthy v = false ->
      (v = VUndefined ->
       answer (call (ensureJSSelector s) state ((c, tt), m) h) = Return VNull)
      /\ (v <> VUndefined ->
          answer (call (ensureJSSelector s) state ((c, tt), m) h) = Return v))
  /\ (forall (selectors : list (string * Selector)) vs state c h,
      NoDup (map fst selectors) ->
      Forall2 (fun entry v => always_returns (snd entry) state v) selectors vs ->
      Forall (fun v => truthy v = false) vs ->
      reachable (createPropsSelector selectors) c h ->
      exists a c' d,
        call (createPropsSelector selectors) state c h = (Return (VRef a), c', d)
        /\ lookup (h ++ d) a
           = Some (Plain (combine (map fst selectors) (map default_null vs)))).
Proof.
  split.
  - intros s state c m h v c1 d1 Hr Hs Hv.
    rewrite (ensureJSSelector_falsy s state c m h v c1 d1 Hr Hs Hv).
    split; [now intros -> | intro Hn].
    destruct v; try reflexivity. now contradiction Hn.
  - intros selectors vs state c h Hnd Hvs Hf Hr.
    pose proof (reachable_dependencies _ _ _ _ _ _ Hr) as Hc.
    destruct (wrapped_entries_falsy selectors vs state Hvs Hf _ _ Hc)
      as (cs' & dd & Ed).
    destruct (createPropsSelector_result selectors state c h _ cs' dd Hnd Hr Ed)
      as (a & d & Ecall & Hl & _).
    exists a. eexists _, d. split; [exact Ecall | exact Hl].
Qed.

End FalsyEntries.

(** ** Failures *)

Lemma creator_one_throws : forall memoize eqc s f state c x m h e c1 d1,
  call s state c h = (Throw e, c1, d1) ->
  call (createSelectorCreator memoize eqc [s] f) state ((c, x), m) h
  = (Throw e, ((c1, x), m), d1).
Proof.
  intros memoize eqc s f state c x m h e c1 d1 H.
  rewrite creator_call_one; simpl fst; simpl snd. now rewrite H.
Qed.

Lemma creator_first_of_two_throws : forall memoize eqc s1 s2 f state c x m h e c1 d1,
  call s1 state c h = (Throw e, c1, d1) ->
  call (createSelectorCreator memoize eqc [s1; s2] f) state ((c, x), m) h
  = (Throw e, ((c1, x), m), d1).
Proof.
  intros memoize eqc s1 s2 f state c x m h e c1 d1 H.
  rewrite creator_call_two; simpl fst; simpl snd. now rewrite H.
Qed.

Lemma creator_second_of_two_throws :
  forall memoize eqc s1 s2 f state c ck m h v c1 d1 e ck1 d2,
  call s1 state c h = (Return v, c1, d1) ->
  call s2 state ck (h ++ d1) = (Throw e, ck1, d2) ->
  call (createSelectorCreator memoize eqc [s1; s2] f) state ((c, (ck, tt)), m) h
  = (Throw e, ((c1, (ck1, tt)), m), d1 ++ d2).
Proof.
  intros memoize eqc s1 s2 f state c ck m h v c1 d1 e ck1 d2 H1 H2.
  rewrite creator_call_two; simpl fst; simpl snd. now rewrite H1, H2.
Qed.

(** A failure of the loop over the dependencies is the failure of one of
    them. *)
Lemma call_deps_throws_origin : forall ds state cs h e cs' d,
  call_deps ds state cs h = (Throw e, cs', d) ->
  exists s c h0 c' d0, In s ds /\ call s state c h0 = (Throw e, c', d0).
Proof.
  induction ds as [|d0 ds IH]; intros state cs h e cs' d H; [discriminate|].
  rewrite call_deps_cons in H.
  destruct (call d0 state (fst cs) h) as [[[v|e0] c1] d1] eqn:E1.
  - destruct (call_deps ds state (snd cs) (h ++ d1)) as [[[vs|e1] cs1] d2] eqn:E2;
      [discriminate|].
    injection H as <- _ _.
    destruct (IH _ _ _ _ _ _ E2) as (s & c & h0 & c' & dd & Hin & Hc).
    exists s, c, h0, c', dd. split; [now right | exact Hc].
  - injection H as <- _ _.
    exists d0, (fst cs), h, c1, d1. split; [now left | exact E1].
Qed.

Section Failures.
Context {host : Host}.

Lemma call_method_fails : forall this name args h,
  callable h this name = false ->
  exists msg, call_method this name args h = (Throw (TypeError msg), []).
Proof.
  unfold call_method, callable; intros this name args h H.
  destruct this; try (eexists; reflexivity);
    destruct (get_prop h _ name); try discriminate; eexists; reflexivity.
Qed.

Lemma method_missing : forall (rest : list value -> list value) name method
                              s state c m h obj c1 d1,
  memo_ok (method_result name method rest) h m ->
  call s state c h = (Return obj, c1, d1) ->
  callable (h ++ d1) obj name = false ->
  exists msg,
    answer (call (createSelector [s]
                    (fun args => call_method (arg 0 args) name (rest args)))
              state ((c, tt), m) h)
    = Throw (TypeError msg)
    /\ fst (call_method obj name (rest [obj]) (h ++ d1)) = Throw (TypeError msg).
Proof.
  intros rest name method s state c m h obj c1 d1 Hm Hs Hc.
  destruct (call_method_fails obj name (rest [obj]) (h ++ d1) Hc) as [msg E].
  exists msg. split; [|now rewrite E].
  unfold createSelector. rewrite creator_call_one; simpl fst; simpl snd. rewrite Hs.
  rewrite (memoize_throws defaultEqualityCheck _ (method_result name method rest)
             (default_equality_relates _) [obj] m (h ++ d1) (TypeError msg) []).
  - reflexivity.
  - now apply memo_ok_grow; [apply method_result_grow|].
  - apply default_equality_pure.
  - exact E.
  - intros r' [K _]. change (arg 0 [obj]) with obj in K. congruence.
Qed.

Lemma method_missing_two : forall (rest : list value -> list value) name method
                                  s ks state c ck m h obj c1 d1 kv ck1 d2,
  memo_ok (method_result name method rest) h m ->
  call s state c h = (Return obj, c1, d1) ->
  call ks state ck (h ++ d1) = (Return kv, ck1, d2) ->
  callable (h ++ d1 ++ d2) obj name = false ->
  exists msg,
    answer (call (createSelector [s; ks]
                    (fun args => call_method (arg 0 args) name (rest args)))
              state ((c, (ck, tt)), m) h)
    = Throw (TypeError msg)
    /\ fst (call_method obj name (rest [obj; kv]) (h ++ d1 ++ d2))
       = Throw (TypeError msg).
Proof.
  intros rest name method s ks state c ck m h obj c1 d1 kv ck1 d2 Hm Hs Hk Hc.
  destruct (call_method_fails obj name (rest [obj; kv]) (h ++ d1 ++ d2) Hc) as [msg E].
  exists msg. split; [|now rewrite E].
  unfold createSelector. rewrite creator_call_two; simpl fst; simpl snd.
  rewrite Hs, Hk.
  rewrite (memoize_throws defaultEqualityCheck _ (method_result name method rest)
             (default_equality_relates _) [obj; kv] m (h ++ d1 ++ d2)
             (TypeError msg) []).
  - reflexivity.
  - now apply memo_ok_grow; [apply method_result_grow|].
  - apply default_equality_pure.
  - exact E.
  - intros r' [K _]. change (arg 0 [obj; kv]) with obj in K. congruence.
Qed.

(** A failure of the combining function of a selector made by
    [createSelector], at a call whose arguments are not those of the
    call before *)
Lemma createSelector_one_fails : forall s f state c m h v c1 d1 e d',
  call s state c h = (Return v, c1, d1) ->
  lastArgs m <> Some [v] ->
  f [v] (h ++ d1) = (Throw e, d') ->
  call (createSelector [s] f) state ((c, tt), m) h
  = (Throw e, ((c1, tt), m), d1 ++ d').
Proof.
  intros s f state c m h v c1 d1 e d' Hs Hm Hf.
  unfold createSelector. rewrite creator_call_one; simpl fst; simpl snd. rewrite Hs.
  rewrite defaultMemoize_pure_miss by (now apply default_equality_miss).
  now rewrite Hf.
Qed.

Lemma createSelector_two_fails : forall s1 s2 f state c ck m h v1 c1 d1 v2 c2 d2 e d',
  call s1 state c h = (Return v1, c1, d1) ->
  call s2 state ck (h ++ d1) = (Return v2, c2, d2) ->
  lastArgs m <> Some [v1; v2] ->
  f [v1; v2] (h ++ d1 ++ d2) = (Throw e, d') ->
  call (createSelector [s1; s2] f) state ((c, (ck, tt)), m) h
  = (Throw e, ((c1, (c2, tt)), m), d1 ++ d2 ++ d').
Proof.
  intros s1 s2 f state c ck m h v1 c1 d1 v2 c2 d2 e d' H1 H2 Hm Hf.
  unfold createSelector. rewrite creator_call_two; simpl fst; simpl snd.
  rewrite H1, H2.
  rewrite defaultMemoize_pure_miss by (now apply default_equality_miss).
  now rewrite Hf.
Qed.

(** C8. No builder catches or translates a failure.
    - A failure of the wrapped selector is the failure of the built
      selector, for each of the builders; with a key selector, so is a
      failure of the key selector.
    - A failure among the entries of a props selector is the failure of
      the props selector, and is the failure of one of the entries.
    - A failure of the combining function, when the memo cell does not
      answer for it, is the failure of the selector made by
      [createImmutableComparingSelector], and so is a failure of the
      equality check (of a [valueOf] or an [equals] that [Immutable.is]
      calls); so a [toJS] that throws makes the two normalizing selectors
      throw the same.
    - On a value without a callable [get] (or [has]), the selector fails
      with the failure of the method call itself, with a literal key and
      with a key selector.
    - A [get] (or [has]) that throws, when the memo cell does not answer
      for it, makes the selector throw the same, with a literal key and
      with a key selector. *)
Theorem failures_propagate :
  (forall s state c h e c1 d1 m,
      call s state c h = (Throw e, c1, d1) ->
      answer (call (selectorToJS s) state ((c, tt), m) h) = Throw e
      /\ answer (call (ensureJSSelector s) state ((c, tt), m) h) = Throw e
      /\ answer (call (invertSelector s) state ((c, tt), m) h) = Throw e
      /\ (forall k dflt,
            answer (call (createGetSelector s (KeyValue k) dflt) state ((c, tt), m) h)
            = Throw e)
      /\ (forall k,
            answer (call (createHasSelector s (KeyValue k)) state ((c, tt), m) h)
            = Throw e)
      /\ (forall ks ck dflt,
            answer (call (createGetSelector s (KeySelector ks) dflt) state
                      ((c, (ck, tt)), m) h)
            = Throw e)
      /\ (forall ks ck,
            answer (call (createHasSelector s (KeySelector ks)) state
                      ((c, (ck, tt)), m) h)
            = Throw e))
  /\ (forall s ks state c ck h v c1 d1 e ck1 d2 m,
      call s state c h = (Return v, c1, d1) ->
      call ks state ck (h ++ d1) = (Throw e, ck1, d2) ->
      (forall dflt,
          answer (call (createGetSelector s (KeySelector ks) dflt) state
                    ((c, (ck, tt)), m) h)
          = Throw e)
      /\ answer (call (createHasSelector s (KeySelector ks)) state
                   ((c, (ck, tt)), m) h)
         = Throw e)
  /\ (forall selectors state c h e cs d,
      call_deps (map snd (map (fun entry => (fst entry, ensureJSSelector (snd entry)))
                              selectors)) state (fst c) h = (Throw e, cs, d) ->
      answer (call (createPropsSelector selectors) state c h) = Throw e
      /\ exists entry c0 h0 c' d0,
           In entry selectors
           /\ call (ensureJSSelector (snd entry)) state c0 h0 = (Throw e, c', d0))
  /\ (forall deps f state c h params cs d de e d',
      call_deps deps state (fst c) h = (Return params, cs, d) ->
      areArgumentsShallowlyEqual Immutable.is_ (lastArgs (snd c)) params (h ++ d)
      = (Return false, de) ->
      f params (h ++ d ++ de) = (Throw e, d') ->
      call (createImmutableComparingSelector deps f) state c h
      = (Throw e, (cs, snd c), d ++ de ++ d'))
  /\ (forall deps f state c h params cs d e de,
      call_deps deps state (fst c) h = (Return params, cs, d) ->
      areArgumentsShallowlyEqual Immutable.is_ (lastArgs (snd c)) params (h ++ d)
      = (Throw e, de) ->
      call (createImmutableComparingSelector deps f) state c h
      = (Throw e, (cs, snd c), d ++ de))
  /\ (forall s state c m h item c1 d1 de e d',
      call s state c h = (Return item, c1, d1) ->
      areArgumentsShallowlyEqual Immutable.is_ (lastArgs m) [item] (h ++ d1)
      = (Return false, de) ->
      callable (h ++ d1 ++ de) item "toJS" = true ->
      call_method item "toJS" [] (h ++ d1 ++ de) = (Throw e, d') ->
      answer (call (selectorToJS s) state ((c, tt), m) h) = Throw e
      /\ answer (call (ensureJSSelector s) state ((c, tt), m) h) = Throw e)
  /\ (forall s state c m h obj c1 d1 k dflt,
      reachable (createGetSelector s (KeyValue k) dflt) ((c, tt), m) h ->
      call s state c h = (Return obj, c1, d1) ->
      callable (h ++ d1) obj "get" = false ->
      exists msg,
        answer (call (createGetSelector s (KeyValue k) dflt) state ((c, tt), m) h)
        = Throw (TypeError msg)
        /\ fst (call_method obj "get" [k; dflt] (h ++ d1)) = Throw (TypeError msg))
  /\ (forall s state c m h obj c1 d1 k,
      reachable (createHasSelector s (KeyValue k)) ((c, tt), m) h ->
      call s state c h = (Return obj, c1, d1) ->
      callable (h ++ d1) obj "has" = false ->
      exists msg,
        answer (call (createHasSelector s (KeyValue k)) state ((c, tt), m) h)
        = Throw (TypeError msg)
        /\ fst (call_method obj "has" [k] (h ++ d1)) = Throw (TypeError msg))
  /\ (forall s ks state c ck m h obj c1 d1 kv ck1 d2 dflt,
      reachable (createGetSelector s (KeySelector ks) dflt) ((c, (ck, tt)), m) h ->
      call s state c h = (Return obj, c1, d1) ->
      call ks state ck (h ++ d1) = (Return kv, ck1, d2) ->
      callable (h ++ d1 ++ d2) obj "get" = false ->
      exists msg,
        answer (call (createGetSelector s (KeySelector ks) dflt) state
                  ((c, (ck, tt)), m) h)
        = Throw (TypeError msg)
        /\ fst (call_method obj "get" [kv; dflt] (h ++ d1 ++ d2))
           = Throw (TypeError msg))
  /\ (forall s ks state c ck m h obj c1 d1 kv ck1 d2,
      reachable (createHasSelector s (KeySelector ks)) ((c, (ck, tt)), m) h ->
      call s state c h = (Return obj, c1, d1) ->
      call ks state ck (h ++ d1) = (Return kv, ck1, d2) ->
      callable (h ++ d1 ++ d2) obj "has" = false ->
      exists msg,
        answer (call (createHasSelector s (KeySelector ks)) state
                  ((c, (ck, tt)), m) h)
        = Throw (TypeError msg)
        /\ fst (call_method obj "has" [kv] (h ++ d1 ++ d2)) = Throw (TypeError msg))
  /\ (forall s state c m h obj c1 d1 e d',
      call s state c h = (Return obj, c1, d1) ->
      lastArgs m <> Some [obj] ->
      (forall k dflt,
          call_method obj "get" [k; dflt] (h ++ d1) = (Throw e, d') ->
          call (createGetSelector s (KeyValue k) dflt) state ((c, tt), m) h
          = (Throw e, ((c1, tt), m), d1 ++ d'))
      /\ (forall k,
          call_method obj "has" [k] (h ++ d1) = (Throw e, d') ->
          call (createHasSelector s (KeyValue k)) state ((c, tt), m) h
          = (Throw e, ((c1, tt), m), d1 ++ d')))
  /\ (forall s ks state c ck m h obj c1 d1 kv ck1 d2 e d',
      call s state c h = (Return obj, c1, d1) ->
      call ks state ck (h ++ d1) = (Return kv, ck1, d2) ->
      lastArgs m <> Some [obj; kv] ->
      (forall dflt,
          call_method obj "get" [kv; dflt] (h ++ d1 ++ d2) = (Throw e, d') ->
          call (createGetSelector s (KeySelector ks) dflt) state ((c, (ck, tt)), m) h
          = (Throw e, ((c1, (ck1, tt)), m), d1 ++ d2 ++ d'))
      /\ (call_method obj "has" [kv] (h ++ d1 ++ d2) = (Throw e, d') ->
          call (createHasSelector s (KeySelector ks)) state ((c, (ck, tt)), m) h
          = (Throw e, ((c1, (ck1, tt)), m), d1 ++ d2 ++ d'))).
Proof.
  repeat apply conj.
  - intros s state c h e c1 d1 m H.
    unfold selectorToJS, ensureJSSelector, invertSelector, createGetSelector,
      createHasSelector, createImmutableComparingSelector, createSelector.
    repeat split; intros;
      first [ now rewrite (creator_one_throws _ _ _ _ _ _ _ _ _ _ _ _ H)
            | now rewrite (creator_first_of_two_throws _ _ _ _ _ _ _ _ _ _ _ _ _ H) ].
  - intros s ks state c ck h v c1 d1 e ck1 d2 m H1 H2.
    unfold createGetSelector, createHasSelector, createSelector.
    split; intros;
      now rewrite (creator_second_of_two_throws _ _ _ _ _ _ _ _ _ _ _ _ _ _ _ _ H1 H2).
  - intros selectors state c h e cs d H. split.
    + now rewrite createPropsSelector_call, H.
    + destruct (call_deps_throws_origin _ _ _ _ _ _ _ H)
        as (s & c0 & h0 & c' & d0 & Hin & Hc).
      rewrite map_map in Hin; simpl in Hin. apply in_map_iff in Hin.
      destruct Hin as (entry & <- & Hin).
      now exists entry, c0, h0, c', d0.
  - intros deps f state c h params cs d de e d' Hd Hmiss Hf.
    unfold createImmutableComparingSelector.
    rewrite creator_call, Hd, (defaultMemoize_miss _ _ _ _ _ _ Hmiss).
    rewrite <- app_assoc, Hf. reflexivity.
  - intros deps f state c h params cs d e de Hd Hthrow.
    unfold createImmutableComparingSelector.
    now rewrite creator_call, Hd, (defaultMemoize_check_throws _ _ _ _ _ _ _ Hthrow).
  - intros s state c m h item c1 d1 de e d' Hs Hmiss Hc Hf.
    assert (Ht : truthy item = true).
    { unfold callable in Hc. destruct item; try discriminate; reflexivity. }
    assert (Hty : typeof item = "object").
    { unfold callable in Hc. destruct item; try discriminate; reflexivity. }
    assert (Hd : default_null item = item) by (destruct item; try discriminate; auto).
    unfold selectorToJS, ensureJSSelector.
    split; rewrite (comparing_selector_call s _ state c m h item c1 d1 Hs), Hmiss;
      cbv beta zeta; change (arg 0 [item]) with item.
    + now rewrite Ht, Hf.
    + rewrite Hd, Ht, Hty.
      change (negb true || negb (String.eqb "object" "object")) with false.
      cbv beta iota. now rewrite capability_check, Hc, Hf.
  - intros s state c m h obj c1 d1 k dflt Hr Hs Hc.
    apply createGetSelector_value_memo_ok in Hr.
    exact (method_missing (fun _ => [k; dflt]) "get" get_method
             s state c m h obj c1 d1 Hr Hs Hc).
  - intros s state c m h obj c1 d1 k Hr Hs Hc.
    apply createHasSelector_value_memo_ok in Hr.
    exact (method_missing (fun _ => [k]) "has" has_method
             s state c m h obj c1 d1 Hr Hs Hc).
  - intros s ks state c ck m h obj c1 d1 kv ck1 d2 dflt Hr Hs Hk Hc.
    apply createGetSelector_selector_memo_ok in Hr.
    exact (method_missing_two (fun args => [arg 1 args; dflt]) "get" get_method
             s ks state c ck m h obj c1 d1 kv ck1 d2 Hr Hs Hk Hc).
  - intros s ks state c ck m h obj c1 d1 kv ck1 d2 Hr Hs Hk Hc.
    apply createHasSelector_selector_memo_ok in Hr.
    exact (method_missing_two (fun args => [arg 1 args]) "has" has_method
             s ks state c ck m h obj c1 d1 kv ck1 d2 Hr Hs Hk Hc).
  - intros s state c m h obj c1 d1 e d' Hs Hm; split.
    + intros k dflt Hf. unfold createGetSelector.
      exact (createSelector_one_fails s _ state c m h obj c1 d1 e d' Hs Hm Hf).
    + intros k Hf. unfold createHasSelector.
      exact (createSelector_one_fails s _ state c m h obj c1 d1 e d' Hs Hm Hf).
  - intros s ks state c ck m h obj c1 d1 kv ck1 d2 e d' Hs Hk Hm; split.
    + intros dflt Hf. unfold createGetSelector.
      exact (createSelector_two_fails s ks _ state c ck m h obj c1 d1 kv ck1 d2 e d'
               Hs Hk Hm Hf).
    + intros Hf. unfold createHasSelector.
      exact (createSelector_two_fails s ks _ state c ck m h obj c1 d1 kv ck1 d2 e d'
               Hs Hk Hm Hf).
Qed.

End Failures.

(** * The test suite of the repository, on the embedding *)

(** Without the comparing memoizer two equal lists convert to two
    arrays; with it, to one. *)
Example test_reference_selector_differs :
  let first := call referenceSelector state1 (fresh referenceSelector) list_store in
  answer first = Return (VRef 6)
  /\ answer (call referenceSelector state2 (snd (fst first)) (list_store ++ snd first))
     = Return (VRef 7).
Proof. split; reflexivity. Qed.

Example test_selectorToJS_identical :
  let S := selectorToJS (host := example_host) (prop_selector "contents") in
  let first := call S state1 (fresh S) list_store in
  answer first = Return (VRef 6)
  /\ answer (call S state2 (snd (fst first)) (list_store ++ snd first)) = Return (VRef 6).
Proof. split; reflexivity. Qed.

Example test_selectorToJS_null_if_falsy :
  let S := selectorToJS (host := example_host) (prop_selector "present") in
  answer (call S state1 (fresh S) list_store) = Return VNull.
Proof. reflexivity. Qed.

Example test_ensureJSSelector_converts :
  let E := ensureJSSelector (host := example_host) (prop_selector "contents") in
  call E (VRef 2) (fresh E) nested_store
  = (Return (VRef 4),
     ((tt, tt), {| lastArgs := Some [VRef 1]; lastResult := VRef 4 |}),
     [ Arr [VNum 1; VNum 1; VNum 2; VNum 3; VNum 5];
       Plain [("test", VBool true); ("numbers", VRef 3); ("str", VStr "string!")] ]).
Proof. reflexivity. Qed.

(** The store of that test is one the collection library builds, so the
    depth of the conversion did not matter. *)
Example nested_store_older : older nested_store.
Proof.
  intros a o b Hl Hin.
  destruct a as [|[|[|[|a]]]]; simpl in Hl; try discriminate;
    injection Hl as <-; simpl in Hin; intuition (try discriminate).
  match goal with H : VRef _ = VRef _ |- _ => injection H as <- end. lia.
Qed.

Example test_ensureJSSelector_null_if_undefined :
  let E := ensureJSSelector (host := example_host) (prop_selector "present") in
  answer (call E state1 (fresh E) list_store) = Return VNull.
Proof. reflexivity. Qed.

(** [5], ['text'], an array and [{toJS: false}] come back as they are; an
    object with a [toJS] function is converted by it. *)
Example test_ensureJSSelector_returns_plain_values :
  let E := fun name => ensureJSSelector (host := example_host) (prop_selector name) in
  answer (call (E "number") (VRef 11) (fresh (E "number")) lookup_store) = Return (VNum 5)
  /\ answer (call (E "text") (VRef 11) (fresh (E "text")) lookup_store)
     = Return (VStr "text")
  /\ answer (call (E "contents") (VRef 11) (fresh (E "contents")) lookup_store)
     = Return (VRef 10)
  /\ answer (call (E "contents") (VRef 5) (fresh (E "contents")) lookup_store)
     = Return (VRef 4)
  /\ answer (call (E "contents") (VRef 9) (fresh (E "contents")) lookup_store)
     = Return (VStr "converted").
Proof. repeat split. Qed.

Example test_createPropsSelector_selects_keys :
  let P := createPropsSelector (host := example_host)
             [("text", prop_selector "text"); ("quantity", prop_selector "number");
              ("counts", prop_selector "contents")] in
  call P (VRef 3) (fresh P) lookup_store
  = (Return (VRef 13),
     ((((tt, tt), {| lastArgs := Some [VUndefined]; lastResult := VNull |}),
       (((tt, tt), {| lastArgs := Some [VUndefined]; lastResult := VNull |}),
        (((tt, tt), {| lastArgs := Some [VRef 1]; lastResult := VRef 12 |}), tt))),
      {| lastArgs := Some [VNull; VNull; VRef 12]; lastResult := VRef 13 |}),
     [ Arr [VStr "zeroth"; VStr "first"];
       Plain [("text", VNull); ("quantity", VNull); ("counts", VRef 12)] ]).
Proof. reflexivity. Qed.

Example test_createPropsSelector_same_object :
  let P := createPropsSelector (host := example_host)
             [("one", prop_selector "number"); ("two", prop_selector "text")] in
  let first := call P (VRef 11) (fresh P) lookup_store in
  answer first = Return (VRef 12)
  /\ answer (call P (VRef 11) (snd (fst first)) (lookup_store ++ snd first))
     = Return (VRef 12).
Proof. split; reflexivity. Qed.

Example test_createGetSelector :
  let G := fun key dflt =>
    createGetSelector (host := example_host) (prop_selector "contents") key dflt in
  answer (call (G (KeyValue (VStr "key")) VUndefined) (VRef 2)
            (fresh (G (KeyValue (VStr "key")) VUndefined)) lookup_store)
  = Return (VStr "value")
  /\ answer (call (G (KeyValue (VNum 1)) VUndefined) (VRef 3)
               (fresh (G (KeyValue (VNum 1)) VUndefined)) lookup_store)
     = Return (VStr "first")
  /\ answer (call (G (KeyValue (VStr "absent")) (VStr "key not found")) (VRef 2)
               (fresh (G (KeyValue (VStr "absent")) (VStr "key not found"))) lookup_store)
     = Return (VStr "key not found")
  /\ answer (call (G (KeySelector (prop_selector "key")) (VStr "key not found")) (VRef 2)
               (fresh (G (KeySelector (prop_selector "key")) (VStr "key not found")))
               lookup_store)
     = Return (VStr "value").
Proof. repeat split. Qed.

Example test_createHasSelector :
  let H := fun key =>
    createHasSelector (host := example_host) (prop_selector "contents") key in
  answer (call (H (KeyValue (VStr "key"))) (VRef 2) (fresh (H (KeyValue (VStr "key"))))
            lookup_store)
  = Return (VBool true)
  /\ answer (call (H (KeyValue (VNum 1))) (VRef 3) (fresh (H (KeyValue (VNum 1))))
               lookup_store)
     = Return (VBool true)
  /\ answer (call (H (KeyValue (VNum 2))) (VRef 3) (fresh (H (KeyValue (VNum 2))))
               lookup_store)
     = Return (VBool false)
  /\ answer (call (H (KeySelector (prop_selector "key"))) (VRef 3)
               (fresh (H (KeySelector (prop_selector "key")))) lookup_store)
     = Return (VBool true).
Proof. repeat split. Qed.

Example test_invertSelector :
  let I := invertSelector (prop_selector "flag") in
  answer (call I (VRef 2) (fresh I) lookup_store) = Return (VBool false)
  /\ answer (call I (VRef 3) (fresh I) lookup_store) = Return (VBool true).
Proof. split; reflexivity. Qed.

(** * The properties at the values of the test suite *)

(** [Immutable.is] on the value objects: two dates of one time are equal,
    and equal to the number of that time; two value objects of one [id]
    are equal by their [equals]; two plain objects are equal when they
    are one object; lists of equal dates are equal; a list is equal to no
    value object; and a [valueOf] that throws makes the comparison
    throw. *)
Example test_is :
  let is_ := Immutable.is_ (host := example_host) in
  is_ (VRef 0) (VRef 1) value_store = (Return true, [])
  /\ is_ (VRef 0) (VNum 5) value_store = (Return true, [])
  /\ is_ (VNum 5) (VRef 1) value_store = (Return true, [])
  /\ is_ (VRef 0) (VNum 6) value_store = (Return false, [])
  /\ is_ (VRef 3) (VRef 4) value_store = (Return true, [])
  /\ is_ (VRef 6) (VRef 6) value_store = (Return true, [])
  /\ is_ (VRef 6) (VRef 7) value_store = (Return false, [])
  /\ is_ (VRef 12) (VRef 13) value_store = (Return true, [])
  /\ is_ (VRef 12) (VRef 3) value_store = (Return false, [])
  /\ is_ (VRef 3) (VRef 12) value_store = (Return false, [])
  /\ is_ (VRef 0) (VRef 5) value_store = (Throw (Thrown (VNum 1)), [])
  /\ is_ VNull VUndefined value_store = (Return false, [])
  /\ is_ (VNum 0) (VNum 0) value_store = (Return true, []).
Proof. repeat split; reflexivity. Qed.

(** C3 does not hold as stated for [ensureJSSelector]: over a state whose
    flag is [false] it returns [false], not [null]. *)
Lemma ensureJSSelector_false_counterexample :
  let S := ensureJSSelector (host := example_host) (prop_selector "flag") in
  answer (call (prop_selector "flag") (VRef 3) tt lookup_store) = Return (VBool false)
  /\ truthy (VBool false) = false
  /\ answer (call S (VRef 3) (fresh S) lookup_store) = Return (VBool false)
  /\ answer (call S (VRef 3) (fresh S) lookup_store) <> Return VNull.
Proof. repeat split; try reflexivity. vm_compute. discriminate. Qed.

(** C4 does not hold as stated: a date has no [toJS], and after a call
    on a date, a call on another date of the same time returns the first
    date, not the reference it was given. *)
Lemma ensureJSSelector_equal_value_counterexample :
  let E := ensureJSSelector (host := example_host) (prop_selector "contents") in
  let first := call E (VRef 6) (fresh E) value_store in
  let second := call E (VRef 7) (snd (fst first)) (value_store ++ snd first) in
  answer (call (prop_selector "contents") (VRef 6) tt value_store) = Return (VRef 0)
  /\ answer (call (prop_selector "contents") (VRef 7) tt value_store) = Return (VRef 1)
  /\ truthy (VRef 1) = true
  /\ callable value_store (VRef 1) "toJS" = false
  /\ plain_value value_store (VRef 1)
  /\ Immutable.is_ (host := example_host) (VRef 0) (VRef 1) value_store
     = (Return true, [])
  /\ answer first = Return (VRef 0)
  /\ answer second = Return (VRef 0)
  /\ answer second <> Return (VRef 1).
Proof.
  repeat split; try reflexivity.
  - apply (@plain_object _ 1 [("time", VNum 5); ("valueOf", VFunc (UserFn 2))]);
      reflexivity.
  - vm_compute. discriminate.
Qed.

(** C10 does not hold as stated: after a call on a record that has a
    [toJS], a call on a date of the same time, which has none, does not
    throw: it returns the conversion of the record. *)
Lemma selectorToJS_equal_value_counterexample :
  let S := selectorToJS (host := example_host) (prop_selector "contents") in
  let first := call S (VRef 8) (fresh S) value_store in
  let second := call S (VRef 6) (snd (fst first)) (value_store ++ snd first) in
  answer (call (prop_selector "contents") (VRef 8) tt value_store) = Return (VRef 2)
  /\ answer (call (prop_selector "contents") (VRef 6) tt value_store) = Return (VRef 0)
  /\ truthy (VRef 0) = true
  /\ callable value_store (VRef 0) "toJS" = false
  /\ answer first = Return (VStr "converted")
  /\ answer second = Return (VStr "converted")
  /\ answer second <> Throw (TypeError "is not a function").
Proof. repeat split; try reflexivity. vm_compute. discriminate. Qed.

(** Two lists with equal contents at different addresses: the second call
    returns the array the first call made. *)
Lemma successive_calls_same_reference_witness :
  let S := selectorToJS (host := example_host) (prop_selector "contents") in
  let first := call S state1 (fresh S) list_store in
  Immutable.is_ (host := example_host) (VRef 0) (VRef 1) (list_store ++ snd first)
  = (Return true, [])
  /\ answer first = Return (VRef 6)
  /\ call S state2 ((tt, tt), snd (snd (fst first))) (list_store ++ snd first)
     = (Return (VRef 6),
        ((tt, tt), {| lastArgs := Some [VRef 1]; lastResult := VRef 6 |}), []).
Proof.
  cbv zeta. split; [reflexivity|]. split; [reflexivity|].
  exact (proj1 (successive_calls_same_reference (host := example_host)
                  (prop_selector "contents") state1 state2 tt new_memo list_store
                  (VRef 0) tt [] tt
                  (list_store ++ [Arr [VNum 1; VNum 2; VNum 3]]) (VRef 1) tt [] []
                  eq_refl eq_refl eq_refl)
           (VRef 6)
           ((tt, tt), {| lastArgs := Some [VRef 0]; lastResult := VRef 6 |})
           [Arr [VNum 1; VNum 2; VNum 3]] eq_refl).
Defined.

(** The props selector of one entry, called on two states whose lists
    have equal contents: the second call returns the object of the
    first. *)
Lemma createPropsSelector_stable_witness :
  let P :=
    createPropsSelector (host := example_host) [("items", prop_selector "contents")] in
  let first := call P state1 (fresh P) list_store in
  answer first = Return (VRef 7)
  /\ lookup (list_store ++ snd first) 7 = Some (Plain [("items", VRef 6)])
  /\ call P state2 (snd (fst first)) (list_store ++ snd first)
     = (Return (VRef 7),
        ((((tt, tt), {| lastArgs := Some [VRef 1]; lastResult := VRef 6 |}), tt),
         {| lastArgs := Some [VRef 6]; lastResult := VRef 7 |}), []).
Proof.
  cbv zeta. split; [reflexivity|]. split; [reflexivity|].
  exact (proj1 (createPropsSelector_stable (host := example_host)
                  [("items", prop_selector "contents")])
           state1 state2
           (fresh (createPropsSelector (host := example_host)
                     [("items", prop_selector "contents")]))
           list_store [VRef 6]
           (((tt, tt), {| lastArgs := Some [VRef 0]; lastResult := VRef 6 |}), tt)
           [Arr [VNum 1; VNum 2; VNum 3]]
           (VRef 7)
           ((((tt, tt), {| lastArgs := Some [VRef 0]; lastResult := VRef 6 |}), tt),
            {| lastArgs := Some [VRef 6]; lastResult := VRef 7 |})
           [Arr [VNum 1; VNum 2; VNum 3]; Plain [("items", VRef 6)]]
           (((tt, tt), {| lastArgs := Some [VRef 0]; lastResult := VRef 6 |}), tt)
           (list_store ++ [Arr [VNum 1; VNum 2; VNum 3]; Plain [("items", VRef 6)]])
           (((tt, tt), {| lastArgs := Some [VRef 1]; lastResult := VRef 6 |}), tt)
           [] eq_refl eq_refl eq_refl).
Defined.

(** A state whose flag is [false] under [selectorToJS], and a missing
    property under [ensureJSSelector]: both come out as [null]. *)
Lemma falsy_normalization_witness :
  let S := selectorToJS (host := example_host) (prop_selector "flag") in
  let E := ensureJSSelector (host := example_host) (prop_selector "missing") in
  truthy (VBool false) = false
  /\ answer (call S (VRef 3) (fresh S) lookup_store) = Return VNull
  /\ answer (call E (VRef 3) (fresh E) lookup_store) = Return VNull.
Proof.
  cbv zeta. split; [reflexivity|]. split.
  - exact (proj1 (falsy_normalization (host := example_host)
                    (prop_selector "flag") (VRef 3) tt lookup_store (VBool false) tt []
                    eq_refl eq_refl)
             new_memo (reach_fresh _ _)).
  - exact (proj1 (proj2 (falsy_normalization (host := example_host)
                    (prop_selector "missing") (VRef 3) tt lookup_store VUndefined tt []
                    eq_refl eq_refl))
             new_memo (reach_fresh _ _) (or_introl eq_refl)).
Defined.

(** The lookup store, also with the object a conversion of its map adds,
    is a store of plain data. *)
Lemma lookup_store_data :
  data_store
    (lookup_store
       ++ [Plain [("key", VStr "value"); ("bystander", VStr "intervention")]]).
Proof.
  split.
  - intros a o b Hl Hin.
    do 14 (destruct a as [|a];
           [simpl in Hl; try discriminate; injection Hl as <-; simpl in Hin;
            intuition discriminate|]).
    simpl in Hl; discriminate.
  - intros a ps Hl.
    do 14 (destruct a as [|a];
           [simpl in Hl; try discriminate; injection Hl as <-; split; reflexivity|]).
    simpl in Hl; discriminate.
Qed.

(** The object [{toJS: false}] of the test suite passes through
    [ensureJSSelector] at a first call, and the array of the test suite
    at the call that follows; a date passes through, and the date of the
    same time that follows it comes out as the first. *)
Lemma ensureJSSelector_pass_through_witness :
  let E := ensureJSSelector (host := example_host) (prop_selector "contents") in
  let first := call E (VRef 6) (fresh E) value_store in
  let earlier := call E (VRef 5) (fresh E) lookup_store in
  lookup lookup_store 4 = Some (Plain [("toJS", VBool false)])
  /\ truthy (VRef 4) = true
  /\ earlier
     = (Return (VRef 4),
        ((tt, tt), {| lastArgs := Some [VRef 4]; lastResult := VRef 4 |}), [])
  /\ lookup lookup_store 10 = Some (Arr [VNum 1; VNum 2; VNum 3])
  /\ call E (VRef 11) (snd (fst earlier)) lookup_store
     = (Return (VRef 10),
        ((tt, tt), {| lastArgs := Some [VRef 10]; lastResult := VRef 10 |}), [])
  /\ first
     = (Return (VRef 0),
        ((tt, tt), {| lastArgs := Some [VRef 0]; lastResult := VRef 0 |}), [])
  /\ call E (VRef 7) (snd (fst first)) value_store
     = (Return (VRef 0),
        ((tt, tt), {| lastArgs := Some [VRef 1]; lastResult := VRef 0 |}), []).
Proof.
  cbv zeta. split; [reflexivity|]. split; [reflexivity|].
  pose (T := ensureJSSelector_pass_through (host := example_host)
               (prop_selector "contents") (VRef 5) tt new_memo lookup_store (VRef 4) tt []
               eq_refl eq_refl).
  pose (U := ensureJSSelector_pass_through (host := example_host)
               (prop_selector "contents") (VRef 7) tt
               {| lastArgs := Some [VRef 0]; lastResult := VRef 0 |}
               value_store (VRef 1) tt [] eq_refl eq_refl).
  pose (V := ensureJSSelector_pass_through (host := example_host)
               (prop_selector "contents") (VRef 11) tt
               {| lastArgs := Some [VRef 4]; lastResult := VRef 4 |}
               lookup_store (VRef 10) tt [] eq_refl eq_refl).
  split; [|split; [reflexivity|split; [|split]]].
  - apply (proj1 (proj2 T) eq_refl). apply (proj1 (proj2 (proj2 (proj2 T)))).
    apply (@plain_not_callable _ 4 [("toJS", VBool false)] (VBool false));
      [reflexivity | reflexivity | discriminate].
  - refine (proj2 (proj2 (proj2 (proj2 V))) _ _ eq_refl).
    + exact (@reach_call
               (ensureJSSelector (host := example_host) (prop_selector "contents"))
               _ lookup_store (VRef 5) _ _ [] (reach_fresh _ _) eq_refl).
    + exact (data_store_prefix _ _ lookup_store_data).
  - reflexivity.
  - exact (proj1 (proj2 (proj2 U)) [] eq_refl).
Defined.

(** The map and the list of the test suite, with a literal key and with a
    key selector *)
Lemma createGetSelector_lookup_witness :
  let G1 := createGetSelector (host := example_host) (prop_selector "contents")
              (KeyValue (VStr "missing")) (VStr "fallback") in
  let G2 := createGetSelector (host := example_host) (prop_selector "contents")
              (KeySelector (prop_selector "key")) VUndefined in
  is_collection (IMap [("key", VStr "value"); ("bystander", VStr "intervention")])
  = true
  /\ answer (call G1 (VRef 2) (fresh G1) lookup_store) = Return (VStr "fallback")
  /\ answer (call G2 (VRef 2) (fresh G2) lookup_store) = Return (VStr "value").
Proof.
  cbv zeta. split; [reflexivity|].
  pose (T := createGetSelector_lookup (host := example_host)
               (prop_selector "contents") (VStr "fallback") (VRef 2) lookup_store 0
               (IMap [("key", VStr "value"); ("bystander", VStr "intervention")])
               eq_refl).
  pose (U := createGetSelector_lookup (host := example_host)
               (prop_selector "contents") VUndefined (VRef 2) lookup_store 0
               (IMap [("key", VStr "value"); ("bystander", VStr "intervention")])
               eq_refl).
  split.
  - exact (f_equal answer
             (proj1 T (VStr "missing") tt new_memo tt []
                (reach_fresh _ _) eq_refl eq_refl)).
  - exact (f_equal answer
             (proj1 (proj2 U) (prop_selector "key") tt tt new_memo tt [] (VStr "key") tt []
                (reach_fresh _ _) eq_refl eq_refl eq_refl)).
Defined.

Lemma createHasSelector_membership_witness :
  let H1 := createHasSelector (host := example_host) (prop_selector "contents")
              (KeyValue (VNum 5)) in
  let H2 := createHasSelector (host := example_host) (prop_selector "contents")
              (KeySelector (prop_selector "key")) in
  is_collection (IList [VStr "zeroth"; VStr "first"]) = true
  /\ answer (call H1 (VRef 3) (fresh H1) lookup_store) = Return (VBool false)
  /\ answer (call H2 (VRef 3) (fresh H2) lookup_store) = Return (VBool true).
Proof.
  cbv zeta. split; [reflexivity|].
  pose (T := createHasSelector_membership (host := example_host)
               (prop_selector "contents") (VRef 3) lookup_store 1
               (IList [VStr "zeroth"; VStr "first"]) eq_refl).
  split.
  - exact (f_equal answer
             (proj1 T (VNum 5) tt new_memo tt []
                (reach_fresh _ _) eq_refl eq_refl)).
  - exact (f_equal answer
             (proj1 (proj2 T) (prop_selector "key") tt tt new_memo tt [] (VNum 1) tt []
                (reach_fresh _ _) eq_refl eq_refl eq_refl)).
Defined.

Lemma invertSelector_negates_witness :
  let I := invertSelector (prop_selector "flag") in
  let II := invertSelector I in
  answer (call (prop_selector "flag") (VRef 2) tt lookup_store) = Return (VBool true)
  /\ answer (call I (VRef 2) (fresh I) lookup_store) = Return (VBool false)
  /\ answer (call II (VRef 2) (fresh II) lookup_store) = Return (VBool true).
Proof.
  cbv zeta. split; [reflexivity|].
  pose (T := invertSelector_negates
               (prop_selector "flag") (VRef 2) lookup_store true tt tt [] eq_refl).
  split.
  - exact (proj1 T new_memo (reach_fresh _ _)).
  - exact (proj2 T new_memo new_memo (reach_fresh _ _)).
Defined.

(** A selector that throws, under [selectorToJS]; the duck-typed object
    whose [toJS] throws, under [ensureJSSelector]; a date whose [valueOf]
    throws, compared with the value of the call before; an object
    without [has], under [createHasSelector] with a key selector; and an
    object whose [get] throws, under [createGetSelector] with a key
    selector. *)
Lemma failures_propagate_witness :
  let S := selectorToJS (host := example_host) (failing_selector (VStr "boom")) in
  let E := ensureJSSelector (host := example_host) (prop_selector "contents") in
  let first := call E (VRef 8) (fresh E) value_store in
  let H := createHasSelector (host := example_host) (prop_selector "contents")
             (KeySelector (prop_selector "zero")) in
  let G := createGetSelector (host := example_host) (prop_selector "contents")
             (KeySelector (prop_selector "key")) VUndefined in
  answer (call S VNull (fresh S) []) = Throw (Thrown (VStr "boom"))
  /\ callable lookup_store (VRef 6) "toJS" = true
  /\ answer (call E (VRef 7) (fresh E) lookup_store) = Throw (Thrown (VNum 1))
  /\ answer first = Return (VStr "converted")
  /\ call E (VRef 11) (snd (fst first)) value_store
     = (Throw (Thrown (VNum 1)), snd (fst first), [])
  /\ callable lookup_store (VRef 4) "has" = false
  /\ (exists msg, answer (call H (VRef 5) (fresh H) lookup_store) = Throw (TypeError msg))
  /\ call G (VRef 15) (fresh G) value_store
     = (Throw (Thrown (VNum 1)), fresh G, []).
Proof.
  cbv zeta.
  pose (T := failures_propagate (host := example_host)).
  split; [|split; [reflexivity|]; split; [|split; [reflexivity|]; split;
    [|split; [reflexivity|]; split]]].
  - exact (proj1 (proj1 T
                    (failing_selector (VStr "boom")) VNull tt [] (Thrown (VStr "boom"))
                    tt [] new_memo eq_refl)).
  - exact (proj2 (proj1 (proj2 (proj2 (proj2 (proj2 (proj2 T)))))
                    (prop_selector "contents") (VRef 7) tt new_memo lookup_store (VRef 6)
                    tt [] [] (Thrown (VNum 1)) [] eq_refl eq_refl eq_refl eq_refl)).
  - exact (proj1 (proj2 (proj2 (proj2 (proj2 T))))
             [prop_selector "contents"] _ (VRef 11)
             ((tt, tt), {| lastArgs := Some [VRef 2]; lastResult := VStr "converted" |})
             value_store [VRef 5] (tt, tt) [] (Thrown (VNum 1)) [] eq_refl eq_refl).
  - destruct (proj1 (proj2 (proj2 (proj2 (proj2 (proj2 (proj2 (proj2 (proj2 (proj2 T)))))))))
                (prop_selector "contents") (prop_selector "zero") (VRef 5) tt tt new_memo
                lookup_store (VRef 4) tt [] (VNum 0) tt []
                (reach_fresh _ _) eq_refl eq_refl eq_refl) as [msg [E _]].
    exists msg; exact E.
  - exact (proj1 ((proj2 (proj2 (proj2 (proj2 (proj2 (proj2 (proj2 (proj2 (proj2 (proj2 (proj2 T)))))))))))
                    (prop_selector "contents") (prop_selector "key") (VRef 15) tt tt
                    new_memo value_store (VRef 14) tt [] (VStr "key") tt []
                    (Thrown (VNum 1)) [] eq_refl eq_refl ltac:(discriminate))
             VUndefined eq_refl).
Defined.

Lemma ensureJSSelector_keeps_falsy_witness :
  let E := ensureJSSelector (host := example_host) (prop_selector "zero") in
  truthy (VNum 0) = false
  /\ answer (call E (VRef 5) (fresh E) lookup_store) = Return (VNum 0).
Proof.
  cbv zeta. split; [reflexivity|].
  refine (proj2 (proj1 (ensureJSSelector_keeps_falsy (host := example_host))
                   (prop_selector "zero") (VRef 5) tt new_memo lookup_store (VNum 0)
                   tt [] (reach_fresh _ _) eq_refl eq_refl) _).
  discriminate.
Defined.

(** On the object [{toJS: false}] of the test suite [selectorToJS]
    throws, at a first call and after a call that has converted the map
    of the test suite. *)
Lemma selectorToJS_throws_without_toJS_witness :
  let S := selectorToJS (host := example_host) (prop_selector "contents") in
  let first := call S (VRef 2) (fresh S) lookup_store in
  truthy (VRef 4) = true
  /\ callable lookup_store (VRef 4) "toJS" = false
  /\ answer (call S (VRef 5) (fresh S) lookup_store)
     = Throw (TypeError "is not a function")
  /\ first
     = (Return (VRef 12),
        ((tt, tt), {| lastArgs := Some [VRef 0]; lastResult := VRef 12 |}),
        [Plain [("key", VStr "value"); ("bystander", VStr "intervention")]])
  /\ call S (VRef 5) (snd (fst first)) (lookup_store ++ snd first)
     = (Throw (TypeError "is not a function"), snd (fst first), []).
Proof.
  cbv zeta. split; [reflexivity|]. split; [reflexivity|]. split; [|split].
  - exact (proj1 (proj2 (selectorToJS_throws_without_toJS (host := example_host)
                           (prop_selector "contents") (VRef 5) tt new_memo lookup_store
                           (VRef 4) tt [] eq_refl eq_refl))
             eq_refl eq_refl).
  - reflexivity.
  - refine (proj2 (proj2 (proj2
              (selectorToJS_throws_without_toJS (host := example_host)
                 (prop_selector "contents") (VRef 5) tt
                 {| lastArgs := Some [VRef 0]; lastResult := VRef 12 |}
                 (lookup_store
                    ++ [Plain [("key", VStr "value"); ("bystander", VStr "intervention")]])
                 (VRef 4) tt [] eq_refl eq_refl))) _ _ eq_refl).
    + exact (@reach_call
               (selectorToJS (host := example_host) (prop_selector "contents"))
               _ lookup_store (VRef 2) _ _ _ (reach_fresh _ _) eq_refl).
    + exact lookup_store_data.
Defined.

(** * Further properties of the builders *)

Section Agreement.
Context {host : Host}.

Lemma ensureJSSelector_as_selectorToJS : forall s state c m h v c1 d1,
  call s state c h = (Return v, c1, d1) ->
  v = VUndefined \/ v = VNull \/ callable (h ++ d1) v "toJS" = true ->
  call (ensureJSSelector s) state ((c, tt), m) h
  = call (selectorToJS s) state ((c, tt), m) h.
Proof.
  intros s state c m h v c1 d1 Hs Hv.
  unfold ensureJSSelector, selectorToJS.
  rewrite !(comparing_selector_call s _ state c m h v c1 d1 Hs).
  destruct (areArgumentsShallowlyEqual Immutable.is_ (lastArgs m) [v] (h ++ d1))
    as [[[|]|e] de]; try reflexivity.
  cbv beta zeta; change (arg 0 [v]) with v.
  destruct Hv as [-> | [-> | Hc]]; [reflexivity | reflexivity |].
  assert (Ht : truthy v = true).
  { unfold callable in Hc. destruct v; try discriminate; reflexivity. }
  assert (Hty : typeof v = "object").
  { unfold callable in Hc. destruct v; try discriminate; reflexivity. }
  assert (Hd : default_null v = v) by (destruct v; try discriminate; auto).
  apply (callable_grow _ de) in Hc. rewrite <- app_assoc in Hc.
  rewrite Hd, Ht, Hty.
  change (negb true || negb (String.eqb "object" "object")) with false.
  cbv beta iota. now rewrite capability_check, Hc.
Qed.


Lemma comparing_selector_failure : forall s f state c m h e cS d,
  call (createImmutableComparingSelector [s] f) state ((c, tt), m) h = (Throw e, cS, d) ->
  snd cS = m.
Proof.
  intros s f state c m h e cS d H.
  destruct (call s state c h) as [[[v|e0] c1] d1] eqn:Hs.
  - rewrite (comparing_selector_call s f state c m h v c1 d1 Hs) in H.
    destruct (areArgumentsShallowlyEqual Immutable.is_ (lastArgs m) [v] (h ++ d1))
      as [[[|]|e1] de]; try discriminate.
    + destruct (f [v] (h ++ d1 ++ de)) as [[r|e1] d']; [discriminate|].
      now injection H as _ <- _.
    + now injection H as _ <- _.
  - unfold createImmutableComparingSelector in H.
    rewrite creator_call_one in H; simpl fst in H; simpl snd in H. rewrite Hs in H.
    now injection H as _ <- _.
Qed.

(** A call that fails leaves the memo cell of a normalizing selector as
    it was: after a call that returned [r], and a call that failed, a
    call on a value equal for [Immutable.is] to the value of the first
    call still returns [r]. *)
Theorem failed_call_keeps_memo :
  forall s stateA stateX stateB c m h vA c1 dA cX hX cB h2 vB c2 dB de,
  call s stateA c h = (Return vA, c1, dA) ->
  call s stateB cB h2 = (Return vB, c2, dB) ->
  Immutable.is_ vA vB (h2 ++ dB) = (Return true, de) ->
  (forall r cS d e cS' dX,
      call (selectorToJS s) stateA ((c, tt), m) h = (Return r, cS, d) ->
      call (selectorToJS s) stateX ((cX, tt), snd cS) hX = (Throw e, cS', dX) ->
      call (selectorToJS s) stateB ((cB, tt), snd cS') h2
      = (Return r, ((c2, tt), {| lastArgs := Some [vB]; lastResult := r |}),
         dB ++ de))
  /\ (forall r cS d e cS' dX,
      call (ensureJSSelector s) stateA ((c, tt), m) h = (Return r, cS, d) ->
      call (ensureJSSelector s) stateX ((cX, tt), snd cS) hX = (Throw e, cS', dX) ->
      call (ensureJSSelector s) stateB ((cB, tt), snd cS') h2
      = (Return r, ((c2, tt), {| lastArgs := Some [vB]; lastResult := r |}),
         dB ++ de)).
Proof.
  intros s stateA stateX stateB c m h vA c1 dA cX hX cB h2 vB c2 dB de HA HB His; split;
    intros r cS d e cS' dX HS HX.
  - unfold selectorToJS in *.
    rewrite (comparing_selector_failure _ _ _ _ _ _ _ _ _ HX).
    now apply (comparing_selector_stable s _ stateA stateB c m h vA c1 dA r cS d).
  - unfold ensureJSSelector in *.
    rewrite (comparing_selector_failure _ _ _ _ _ _ _ _ _ HX).
    now apply (comparing_selector_stable s _ stateA stateB c m h vA c1 dA r cS d).
Qed.

End Agreement.

(** [invertSelector] applies [!] to whatever the selector returns: the
    result is the boolean opposite of the value's truthiness, and
    inverting twice gives the truthiness of the value, which is the value
    itself for booleans only. *)
Theorem invertSelector_coerces : forall s state h v c c1 d1,
  call s state c h = (Return v, c1, d1) ->
  (forall m,
      reachable (invertSelector s) ((c, tt), m) h ->
      answer (call (invertSelector s) state ((c, tt), m) h)
      = Return (VBool (negb (truthy v))))
  /\ (forall m m',
      reachable (invertSelector (invertSelector s)) ((((c, tt), m), tt), m') h ->
      answer (call (invertSelector (invertSelector s)) state
                ((((c, tt), m), tt), m') h)
      = Return (VBool (truthy v)))
  /\ (VBool (truthy v) = v <-> exists b, v = VBool b).
Proof.
  intros s state h v c c1 d1 Hs; split; [|split].
  - intros m Hr. now rewrite (invertSelector_call s state c m h v c1 d1 Hr Hs).
  - intros m m' Hr.
    assert (Hin : reachable (invertSelector s) ((c, tt), m) h).
    { apply reachable_dependencies in Hr. exact (proj1 Hr). }
    pose proof (invertSelector_call s state c m h v c1 d1 Hin Hs) as Hi.
    pose proof (invertSelector_call (invertSelector s) state _ m' h _ _ _ Hr Hi)
      as Ho.
    apply (f_equal answer) in Ho. unfold answer at 2 in Ho; simpl in Ho.
    rewrite negb_involutive in Ho. exact Ho.
  - split.
    + intro E; exists (truthy v); now rewrite E.
    + intros [b ->]; reflexivity.
Qed.

Section PropsChanges.
Context {host : Host}.

(** The other half of the stability of [createPropsSelector]: at a first
    call, and at a call in which the wrapped entries do not return the
    references of the call before, the selector builds a new object: a
    reference that was not in the store, to an object that maps the keys
    to the references of this call. *)
Theorem createPropsSelector_rebuilds :
  forall (selectors : list (string * Selector)) state c h rs cs dd,
  NoDup (map fst selectors) ->
  call_deps (map snd (map (fun entry => (fst entry, ensureJSSelector (snd entry)))
                          selectors)) state (fst c) h = (Return rs, cs, dd) ->
  lastArgs (snd c) <> Some rs ->
  call (createPropsSelector selectors) state c h
  = (Return (VRef (List.length (h ++ dd))),
     (cs, {| lastArgs := Some rs; lastResult := VRef (List.length (h ++ dd)) |}),
     dd ++ [Plain (combine (map fst selectors) rs)])
  /\ lookup (h ++ dd) (List.length (h ++ dd)) = None
  /\ lookup (h ++ dd ++ [Plain (combine (map fst selectors) rs)]) (List.length (h ++ dd))
     = Some (Plain (combine (map fst selectors) rs)).
Proof.
  intros selectors state c h rs cs dd Hnd Hd Hm.
  rewrite createPropsSelector_call, Hd.
  rewrite defaultMemoize_pure_miss by (now apply default_equality_miss).
  unfold alloc. rewrite build_object_combine by exact Hnd.
  split; [reflexivity|]. split.
  - apply nth_error_None. lia.
  - rewrite app_assoc. apply lookup_fresh.
Qed.

(** Over the empty mapping the selector has no entry to compare: its
    first call makes an empty object, and every later call returns that
    object, whatever the state and the store. *)
Theorem createPropsSelector_empty :
  (forall state h,
      call (createPropsSelector []) state (fresh (createPropsSelector [])) h
      = (Return (VRef (List.length h)),
         (tt, {| lastArgs := Some []; lastResult := VRef (List.length h) |}),
         [Plain []]))
  /\ (forall state1 state2 c h r c1 d1 h2,
      call (createPropsSelector []) state1 c h = (Return r, c1, d1) ->
      call (createPropsSelector []) state2 c1 h2 = (Return r, c1, [])).
Proof.
  split.
  - intros state h. rewrite createPropsSelector_call. cbn [map call_deps fst snd].
    rewrite defaultMemoize_pure_miss by reflexivity.
    unfold alloc. simpl. now rewrite app_nil_r.
  - intros state1 state2 c h r c1 d1 h2 H.
    rewrite createPropsSelector_call in H. simpl in H.
    match type of H with
    | context [defaultMemoize ?f ?e ?a ?m ?h'] =>
        destruct (defaultMemoize f e a m h') as [[o m1] d'] eqn:Em
    end.
    injection H as -> <- _.
    apply defaultMemoize_returns in Em; subst m1.
    rewrite createPropsSelector_call. cbn [map call_deps fst snd].
    rewrite (defaultMemoize_hit _ _ _ _ _ []) by apply default_equality_hit.
    reflexivity.
Qed.

End PropsChanges.

(** ** What the conversion makes *)

Lemma all2_length : forall (A : Type) (p : A -> A -> bool) xs ys,
  all2 p xs ys = true -> List.length xs = List.length ys.
Proof.
  induction xs as [|x xs IH]; intros [|y ys] H; simpl in *; try discriminate;
    [reflexivity|].
  apply andb_true_iff in H as [_ H]. f_equal. now apply IH.
Qed.

Lemma assoc_NoDup : forall (k : string) (x : value) es,
  NoDup (map fst es) -> In (k, x) es -> assoc k es = Some x.
Proof.
  induction es as [|[k' x'] es IH]; simpl; intros Hnd Hin; [contradiction|].
  inversion Hnd as [|k0 l Hk Hnd']; subst.
  destruct Hin as [E|Hin].
  - injection E as -> ->. now rewrite String.eqb_refl.
  - destruct (String.eqb_spec k k') as [->|_]; [|now apply IH].
    exfalso; apply Hk. change k' with (fst (k', x)). now apply in_map.
Qed.

Lemma forallb_combine_assoc : forall (p : value -> value -> bool) es0 es ys,
  (forall k x, In (k, x) es -> assoc k es0 = Some x) ->
  all2 p (map snd es) ys = true ->
  forallb (fun kv => match assoc (fst kv) es0 with
                     | Some x => p x (snd kv)
                     | None => false
                     end) (combine (map fst es) ys) = true.
Proof.
  induction es as [|[k x] es IH]; intros [|y ys] Hin H; simpl in *;
    try discriminate; try reflexivity.
  apply andb_true_iff in H as [Hx Hrest].
  rewrite (Hin k x) by now left. rewrite Hx; simpl.
  apply IH; [|exact Hrest]. intros k' x' Hin'; apply Hin; now right.
Qed.

Lemma distinct_NoDup : forall keys, NoDup keys -> distinct keys = true.
Proof.
  induction keys as [|k keys IH]; intro H; [reflexivity|].
  inversion H as [|k0 l Hk Hnd]; subst. simpl. rewrite (IH Hnd), andb_true_r.
  apply negb_true_iff. destruct (existsb (String.eqb k) keys) eqn:E; [|reflexivity].
  apply existsb_exists in E as (k' & Hin & Ek).
  apply String.eqb_eq in Ek; subst k'. contradiction.
Qed.

Lemma map_fst_combine : forall (keys : list string) (ys : list value),
  List.length keys = List.length ys -> map fst (combine keys ys) = keys.
Proof.
  induction keys as [|k keys IH]; intros [|y ys] H; simpl in *; try discriminate;
    [reflexivity|].
  f_equal. apply IH. now injection H.
Qed.

Lemma mapM_images : forall (f : value -> M value) (h0 : heap)
                           (p : heap -> value -> value -> bool) xs,
  (forall x d, In x xs ->
     exists y d', f x (h0 ++ d) = (Return y, d')
                  /\ forall e, p (h0 ++ d ++ d' ++ e) x y = true) ->
  forall d, exists ys d',
    mapM f xs (h0 ++ d) = (Return ys, d')
    /\ forall e, all2 (p (h0 ++ d ++ d' ++ e)) xs ys = true.
Proof.
  induction xs as [|x xs IH]; intros H d.
  - exists [], []. split; reflexivity.
  - destruct (H x d (or_introl eq_refl)) as (y & d1 & Ef & Hy).
    destruct (IH (fun x' d' Hin => H x' d' (or_intror Hin)) (d ++ d1))
      as (ys & d2 & Em & Hys).
    exists (y :: ys), (d1 ++ d2). split.
    + simpl. unfold bind at 1. rewrite Ef. rewrite <- app_assoc.
      unfold bind at 1. rewrite Em. simpl. now rewrite app_nil_r.
    + intro e. simpl. apply andb_true_iff. split.
      * rewrite <- app_assoc. apply Hy.
      * specialize (Hys e). rewrite <- !app_assoc in Hys.
        rewrite <- !app_assoc. exact Hys.
Qed.

Section Conversion.
Context {host : Host}.

(** The result of [toJS] on a collection is the last object the call
    allocates: an array or a plain object. *)
Lemma toJS_allocates : forall n h a o r d,
  lookup h a = Some o -> is_collection o = true ->
  Immutable.toJS_fuel n (VRef a) h = (Return r, d) ->
  exists d1 o',
    d = d1 ++ [o'] /\ r = VRef (List.length (h ++ d1)) /\ is_collection o' = false.
Proof.
  intros n h a o r d Hl Ho H. destruct n as [|n]; [discriminate|].
  simpl in H. rewrite Hl in H.
  destruct o as [ps|xs|xs|es]; try discriminate; unfold bind in H.
  - match type of H with
    | context [mapM ?F xs h] => destruct (mapM F xs h) as [[ys|e] d1]
    end; [|discriminate].
    unfold alloc in H. injection H as <- <-.
    now exists d1, (Arr ys).
  - match type of H with
    | context [mapM ?F (map snd es) h] =>
        destruct (mapM F (map snd es) h) as [[ys|e] d1]
    end; [|discriminate].
    unfold alloc in H. injection H as <- <-.
    now exists d1, (Plain (build_object (map fst es) ys [])).
Qed.

End Conversion.

Lemma converted_list : forall n h a xs a' ys,
  lookup h a = Some (IList xs) -> lookup h a' = Some (Arr ys) ->
  converted (S n) h (VRef a) (VRef a') = all2 (converted n h) xs ys.
Proof. intros n h a xs a' ys H H'; simpl. now rewrite H, H'. Qed.

Lemma converted_map : forall n h a es a' ps,
  lookup h a = Some (IMap es) -> lookup h a' = Some (Plain ps) ->
  converted (S n) h (VRef a) (VRef a')
  = Nat.eqb (List.length es) (List.length ps)
    && distinct (map fst ps)
    && forallb (fun kv => match assoc (fst kv) es with
                          | Some x => converted n h x (snd kv)
                          | None => false
                          end) ps.
Proof. intros n h a es a' ps H H'; simpl. now rewrite H, H'. Qed.

Lemma converted_other : forall n h b o,
  lookup h b = Some o -> is_collection o = false ->
  converted n h (VRef b) (VRef b) = true.
Proof.
  intros n h b o Hl Ho. destruct n; simpl; rewrite Hl;
    destruct o; try discriminate; apply Nat.eqb_refl.
Qed.

Lemma converted_primitive : forall n h v,
  (forall a, v <> VRef a) -> converted n h v v = true.
Proof.
  intros n h v Hv. destruct v as [| | | | | |b];
    [destruct n; apply strict_equal_refl ..|].
  now contradiction (Hv b).
Qed.

Section Images.
Context {host : Host}.

(** In a store of collections and plain data the conversion of a
    collection returns, and what it returns is the plain image of the
    collection, in the store as the call leaves it and as it grows
    later. *)
Lemma toJS_converts : forall h0, store_ok h0 ->
  forall n a d o, a < n -> lookup h0 a = Some o -> is_collection o = true ->
    exists r d',
      Immutable.toJS_fuel n (VRef a) (h0 ++ d) = (Return r, d')
      /\ forall e, converted n (h0 ++ d ++ d' ++ e) (VRef a) r = true.
Proof.
  intros h0 (Hold & Hkeys & Hcall & _).
  induction n as [|n IH]; intros a d o Ha Hl Ho; [lia|].
  assert (Hconv : forall x d0, In x (elements o) ->
            exists y d',
              (if truthy x
               then match get_prop (h0 ++ d0) x "toJS" with
                    | VFunc NativeToJS => Immutable.toJS_fuel n x (h0 ++ d0)
                    | VFunc NativeGet => Immutable.get x [] (h0 ++ d0)
                    | VFunc NativeHas => Immutable.has x [] (h0 ++ d0)
                    | VFunc (UserFn k) => invoke k x [] (h0 ++ d0)
                    | _ => (Return x, [])
                    end
               else (Return x, [])) = (Return y, d')
              /\ forall e, converted n (h0 ++ d0 ++ d' ++ e) x y = true).
  { intros x d0 Hin.
    destruct x as [| | | | | |b];
      try (eexists _, []; split;
           [ match goal with |- (if ?t then _ else _) = _ => destruct t end; reflexivity
           | intro e; apply converted_primitive; intros a0; discriminate ]).
    pose proof (Hold a o b Hl Hin) as Hlt.
    assert (Hb : b < List.length h0).
    { assert (a < List.length h0)
        by (apply nth_error_Some; unfold lookup in Hl; congruence).
      lia. }
    destruct (lookup h0 b) as [ob|] eqn:Eb;
      [|apply nth_error_Some in Hb; unfold lookup in Eb; contradiction].
    destruct (is_collection ob) eqn:Eob.
    - destruct (IH b d0 ob ltac:(lia) Eb Eob) as (y & d' & Ey & Hy).
      exists y, d'. split; [|exact Hy].
      simpl. rewrite (lookup_grow h0 d0 b ob Eb).
      destruct ob; try discriminate; exact Ey.
    - exists (VRef b), []. split.
      + assert (Hnc : callable h0 (VRef b) "toJS" = false).
        { destruct (callable h0 (VRef b) "toJS") eqn:E; [|reflexivity].
          rewrite (Hcall b ob Eb E) in Eob; discriminate. }
        unfold callable in Hnc. simpl in Hnc |- *.
        rewrite Eb in Hnc. rewrite (lookup_grow h0 d0 b ob Eb).
        destruct ob as [ps|xs|xs|es]; try discriminate; try reflexivity.
        destruct (assoc "toJS" ps) as [[| | | | |f|]|]; try reflexivity; discriminate.
      + intro e. apply converted_other with ob; [|exact Eob].
        rewrite !app_assoc. now repeat apply lookup_grow. }
  cbn [Immutable.toJS_fuel]. rewrite (lookup_grow h0 d a o Hl).
  destruct o as [ps|xs|xs|es]; try discriminate; unfold bind.
  - match goal with
    | |- context [mapM ?F xs (h0 ++ d)] =>
        destruct (mapM_images F h0 (converted n) xs
                    (fun x d0 Hin => Hconv x d0 Hin) d) as (ys & d1 & Em & Hys);
        rewrite Em
    end.
    unfold alloc. eexists _, _. split; [reflexivity|].
    intro e. rewrite (converted_list n _ a xs (List.length ((h0 ++ d) ++ d1)) ys).
    + specialize (Hys ([Arr ys] ++ e)). now rewrite <- !app_assoc.
    + rewrite !app_assoc. now repeat apply lookup_grow.
    + replace (h0 ++ d ++ (d1 ++ [Arr ys]) ++ e)
        with (((h0 ++ d) ++ d1) ++ Arr ys :: e)
        by (now rewrite <- !app_assoc).
      apply lookup_fresh.
  - match goal with
    | |- context [mapM ?F (map snd es) (h0 ++ d)] =>
        destruct (mapM_images F h0 (converted n) (map snd es)
                    (fun x d0 Hin => Hconv x d0 Hin) d) as (ys & d1 & Em & Hys);
        rewrite Em
    end.
    unfold alloc. eexists _, _. split; [reflexivity|].
    pose proof (Hkeys a es Hl) as Hnd.
    intro e. rewrite build_object_combine by exact Hnd.
    rewrite (converted_map n _ a es (List.length ((h0 ++ d) ++ d1))
               (combine (map fst es) ys)).
    + specialize (Hys ([Plain (combine (map fst es) ys)] ++ e)).
      rewrite <- !app_assoc.
      pose proof (all2_length _ _ _ _ Hys) as Hlen.
      rewrite !length_map in Hlen.
      apply andb_true_iff. split; [apply andb_true_iff; split|].
      * rewrite length_combine, length_map, <- Hlen, Nat.min_id.
        apply Nat.eqb_refl.
      * rewrite map_fst_combine by (now rewrite length_map).
        now apply distinct_NoDup.
      * apply forallb_combine_assoc; [|exact Hys].
        intros k x Hin. now apply assoc_NoDup.
    + rewrite !app_assoc. now repeat apply lookup_grow.
    + replace (h0 ++ d ++ (d1 ++ [Plain (combine (map fst es) ys)]) ++ e)
        with (((h0 ++ d) ++ d1) ++ Plain (combine (map fst es) ys) :: e)
        by (now rewrite <- !app_assoc).
      apply lookup_fresh.
Qed.

End Images.

Lemma all2_implies : forall (A : Type) (p q : A -> A -> bool) xs ys,
  (forall x y, p x y = true -> q x y = true) ->
  all2 p xs ys = true -> all2 q xs ys = true.
Proof.
  induction xs as [|x xs IH]; intros [|y ys] H Hp; simpl in *; try discriminate;
    [reflexivity|].
  apply andb_true_iff in Hp as [Hx Hrest]. apply andb_true_iff. split.
  - now apply H.
  - now apply IH.
Qed.

Lemma forallb_implies : forall (A : Type) (p q : A -> bool) l,
  (forall x, p x = true -> q x = true) -> forallb p l = true -> forallb q l = true.
Proof.
  induction l as [|x l IH]; intros H Hp; simpl in *; [reflexivity|].
  apply andb_true_iff in Hp as [Hx Hrest]. apply andb_true_iff. split.
  - now apply H.
  - now apply IH.
Qed.

Lemma converted_deeper : forall h n m v r,
  n <= m -> converted n h v r = true -> converted m h v r = true.
Proof.
  intros h; induction n as [|n IH]; intros m v r Hle H.
  - destruct v as [| | | | | |a]; destruct m; simpl in *; try exact H.
    destruct (lookup h a) as [[ps|xs|xs|es]|]; try exact H; discriminate.
  - destruct m as [|m]; [lia|].
    destruct v as [| | | | | |a]; simpl in *; try exact H.
    destruct (lookup h a) as [[ps|xs|xs|es]|]; try exact H;
      destruct r as [| | | | | |a']; try discriminate;
      destruct (lookup h a') as [[ps'|ys|ys|es']|]; try discriminate.
    + revert H. apply all2_implies. intros x y. apply IH. lia.
    + apply andb_true_iff in H as [Hlen H]. apply andb_true_iff.
      split; [exact Hlen|]. revert H. apply forallb_implies.
      intros [k y]; simpl. destruct (assoc k es); [|discriminate].
      apply IH. lia.
Qed.

Section Recomputation.
Context {host : Host}.

Lemma selectorToJS_recomputes : forall s state c m h a c1 d1 o de,
  call s state c h = (Return (VRef a), c1, d1) ->
  lookup (h ++ d1) a = Some o ->
  is_collection o = true ->
  areArgumentsShallowlyEqual Immutable.is_ (lastArgs m) [VRef a] (h ++ d1)
  = (Return false, de) ->
  call (selectorToJS s) state ((c, tt), m) h
  = match Immutable.toJS (VRef a) (h ++ d1 ++ de) with
    | (Return r, d') =>
        (Return r, ((c1, tt), {| lastArgs := Some [VRef a]; lastResult := r |}),
         d1 ++ de ++ d')
    | (Throw e, d') => (Throw e, ((c1, tt), m), d1 ++ de ++ d')
    end.
Proof.
  intros s state c m h a c1 d1 o de Hs Hl Ho Hmiss.
  unfold selectorToJS.
  rewrite (comparing_selector_call s _ state c m h (VRef a) c1 d1 Hs), Hmiss.
  cbv beta zeta; change (arg 0 [VRef a]) with (VRef a).
  change (truthy (VRef a)) with true. cbv iota.
  unfold call_method; simpl get_prop.
  apply (lookup_grow _ de) in Hl. rewrite <- app_assoc in Hl. rewrite Hl.
  destruct o; try discriminate; cbn [apply_fn];
    destruct (Immutable.toJS (VRef a) (h ++ d1 ++ de)) as [[r|e] d']; reflexivity.
Qed.

(** When a normalizing selector computes anew on a collection (at its
    first call, or when the collection is not equal for [Immutable.is] to
    the value of the call before) and returns, it returns a reference
    that was not in the store before the conversion, to an array or plain
    object. *)
Theorem recomputed_reference_is_new : forall s state c m h a c1 d1 o de,
  call s state c h = (Return (VRef a), c1, d1) ->
  lookup (h ++ d1) a = Some o ->
  is_collection o = true ->
  areArgumentsShallowlyEqual Immutable.is_ (lastArgs m) [VRef a] (h ++ d1)
  = (Return false, de) ->
  (forall r cS d,
      call (selectorToJS s) state ((c, tt), m) h = (Return r, cS, d) ->
      exists a' o', r = VRef a' /\ lookup (h ++ d1 ++ de) a' = None
                    /\ lookup (h ++ d) a' = Some o' /\ is_collection o' = false)
  /\ (forall r cS d,
      call (ensureJSSelector s) state ((c, tt), m) h = (Return r, cS, d) ->
      exists a' o', r = VRef a' /\ lookup (h ++ d1 ++ de) a' = None
                    /\ lookup (h ++ d) a' = Some o' /\ is_collection o' = false).
Proof.
  intros s state c m h a c1 d1 o de Hs Hl Ho Hmiss.
  assert (A : forall r cS d,
      call (selectorToJS s) state ((c, tt), m) h = (Return r, cS, d) ->
      exists a' o', r = VRef a' /\ lookup (h ++ d1 ++ de) a' = None
                    /\ lookup (h ++ d) a' = Some o' /\ is_collection o' = false).
  { intros r cS d H.
    rewrite (selectorToJS_recomputes s state c m h a c1 d1 o de Hs Hl Ho Hmiss) in H.
    destruct (Immutable.toJS (VRef a) (h ++ d1 ++ de)) as [[r0|e] d'] eqn:E;
      [|discriminate].
    injection H as <- _ <-.
    assert (Hl' : lookup (h ++ d1 ++ de) a = Some o).
    { rewrite app_assoc. now apply lookup_grow. }
    destruct (toJS_allocates _ _ _ _ _ _ Hl' Ho E) as (dA & o' & -> & -> & Ho').
    exists (List.length ((h ++ d1 ++ de) ++ dA)), o'. repeat split.
    - apply nth_error_None. rewrite !length_app. lia.
    - replace (h ++ d1 ++ de ++ dA ++ [o']) with (((h ++ d1 ++ de) ++ dA) ++ [o'])
        by (now rewrite <- !app_assoc).
      apply lookup_fresh.
    - exact Ho'. }
  split; [exact A|].
  intros r cS d H. apply (A r cS d).
  rewrite <- (ensureJSSelector_as_selectorToJS s state c m h (VRef a) c1 d1 Hs); [exact H|].
  right; right. apply callable_collection with o; auto.
Qed.

Lemma normalizers_recompute_image : forall s state c m h a c1 d1 o de,
  call s state c h = (Return (VRef a), c1, d1) ->
  store_ok (h ++ d1 ++ de) ->
  lookup (h ++ d1) a = Some o ->
  is_collection o = true ->
  areArgumentsShallowlyEqual Immutable.is_ (lastArgs m) [VRef a] (h ++ d1)
  = (Return false, de) ->
  exists r d',
    call (selectorToJS s) state ((c, tt), m) h
    = (Return r, ((c1, tt), {| lastArgs := Some [VRef a]; lastResult := r |}),
       d1 ++ de ++ d')
    /\ call (ensureJSSelector s) state ((c, tt), m) h
       = (Return r, ((c1, tt), {| lastArgs := Some [VRef a]; lastResult := r |}),
          d1 ++ de ++ d')
    /\ forall e, plain_image (h ++ d1 ++ de ++ d' ++ e) (VRef a) r = true.
Proof.
  intros s state c m h a c1 d1 o de Hs Hok Hl Ho Hmiss.
  assert (Hl' : lookup (h ++ d1 ++ de) a = Some o).
  { rewrite app_assoc. now apply lookup_grow. }
  assert (Ha : a < List.length (h ++ d1 ++ de))
    by (apply nth_error_Some; unfold lookup in Hl'; congruence).
  destruct (toJS_converts (h ++ d1 ++ de) Hok (S (List.length (h ++ d1 ++ de))) a [] o
              ltac:(lia) Hl' Ho) as (r & d' & E & Hr).
  rewrite app_nil_r in E.
  assert (Hd : d' <> []).
  { destruct (toJS_allocates _ _ _ _ _ _ Hl' Ho E) as (dA & o' & -> & _).
    intro K. now apply app_eq_nil in K as [_ K]. }
  exists r, d'.
  assert (A : call (selectorToJS s) state ((c, tt), m) h
              = (Return r, ((c1, tt), {| lastArgs := Some [VRef a]; lastResult := r |}),
                 d1 ++ de ++ d')).
  { rewrite (selectorToJS_recomputes s state c m h a c1 d1 o de Hs Hl Ho Hmiss).
    unfold Immutable.toJS. now rewrite E. }
  split; [exact A|]. split.
  - rewrite <- A. apply (ensureJSSelector_as_selectorToJS s state c m h (VRef a) c1 d1 Hs).
    right; right. apply callable_collection with o; auto.
  - intro e. unfold plain_image.
    apply converted_deeper with (S (List.length (h ++ d1 ++ de))).
    + rewrite !length_app. destruct d'; [contradiction|]. simpl. lia.
    + specialize (Hr e). simpl app in Hr. rewrite <- !app_assoc in Hr. exact Hr.
Qed.

(** In a store of collections and plain data, a normalizing selector
    that computes anew on a collection returns, and returns the plain
    image of the collection: arrays for lists, plain objects with the
    same keys for maps, at every depth, and the other values as they
    are. *)
Theorem recomputed_value_is_plain_image : forall s state c m h a c1 d1 o de,
  call s state c h = (Return (VRef a), c1, d1) ->
  store_ok (h ++ d1 ++ de) ->
  lookup (h ++ d1) a = Some o ->
  is_collection o = true ->
  areArgumentsShallowlyEqual Immutable.is_ (lastArgs m) [VRef a] (h ++ d1)
  = (Return false, de) ->
  exists r d',
    call (selectorToJS s) state ((c, tt), m) h
    = (Return r, ((c1, tt), {| lastArgs := Some [VRef a]; lastResult := r |}),
       d1 ++ de ++ d')
    /\ call (ensureJSSelector s) state ((c, tt), m) h
       = (Return r, ((c1, tt), {| lastArgs := Some [VRef a]; lastResult := r |}),
          d1 ++ de ++ d')
    /\ forall e, plain_image (h ++ d1 ++ de ++ d' ++ e) (VRef a) r = true.
Proof. exact normalizers_recompute_image. Qed.

End Recomputation.

(** ** Collections equal for [Immutable.is] have the same plain images *)

Lemma store_ok_prefix : forall h d, store_ok (h ++ d) -> store_ok h.
Proof.
  intros h d (Hold & Hkeys & Hcall & Hown). repeat split.
  - intros a o b Hl Hin. apply (Hold a o b); [now apply lookup_grow | exact Hin].
  - intros a es Hl. apply (Hkeys a es). now apply lookup_grow.
  - intros a o Hl Hc. apply (Hcall a o); [now apply lookup_grow|].
    now apply callable_grow.
  - apply (Hown a ps). now apply lookup_grow.
  - apply (Hown a ps). now apply lookup_grow.
Qed.

Lemma store_ok_data : forall h, store_ok h -> data_store h.
Proof. intros h (Hold & _ & _ & Hown). now split. Qed.

Lemma all2_compose : forall (A : Type) (p q q' : A -> A -> bool) xs ys zs,
  (forall x y z, p x y = true -> q x z = true -> q' y z = true) ->
  all2 p xs ys = true -> all2 q xs zs = true -> all2 q' ys zs = true.
Proof.
  induction xs as [|x xs IH]; intros [|y ys] [|z zs] H Hp Hq; simpl in *;
    try discriminate; [reflexivity|].
  apply andb_true_iff in Hp as [Hx Hp]. apply andb_true_iff in Hq as [Hz Hq].
  apply andb_true_iff. split.
  - now apply (H x).
  - now apply (IH ys zs).
Qed.

Lemma assoc_some_key : forall (A : Type) (k : string) (x : A) es,
  assoc k es = Some x -> In k (map fst es).
Proof.
  induction es as [|[k' x'] es IH]; simpl; intro H; [discriminate|].
  destruct (String.eqb_spec k k') as [->|_]; [now left | right; now apply IH].
Qed.

Section EqualImages.
Context {host : Host}.

Lemma same_contents_image : forall h, store_ok h ->
  forall m n p v r,
    same_contents n h p v = true ->
    converted m h p r = true -> converted m h v r = true.
Proof.
  intros h (Hold & Hkeys & Hcall & Hown); induction m as [|m IH]; intros n p v r His Hc.
  - destruct (strict_equal p v) eqn:E.
    { apply strict_equal_eq in E; now subst. }
    destruct n as [|n]; simpl in His; rewrite E in His; [discriminate|].
    destruct p as [| | | | | |pa]; try discriminate.
    destruct v as [| | | | | |pb]; try discriminate.
    simpl in Hc.
    destruct (lookup h pa) as [[ps|xs|xs|xs]|]; discriminate.
  - destruct (strict_equal p v) eqn:E.
    { apply strict_equal_eq in E; now subst. }
    destruct n as [|n]; simpl in His; rewrite E in His; [discriminate|].
    destruct p as [| | | | | |pa]; try discriminate.
    destruct v as [| | | | | |pb]; try discriminate.
    simpl in Hc |- *.
    destruct (lookup h pa) as [oa|] eqn:La; [|discriminate].
    destruct (lookup h pb) as [ob|] eqn:Lb; [|destruct oa; discriminate].
    destruct oa as [ps|xs|xs|xs]; try discriminate;
      destruct ob as [ps'|ys|ys|ys]; try discriminate;
      destruct r as [| | | | | |a']; try discriminate;
      destruct (lookup h a') as [[qs|zs|zs|zs]|]; try discriminate.
    + revert His Hc. apply all2_compose. intros x y z. apply IH.
    + apply andb_true_iff in His as [Hlen His].
      apply andb_true_iff in Hc as [Hlen' Hc].
      apply andb_true_iff in Hlen' as [Hlen' Hd].
      apply Nat.eqb_eq in Hlen. apply Nat.eqb_eq in Hlen'.
      pose proof (Hkeys pa xs La) as Ndx. pose proof (Hkeys pb ys Lb) as Ndy.
      rewrite forallb_forall in His. rewrite forallb_forall in Hc.
      assert (Hincl : incl (map fst xs) (map fst ys)).
      { apply NoDup_length_incl; [exact Ndy | rewrite !length_map; lia |].
        intros k Hk. apply in_map_iff in Hk as ([k' y] & <- & Hin).
        specialize (His (k', y) Hin). simpl in His |- *.
        destruct (assoc k' xs) eqn:Ex; [|discriminate].
        now apply assoc_some_key in Ex. }
      apply andb_true_iff. split;
        [apply andb_true_iff; split; [apply Nat.eqb_eq; lia | exact Hd]|].
      apply forallb_forall. intros [k z] Hin.
      specialize (Hc (k, z) Hin). simpl in Hc |- *.
      destruct (assoc k xs) as [x|] eqn:Ex; [|discriminate].
      pose proof (Hincl k (assoc_some_key _ _ _ _ Ex)) as Hk.
      apply in_map_iff in Hk as ([k' y] & Ek & Hy). simpl in Ek; subst k'.
      rewrite (assoc_NoDup k y ys Ndy Hy).
      specialize (His (k, y) Hy). simpl in His. rewrite Ex in His.
      now apply (IH n x y z).
Qed.

End EqualImages.

Section Reuse.
Context {host : Host}.

Lemma is_same_image : forall h a b r de,
  store_ok h ->
  Immutable.is_ (VRef a) (VRef b) h = (Return true, de) ->
  plain_image h (VRef a) r = true ->
  de = [] /\ plain_image h (VRef b) r = true.
Proof.
  unfold Immutable.is_, plain_image; intros h a b r de Hok H Him.
  destruct (is_fuel_same_contents h (store_ok_data _ Hok) _ _ _ _ H) as [-> Hs].
  split; [reflexivity|]. now apply (same_contents_image h Hok _ _ _ _ r Hs).
Qed.

Lemma comparing_selector_reuses : forall s f stateB cB h2 a b r c2 dB de,
  call s stateB cB h2 = (Return (VRef b), c2, dB) ->
  store_ok (h2 ++ dB) ->
  Immutable.is_ (VRef a) (VRef b) (h2 ++ dB) = (Return true, de) ->
  plain_image (h2 ++ dB) (VRef a) r = true ->
  call (createImmutableComparingSelector [s] f) stateB
    ((cB, tt), {| lastArgs := Some [VRef a]; lastResult := r |}) h2
  = (Return r, ((c2, tt), {| lastArgs := Some [VRef b]; lastResult := r |}), dB)
  /\ plain_image (h2 ++ dB) (VRef b) r = true.
Proof.
  intros s f stateB cB h2 a b r c2 dB de HB Hok His Him.
  destruct (is_same_image _ _ _ _ _ Hok His Him) as [-> Hb].
  split; [|exact Hb].
  rewrite (comparing_selector_call s f stateB cB _ h2 (VRef b) c2 dB HB).
  cbn [lastArgs lastResult]. rewrite equal_arguments_one, His.
  now rewrite app_nil_r.
Qed.

Lemma selectorToJS_conversion_kept : forall s stateA c m h a oa c1 dA de0 r cS d,
  call s stateA c h = (Return (VRef a), c1, dA) ->
  lookup (h ++ dA) a = Some oa ->
  is_collection oa = true ->
  areArgumentsShallowlyEqual Immutable.is_ (lastArgs m) [VRef a] (h ++ dA)
  = (Return false, de0) ->
  call (selectorToJS s) stateA ((c, tt), m) h = (Return r, cS, d) ->
  forall e, store_ok (h ++ d ++ e) ->
  snd cS = {| lastArgs := Some [VRef a]; lastResult := r |}
  /\ plain_image (h ++ d ++ e) (VRef a) r = true.
Proof.
  intros s stateA c m h a oa c1 dA de0 r cS d HA Hl Ho Hmiss HS e Hok.
  pose proof HS as HS'.
  rewrite (selectorToJS_recomputes s stateA c m h a c1 dA oa de0 HA Hl Ho Hmiss) in HS'.
  destruct (Immutable.toJS (VRef a) (h ++ dA ++ de0)) as [[r0|e1] d'] eqn:E;
    [|discriminate].
  injection HS' as -> <- <-.
  assert (Hok0 : store_ok (h ++ dA ++ de0)).
  { apply store_ok_prefix with (d' ++ e).
    now rewrite <- !app_assoc in Hok |- *. }
  destruct (normalizers_recompute_image s stateA c m h a c1 dA oa de0 HA Hok0 Hl Ho Hmiss)
    as (r' & d'' & ES & _ & Him).
  rewrite HS in ES.
  pose proof (f_equal (fun x => fst (fst x)) ES) as Er.
  pose proof (f_equal snd ES) as E'. simpl in Er, E'.
  injection Er as <-.
  apply app_inv_head in E'. apply app_inv_head in E'. subst d''.
  split; [reflexivity|].
  specialize (Him e). now rewrite <- !app_assoc.
Qed.

(** In a store of collections and plain data, after a call that converted
    a collection, a call on a collection equal to it for [Immutable.is]
    returns the reference the call before returned, allocates nothing of
    its own, and that reference is the plain image of the collection of
    this call as well. *)
Theorem reused_conversion_is_plain_image :
  forall s stateA stateB c m h a oa c1 dA de0 e0 cB h2 b c2 dB de,
  call s stateA c h = (Return (VRef a), c1, dA) ->
  lookup (h ++ dA) a = Some oa ->
  is_collection oa = true ->
  areArgumentsShallowlyEqual Immutable.is_ (lastArgs m) [VRef a] (h ++ dA)
  = (Return false, de0) ->
  call s stateB cB h2 = (Return (VRef b), c2, dB) ->
  store_ok (h2 ++ dB) ->
  Immutable.is_ (VRef a) (VRef b) (h2 ++ dB) = (Return true, de) ->
  (forall r cS d,
      call (selectorToJS s) stateA ((c, tt), m) h = (Return r, cS, d) ->
      h2 = h ++ d ++ e0 ->
      call (selectorToJS s) stateB ((cB, tt), snd cS) h2
      = (Return r, ((c2, tt), {| lastArgs := Some [VRef b]; lastResult := r |}), dB)
      /\ plain_image (h2 ++ dB) (VRef a) r = true
      /\ plain_image (h2 ++ dB) (VRef b) r = true)
  /\ (forall r cS d,
      call (ensureJSSelector s) stateA ((c, tt), m) h = (Return r, cS, d) ->
      h2 = h ++ d ++ e0 ->
      call (ensureJSSelector s) stateB ((cB, tt), snd cS) h2
      = (Return r, ((c2, tt), {| lastArgs := Some [VRef b]; lastResult := r |}), dB)
      /\ plain_image (h2 ++ dB) (VRef a) r = true
      /\ plain_image (h2 ++ dB) (VRef b) r = true).
Proof.
  intros s stateA stateB c m h a oa c1 dA de0 e0 cB h2 b c2 dB de
         HA Hl Ho Hmiss HB Hok His.
  assert (A : forall r cS d,
      call (selectorToJS s) stateA ((c, tt), m) h = (Return r, cS, d) ->
      h2 = h ++ d ++ e0 ->
      snd cS = {| lastArgs := Some [VRef a]; lastResult := r |}
      /\ plain_image (h2 ++ dB) (VRef a) r = true).
  { intros r cS d HS ->.
    destruct (selectorToJS_conversion_kept s stateA c m h a oa c1 dA de0 r cS d
                HA Hl Ho Hmiss HS (e0 ++ dB)) as [Em Him].
    - now rewrite <- !app_assoc in Hok.
    - split; [exact Em|]. now rewrite <- !app_assoc. }
  split; intros r cS d HS Eh.
  - destruct (A r cS d HS Eh) as [Em Him]. rewrite Em.
    unfold selectorToJS.
    match goal with
    | |- call (createImmutableComparingSelector [s] ?f) _ _ _ = _ /\ _ =>
        destruct (comparing_selector_reuses s f stateB cB h2 a b r c2 dB de
                    HB Hok His Him) as [Ecall Hb]
    end.
    now repeat split.
  - assert (HS' : call (selectorToJS s) stateA ((c, tt), m) h = (Return r, cS, d)).
    { rewrite <- (ensureJSSelector_as_selectorToJS s stateA c m h (VRef a) c1 dA HA);
        [exact HS|].
      right; right. apply callable_collection with oa; auto. }
    destruct (A r cS d HS' Eh) as [Em Him]. rewrite Em.
    unfold ensureJSSelector.
    match goal with
    | |- call (createImmutableComparingSelector [s] ?f) _ _ _ = _ /\ _ =>
        destruct (comparing_selector_reuses s f stateB cB h2 a b r c2 dB de
                    HB Hok His Him) as [Ecall Hb]
    end.
    now repeat split.
Qed.

End Reuse.

(** * The further properties on the stores of the test suite *)

Lemma nested_store_ok : store_ok nested_store.
Proof.
  split; [exact nested_store_older|split; [|split]].
  - intros a es Hl.
    do 4 (destruct a as [|a];
          [simpl in Hl; try discriminate; injection Hl as <-; simpl;
           repeat constructor; simpl; intuition discriminate|]).
    simpl in Hl; discriminate.
  - intros a o Hl Hc.
    do 4 (destruct a as [|a];
          [simpl in Hl; try discriminate; injection Hl as <-;
           first [reflexivity | vm_compute in Hc; discriminate]|]).
    simpl in Hl; discriminate.
  - intros a ps Hl.
    do 4 (destruct a as [|a];
          [simpl in Hl; try discriminate; injection Hl as <-; split; reflexivity|]).
    simpl in Hl; discriminate.
Qed.

Lemma list_store_ok : store_ok (list_store ++ [Arr [VNum 1; VNum 2; VNum 3]]).
Proof.
  split; [|split; [|split]].
  - intros a o b Hl Hin.
    do 8 (destruct a as [|a];
          [simpl in Hl; try discriminate; injection Hl as <-; simpl in Hin;
           intuition discriminate|]).
    simpl in Hl; discriminate.
  - intros a es Hl.
    do 8 (destruct a as [|a]; [simpl in Hl; discriminate|]).
    simpl in Hl; discriminate.
  - intros a o Hl Hc.
    do 8 (destruct a as [|a];
          [simpl in Hl; try discriminate; injection Hl as <-;
           first [reflexivity | vm_compute in Hc; discriminate]|]).
    simpl in Hl; discriminate.
  - intros a ps Hl.
    do 8 (destruct a as [|a];
          [simpl in Hl; try discriminate; injection Hl as <-; split; reflexivity|]).
    simpl in Hl; discriminate.
Qed.


(** The first list is converted, the selector then fails on the state
    [null], and the second list, equal to the first, still gets the array
    of the first call. *)
Lemma failed_call_keeps_memo_witness :
  let S := selectorToJS (host := example_host) (prop_selector "contents") in
  let first := call S state1 (fresh S) list_store in
  let failed := call S VNull (snd (fst first)) (list_store ++ snd first) in
  answer first = Return (VRef 6)
  /\ answer failed = Throw (TypeError "Cannot read property of undefined or null")
  /\ call S state2 (snd (fst failed)) (list_store ++ snd first)
     = (Return (VRef 6),
        ((tt, tt), {| lastArgs := Some [VRef 1]; lastResult := VRef 6 |}), []).
Proof.
  cbv zeta. split; [reflexivity|]. split; [reflexivity|].
  exact (proj1 (failed_call_keeps_memo (host := example_host)
                  (prop_selector "contents") state1 VNull state2 tt new_memo list_store
                  (VRef 0) tt [] tt (list_store ++ [Arr [VNum 1; VNum 2; VNum 3]])
                  tt (list_store ++ [Arr [VNum 1; VNum 2; VNum 3]]) (VRef 1) tt [] []
                  eq_refl eq_refl eq_refl)
           (VRef 6)
           ((tt, tt), {| lastArgs := Some [VRef 0]; lastResult := VRef 6 |})
           [Arr [VNum 1; VNum 2; VNum 3]]
           (TypeError "Cannot read property of undefined or null")
           ((tt, tt), {| lastArgs := Some [VRef 0]; lastResult := VRef 6 |})
           [] eq_refl eq_refl).
Defined.

(** A selector that returns the string [key]: its inversion is [false],
    and the inversion of that is [true], not the string. *)
Lemma invertSelector_coerces_witness :
  let I := invertSelector (prop_selector "key") in
  let II := invertSelector I in
  answer (call (prop_selector "key") (VRef 2) tt lookup_store) = Return (VStr "key")
  /\ answer (call I (VRef 2) (fresh I) lookup_store) = Return (VBool false)
  /\ answer (call II (VRef 2) (fresh II) lookup_store) = Return (VBool true).
Proof.
  cbv zeta. split; [reflexivity|].
  pose (T := invertSelector_coerces
               (prop_selector "key") (VRef 2) lookup_store (VStr "key") tt tt [] eq_refl).
  split.
  - exact (proj1 T new_memo (reach_fresh _ _)).
  - exact (proj1 (proj2 T) new_memo new_memo (reach_fresh _ _)).
Defined.

(** After the first list, a state with another list: the entry returns a
    new array, and the props selector a new object that holds it. *)
Lemma createPropsSelector_rebuilds_witness :
  let P :=
    createPropsSelector (host := example_host) [("items", prop_selector "contents")] in
  let first := call P state1 (fresh P) list_store in
  let second := call P state3 (snd (fst first)) (list_store ++ snd first) in
  answer first = Return (VRef 7)
  /\ answer second = Return (VRef 9)
  /\ lookup (list_store ++ snd first) 9 = None
  /\ lookup (list_store ++ snd first ++ snd second) 9 = Some (Plain [("items", VRef 8)]).
Proof.
  cbv zeta. split; [reflexivity|].
  pose (T := createPropsSelector_rebuilds (host := example_host)
               [("items", prop_selector "contents")] state3
               ((((tt, tt), {| lastArgs := Some [VRef 0]; lastResult := VRef 6 |}), tt),
                {| lastArgs := Some [VRef 6]; lastResult := VRef 7 |})
               (list_store ++ [Arr [VNum 1; VNum 2; VNum 3]; Plain [("items", VRef 6)]])
               [VRef 8]
               (((tt, tt), {| lastArgs := Some [VRef 2]; lastResult := VRef 8 |}), tt)
               [Arr [VNum 9]]
               (NoDup_cons "items" (fun H : In "items" [] => H) (NoDup_nil string))
               eq_refl
               ltac:(discriminate)).
  split; [exact (f_equal answer (proj1 T))|].
  split; [reflexivity|].
  exact (proj2 (proj2 T)).
Defined.

(** The props selector of no entry, called on two states. *)
Lemma createPropsSelector_empty_witness :
  let P := createPropsSelector (host := example_host) [] in
  let first := call P state1 (fresh P) list_store in
  answer first = Return (VRef 6)
  /\ call P state2 (snd (fst first)) (list_store ++ snd first)
     = (Return (VRef 6), (tt, {| lastArgs := Some []; lastResult := VRef 6 |}), []).
Proof.
  cbv zeta. split; [reflexivity|].
  exact (proj2 (createPropsSelector_empty (host := example_host))
           state1 state2 (tt, new_memo) list_store (VRef 6)
           (tt, {| lastArgs := Some []; lastResult := VRef 6 |}) [Plain []]
           (list_store ++ [Plain []]) eq_refl).
Defined.

(** The array made for the first list is at an address the store did not
    have. *)
Lemma recomputed_reference_is_new_witness :
  let S := selectorToJS (host := example_host) (prop_selector "contents") in
  answer (call S state1 (fresh S) list_store) = Return (VRef 6)
  /\ exists a' o',
       VRef 6 = VRef a' /\ lookup list_store a' = None
       /\ lookup (list_store ++ [Arr [VNum 1; VNum 2; VNum 3]]) a' = Some o'
       /\ is_collection o' = false.
Proof.
  cbv zeta. split; [reflexivity|].
  exact (proj1 (recomputed_reference_is_new (host := example_host)
                  (prop_selector "contents") state1 tt new_memo list_store 0 tt []
                  (IList [VNum 1; VNum 2; VNum 3]) [] eq_refl eq_refl eq_refl eq_refl)
           (VRef 6)
           ((tt, tt), {| lastArgs := Some [VRef 0]; lastResult := VRef 6 |})
           [Arr [VNum 1; VNum 2; VNum 3]] eq_refl).
Defined.

(** The nested map of the test suite, at a first call *)
Lemma recomputed_value_is_plain_image_witness :
  let S := selectorToJS (host := example_host) (prop_selector "contents") in
  let E := ensureJSSelector (host := example_host) (prop_selector "contents") in
  exists r d',
    call S (VRef 2) (fresh S) nested_store
    = (Return r, ((tt, tt), {| lastArgs := Some [VRef 1]; lastResult := r |}), d')
    /\ call E (VRef 2) (fresh E) nested_store
       = (Return r, ((tt, tt), {| lastArgs := Some [VRef 1]; lastResult := r |}), d')
    /\ forall e, plain_image (nested_store ++ d' ++ e) (VRef 1) r = true.
Proof.
  cbv zeta.
  exact (recomputed_value_is_plain_image (host := example_host)
           (prop_selector "contents") (VRef 2) tt new_memo nested_store 1 tt []
           (IMap [("test", VBool true); ("numbers", VRef 0); ("str", VStr "string!")])
           [] eq_refl nested_store_ok eq_refl eq_refl eq_refl).
Defined.

(** The second list, equal to the first: the call returns the array made
    for the first list, which is the plain image of the second list
    too. *)
Lemma reused_conversion_is_plain_image_witness :
  let S := selectorToJS (host := example_host) (prop_selector "contents") in
  let first := call S state1 (fresh S) list_store in
  let h2 := list_store ++ snd first in
  answer first = Return (VRef 6)
  /\ Immutable.is_ (host := example_host) (VRef 0) (VRef 1) h2 = (Return true, [])
  /\ call S state2 (snd (fst first)) h2
     = (Return (VRef 6),
        ((tt, tt), {| lastArgs := Some [VRef 1]; lastResult := VRef 6 |}), [])
  /\ plain_image h2 (VRef 0) (VRef 6) = true
  /\ plain_image h2 (VRef 1) (VRef 6) = true.
Proof.
  cbv zeta. split; [reflexivity|]. split; [reflexivity|].
  exact (proj1 (reused_conversion_is_plain_image (host := example_host)
                  (prop_selector "contents") state1 state2 tt new_memo list_store 0
                  (IList [VNum 1; VNum 2; VNum 3]) tt [] [] [] tt
                  (list_store ++ [Arr [VNum 1; VNum 2; VNum 3]]) 1 tt [] []
                  eq_refl eq_refl eq_refl eq_refl eq_refl list_store_ok eq_refl)
           (VRef 6)
           ((tt, tt), {| lastArgs := Some [VRef 0]; lastResult := VRef 6 |})
           [Arr [VNum 1; VNum 2; VNum 3]] eq_refl eq_refl).
Defined.

(** The relation [plain_image] on the conversion of the nested map: the
    object the conversion made is its image, the array made for the inner
    list is not. *)
Example test_plain_image_nested :
  let E := ensureJSSelector (host := example_host) (prop_selector "contents") in
  let h := nested_store ++ snd (call E (VRef 2) (fresh E) nested_store) in
  plain_image h (VRef 1) (VRef 4) = true
  /\ plain_image h (VRef 0) (VRef 3) = true
  /\ plain_image h (VRef 1) (VRef 3) = false
  /\ plain_image h (VRef 1) (VRef 1) = false.
Proof. repeat split; reflexivity. Qed.

(** The image of a map has the keys of the map, in any order: an object
    that repeats one key and leaves out another is not its image. *)
Example test_plain_image_keys :
  let h := [ IMap [("a", VNum 1); ("b", VNum 2)];
             Plain [("a", VNum 1); ("b", VNum 2)];
             Plain [("b", VNum 2); ("a", VNum 1)];
             Plain [("a", VNum 1); ("a", VNum 1)];
             Plain [("a", VNum 1)];
             Plain [("a", VNum 1); ("b", VNum 3)] ] in
  plain_image h (VRef 0) (VRef 1) = true
  /\ plain_image h (VRef 0) (VRef 2) = true
  /\ plain_image h (VRef 0) (VRef 3) = false
  /\ plain_image h (VRef 0) (VRef 4) = false
  /\ plain_image h (VRef 0) (VRef 5) = false.
Proof. repeat split; reflexivity. Qed.
